(** * rejson-struct: three ways of persisting a Go struct in Redis

    A shallow embedding of [main.go].  The program is glue code: each of
    its six functions is one or two calls into [encoding/json], the
    redigo client, the go-rejson helper and, behind them, a Redis server
    with the JSON module.  The embedding therefore has two layers:

    - the program itself ([Student], [addStructHash], [getStructHash],
      [addStructReJSON], [getStructReJSON], [addStructHashWithJSON],
      [getStructHashWithJSON], [main]), translated line by line;
    - the library calls it makes, modelled from their documented
      behaviour at the level the program observes: Go strings are byte
      strings, [json.Marshal] and [json.Unmarshal] work on JSON text,
      [conn.Do] sends a list of bulk strings to a server whose state is
      a finite map from keys to values.

    Go state is threaded explicitly: a [World] holds the Go heap (the
    [StudentDetails] objects that [*StudentDetails] pointers address) and
    the connection with the server behind it. *)

From Stdlib Require Import ZArith String Ascii HexString List Lia Bool.
From stdpp Require Import gmap strings.

Local Open Scope Z_scope.

(* ================================================================== *)
(** * Part I: definitions                                              *)
(* ================================================================== *)

(** ** Bytes and Go strings

    A Go [string] is an immutable sequence of bytes; it is modelled by
    [string], whose characters are 8-bit [ascii] values. *)

Definition byteZ (c : ascii) : Z := Z.of_N (N_of_ascii c).

(** Go's conversion [byte(x)]: the low eight bits. *)
Definition toByte (z : Z) : ascii := ascii_of_N (Z.to_N (z mod 256)).

Fixpoint takeS (n : nat) (s : string) : string :=
  match n, s with
  | S k, String c t => String c (takeS k t)
  | _, _ => EmptyString
  end.

Fixpoint dropS (n : nat) (s : string) : string :=
  match n, s with
  | S k, String _ t => dropS k t
  | _, _ => s
  end.

(** ** Package [unicode/utf8] *)

Module utf8.

Definition RuneError : Z := 0xFFFD.
Definition RuneSelf : Z := 0x80.
Definition MaxRune : Z := 0x10FFFF.
Definition surrogateMin : Z := 0xD800.
Definition surrogateMax : Z := 0xDFFF.

Definition maskx : Z := 0x3F.
Definition mask2 : Z := 0x1F.
Definition mask3 : Z := 0x0F.
Definition mask4 : Z := 0x07.
Definition tx : Z := 0x80.
Definition t2 : Z := 0xC0.
Definition t3 : Z := 0xE0.
Definition t4 : Z := 0xF0.

Definition rune1Max : Z := 0x7F.
Definition rune2Max : Z := 0x7FF.
Definition rune3Max : Z := 0xFFFF.

Definition locb : Z := 0x80.
Definition hicb : Z := 0xBF.

(** Entries of the table [first]: the low three bits are the length
    of the sequence, the high four an index into [acceptRanges]. *)
Definition xx : Z := 0xF1.
Definition as_ : Z := 0xF0.
Definition s1 : Z := 0x02.
Definition s2 : Z := 0x13.
Definition s3 : Z := 0x03.
Definition s4 : Z := 0x23.
Definition s5 : Z := 0x34.
Definition s6 : Z := 0x04.
Definition s7 : Z := 0x44.

Definition first (b : Z) : Z :=
  if b <? 0x80 then as_
  else if b <? 0xC2 then xx
  else if b <? 0xE0 then s1
  else if b =? 0xE0 then s2
  else if b <? 0xED then s3
  else if b =? 0xED then s4
  else if b <? 0xF0 then s3
  else if b =? 0xF0 then s5
  else if b <? 0xF4 then s6
  else if b =? 0xF4 then s7
  else xx.

Definition acceptRanges (i : Z) : Z * Z :=
  if i =? 0 then (locb, hicb)
  else if i =? 1 then (0xA0, hicb)
  else if i =? 2 then (locb, 0x9F)
  else if i =? 3 then (0x90, hicb)
  else if i =? 4 then (locb, 0x8F)
  else (0, 0).

(** [DecodeRuneInString s]: the first rune of [s] and its width in
    bytes; [(RuneError, 1)] for an invalid or truncated sequence,
    [(RuneError, 0)] for the empty string.  Go tests [len(s) < sz]
    before it reads the continuation bytes; here a missing
    continuation byte is the [EmptyString] case of each [match]. *)
Definition DecodeRuneInString (s : string) : Z * nat :=
  match s with
  | EmptyString => (RuneError, 0%nat)
  | String c0 r0 =>
    let b0 := byteZ c0 in
    let x := first b0 in
    if as_ <=? x then ((if Z.odd x then RuneError else b0), 1%nat)
    else
      let sz := Z.land x 7 in
      let '(lo, hi) := acceptRanges (Z.shiftr x 4) in
      match r0 with
      | EmptyString => (RuneError, 1%nat)
      | String c1 r1 =>
        let b1 := byteZ c1 in
        if (b1 <? lo) || (hi <? b1) then (RuneError, 1%nat)
        else if sz <=? 2 then
          (Z.lor (Z.shiftl (Z.land b0 mask2) 6) (Z.land b1 maskx), 2%nat)
        else
          match r1 with
          | EmptyString => (RuneError, 1%nat)
          | String c2 r2 =>
            let b2 := byteZ c2 in
            if (b2 <? locb) || (hicb <? b2) then (RuneError, 1%nat)
            else if sz <=? 3 then
              (Z.lor (Z.lor (Z.shiftl (Z.land b0 mask3) 12)
                            (Z.shiftl (Z.land b1 maskx) 6))
                     (Z.land b2 maskx), 3%nat)
            else
              match r2 with
              | EmptyString => (RuneError, 1%nat)
              | String c3 _ =>
                let b3 := byteZ c3 in
                if (b3 <? locb) || (hicb <? b3) then (RuneError, 1%nat)
                else
                  (Z.lor (Z.lor (Z.lor (Z.shiftl (Z.land b0 mask4) 18)
                                       (Z.shiftl (Z.land b1 maskx) 12))
                                (Z.shiftl (Z.land b2 maskx) 6))
                         (Z.land b3 maskx), 4%nat)
              end
          end
      end
  end.

(** [EncodeRune]: the UTF-8 encoding of a rune; a surrogate or a value
    out of range is encoded as [RuneError]. *)
Definition encode3 (r : Z) : string :=
  String (toByte (Z.lor t3 (Z.shiftr r 12)))
    (String (toByte (Z.lor tx (Z.land (Z.shiftr r 6) maskx)))
      (String (toByte (Z.lor tx (Z.land r maskx))) EmptyString)).

Definition EncodeRune (r : Z) : string :=
  let i := r mod 2 ^ 32 in
  if i <=? rune1Max then String (toByte r) EmptyString
  else if i <=? rune2Max then
    String (toByte (Z.lor t2 (Z.shiftr r 6)))
      (String (toByte (Z.lor tx (Z.land r maskx))) EmptyString)
  else if (MaxRune <? i) || ((surrogateMin <=? i) && (i <=? surrogateMax))
  then encode3 RuneError
  else if i <=? rune3Max then encode3 r
  else
    String (toByte (Z.lor t4 (Z.shiftr r 18)))
      (String (toByte (Z.lor tx (Z.land (Z.shiftr r 12) maskx)))
        (String (toByte (Z.lor tx (Z.land (Z.shiftr r 6) maskx)))
          (String (toByte (Z.lor tx (Z.land r maskx))) EmptyString))).

(** A position holds an encoding error when decoding there yields
    [RuneError] with width 1. *)
Definition invalidAt (s : string) : bool :=
  let '(r, size) := DecodeRuneInString s in
  (r =? RuneError) && (size =? 1)%nat.

(** [ValidString]: the loop [for i < len(s) { decode; i += size }]
    written by structural recursion; [skip] counts the bytes of the
    current rune that are still to be stepped over. *)
Fixpoint validFrom (skip : nat) (s : string) : bool :=
  match s with
  | EmptyString => true
  | String _ t =>
    match skip with
    | S k => validFrom k t
    | O =>
      if invalidAt s then false
      else validFrom (snd (DecodeRuneInString s) - 1) t
    end
  end.

Definition ValidString (s : string) : bool := validFrom 0 s.

End utf8.

(** ** Package [unicode/utf16] (the two functions the decoder uses) *)

Module utf16.

Definition surr1 : Z := 0xD800.
Definition surr2 : Z := 0xDC00.
Definition surr3 : Z := 0xE000.
Definition surrSelf : Z := 0x10000.
Definition replacementChar : Z := 0xFFFD.

Definition IsSurrogate (r : Z) : bool := (surr1 <=? r) && (r <? surr3).

Definition DecodeRune (r1 r2 : Z) : Z :=
  if (surr1 <=? r1) && (r1 <? surr2) && (surr2 <=? r2) && (r2 <? surr3)
  then Z.lor (Z.shiftl (r1 - surr1) 10) (r2 - surr2) + surrSelf
  else replacementChar.

End utf16.

(** ** Package [strconv] (base 10, 64 bits) *)

Module strconv.

Definition isDigit (c : ascii) : bool :=
  (48 <=? byteZ c) && (byteZ c <=? 57).

Definition digitChar (d : Z) : ascii := toByte (48 + d).

(** The digit loop of [formatBits]; an unsigned 64-bit value has at
    most twenty decimal digits. *)
Fixpoint formatBits (fuel : nat) (u : Z) (acc : string) : string :=
  match fuel with
  | O => acc
  | S f =>
    if u <? 10 then String (digitChar u) acc
    else formatBits f (u / 10) (String (digitChar (u mod 10)) acc)
  end.

Definition FormatInt (i : Z) : string :=
  if i <? 0 then String "-" (formatBits 20 (- i) EmptyString)
  else formatBits 20 i EmptyString.

Fixpoint parseDigits (s : string) (acc : Z) : option Z :=
  match s with
  | EmptyString => Some acc
  | String c t =>
    if isDigit c then parseDigits t (acc * 10 + (byteZ c - 48)) else None
  end.

Definition minInt64 : Z := - 2 ^ 63.
Definition maxInt64 : Z := 2 ^ 63 - 1.

(** [ParseInt(s, 10, 64)]: [None] stands for a syntax or range error. *)
Definition ParseInt (s : string) : option Z :=
  let '(neg, ds) :=
    match s with
    | String c t =>
      if (c =? "-")%char then (true, t)
      else if (c =? "+")%char then (false, t)
      else (false, s)
    | EmptyString => (false, s)
    end in
  match ds with
  | EmptyString => None
  | _ =>
    match parseDigits ds 0 with
    | None => None
    | Some u =>
      let v := if neg then - u else u in
      if (minInt64 <=? v) && (v <=? maxInt64) then Some v else None
    end
  end.

End strconv.

(** ** The program's types ([main.go], lines 15-35) *)

(** [Name] is declared by the program and never used. *)
Record Name := mkName {
  First : string;
  Middle : string;
  Last : string
}.

Record StudentDetails := mkStudentDetails {
  FirstName : string;
  LastName : string;
  Major : string
}.

(** A [*StudentDetails] is [None] for [nil] and otherwise the address of
    an object on the Go heap. *)
Definition loc := positive.

Record Student := mkStudent {
  Info : option loc;
  Rank : Z
}.

(** The dynamic values that reach the parameter [value interface{}] and
    the arguments of [conn.Do] in this model.  [VChan] stands for the
    types [encoding/json] cannot encode (channels, functions, complex
    numbers); [VBytes] is a [[]byte]. *)
Inductive Value :=
| VString (s : string)
| VBytes (b : string)
| VInt (n : Z)
| VDetailsPtr (p : option loc)
| VStudent (s : Student)
| VChan (addr : loc).

Inductive error :=
| UnsupportedTypeError          (* json: unsupported type *)
| SyntaxError                   (* json: invalid character / unexpected end *)
| UnmarshalTypeError            (* json: cannot unmarshal ... into Go value *)
| RedisError (msg : string)     (* an error reply of the server *)
| ConnError                     (* the connection is closed or broken *)
| ReplyTypeError                (* redigo: unexpected type for a reply helper *)
| PanicError (msg : string).    (* a run-time panic *)

Inductive result (A : Type) :=
| Ok (a : A)
| Err (e : error).
Arguments Ok {A} a.
Arguments Err {A} e.

Definition isErr {A} (r : result A) : bool :=
  match r with Err _ => true | Ok _ => false end.

(** ** JSON text *)

#[warnings="-register-all"]
Inductive jvalue :=
| JNull
| JBool (b : bool)
| JNumber (lit : string)
| JString (s : string)
| JArray (l : list jvalue)
| JObject (m : list (string * jvalue)).

Module jsontext.

Definition quoteChar : ascii := "034"%char.
Definition backslash : ascii := "\"%char.

Definition isSpace (c : ascii) : bool :=
  (c =? " ")%char || (byteZ c =? 9) || (byteZ c =? 13) || (byteZ c =? 10).

Fixpoint skipSpace (s : string) : string :=
  match s with
  | String c t => if isSpace c then skipSpace t else s
  | EmptyString => s
  end.

Definition hexVal (c : ascii) : option Z :=
  let b := byteZ c in
  if (48 <=? b) && (b <=? 57) then Some (b - 48)
  else if (97 <=? b) && (b <=? 102) then Some (b - 97 + 10)
  else if (65 <=? b) && (b <=? 70) then Some (b - 65 + 10)
  else None.

(** [getu4]: the value of a leading [\uXXXX], or -1. *)
Definition getu4 (s : string) : Z :=
  match s with
  | String c0 (String c1 (String h1 (String h2 (String h3 (String h4 _))))) =>
    if (c0 =? backslash)%char && (c1 =? "u")%char then
      match hexVal h1, hexVal h2, hexVal h3, hexVal h4 with
      | Some a, Some b, Some c, Some d => ((a * 16 + b) * 16 + c) * 16 + d
      | _, _, _, _ => -1
      end
    else -1
  | _ => -1
  end.

Definition simpleEscape (e : ascii) : option ascii :=
  if (e =? quoteChar)%char then Some quoteChar
  else if (e =? backslash)%char then Some backslash
  else if (e =? "/")%char then Some "/"%char
  else if (e =? "b")%char then Some (toByte 8)
  else if (e =? "f")%char then Some (toByte 12)
  else if (e =? "n")%char then Some (toByte 10)
  else if (e =? "r")%char then Some (toByte 13)
  else if (e =? "t")%char then Some (toByte 9)
  else None.

(** One iteration of the loop of [unquoteBytes] at a position that is
    not the closing quote: the bytes written and the number of input
    bytes consumed; [None] where the scanner rejects the literal. *)
Definition unquoteStep (s : string) : option (string * nat) :=
  match s with
  | EmptyString => None
  | String c t =>
    let b := byteZ c in
    if (c =? backslash)%char then
      match t with
      | EmptyString => None
      | String e _ =>
        match simpleEscape e with
        | Some o => Some (String o EmptyString, 2%nat)
        | None =>
          if (e =? "u")%char then
            let rr := getu4 s in
            if rr <? 0 then None
            else if utf16.IsSurrogate rr then
              let rr1 := getu4 (dropS 6 s) in
              let dec := utf16.DecodeRune rr rr1 in
              if negb (dec =? utf16.replacementChar)
              then Some (utf8.EncodeRune dec, 12%nat)
              else Some (utf8.EncodeRune utf16.replacementChar, 6%nat)
            else Some (utf8.EncodeRune rr, 6%nat)
          else None
        end
      end
    else if (c =? quoteChar)%char || (b <? 32) then None
    else if b <? utf8.RuneSelf then Some (String c EmptyString, 1%nat)
    else
      let '(rr, size) := utf8.DecodeRuneInString s in
      Some (utf8.EncodeRune rr, size)
  end.

(** The body of a string literal, after the opening quote: the decoded
    Go string and the input after the closing quote.  [skip] counts the
    bytes of the current step that remain to be stepped over. *)
Fixpoint unquoteBody (skip : nat) (s : string) : option (string * string) :=
  match s with
  | EmptyString => None
  | String c t =>
    match skip with
    | S k => unquoteBody k t
    | O =>
      if (c =? quoteChar)%char then Some (EmptyString, t)
      else
        match unquoteStep s with
        | None => None
        | Some (o, size) =>
          match unquoteBody (size - 1) t with
          | None => None
          | Some (d, rest) => Some (o +:+ d, rest)
          end
        end
    end
  end.

(** Number literals, as the scanner's states [stateNeg], [state0],
    [state1], [stateDot], [stateDot0], [stateE], [stateESign],
    [stateE0] accept them. *)
Fixpoint spanDigits (s : string) : string * string :=
  match s with
  | String c t =>
    if strconv.isDigit c then
      let '(ds, rest) := spanDigits t in (String c ds, rest)
    else (EmptyString, s)
  | EmptyString => (EmptyString, s)
  end.

Definition scanExp (pre s : string) : option (string * string) :=
  match s with
  | String c t =>
    if (c =? "e")%char || (c =? "E")%char then
      let '(sg, t1) :=
        match t with
        | String c1 t' =>
          if (c1 =? "+")%char || (c1 =? "-")%char
          then (String c1 EmptyString, t') else (EmptyString, t)
        | EmptyString => (EmptyString, t)
        end in
      let '(ds, t2) := spanDigits t1 in
      match ds with
      | EmptyString => None
      | _ => Some (pre +:+ String c (sg +:+ ds), t2)
      end
    else Some (pre, s)
  | EmptyString => Some (pre, s)
  end.

Definition scanFrac (pre s : string) : option (string * string) :=
  match s with
  | String c t =>
    if (c =? ".")%char then
      let '(ds, t1) := spanDigits t in
      match ds with
      | EmptyString => None
      | _ => scanExp (pre +:+ String c ds) t1
      end
    else scanExp pre s
  | EmptyString => scanExp pre s
  end.

Definition scanNumber (s : string) : option (string * string) :=
  let '(sg, s1) :=
    match s with
    | String c t =>
      if (c =? "-")%char then (String c EmptyString, t) else (EmptyString, s)
    | EmptyString => (EmptyString, s)
    end in
  match s1 with
  | String c t =>
    if (c =? "0")%char then scanFrac (sg +:+ String c EmptyString) t
    else if strconv.isDigit c then
      let '(ds, t1) := spanDigits t in
      scanFrac (sg +:+ String c ds) t1
    else None
  | EmptyString => None
  end.

Fixpoint stripPrefix (p s : string) : option string :=
  match p with
  | EmptyString => Some s
  | String a p' =>
    match s with
    | String b s' => if (a =? b)%char then stripPrefix p' s' else None
    | EmptyString => None
    end
  end.

(** The value parser: the three parts of the recursive descent, each
    with the parsers it calls as arguments. *)
Definition valueStep
    (members : string -> list (string * jvalue) -> option (jvalue * string))
    (elements : string -> list jvalue -> option (jvalue * string))
    (s : string) : option (jvalue * string) :=
  match skipSpace s with
  | EmptyString => None
  | String c t =>
    if (c =? "{")%char then
      match skipSpace t with
      | String c1 t1 =>
        if (c1 =? "}")%char then Some (JObject [], t1)
        else members (skipSpace t) []
      | EmptyString => None
      end
    else if (c =? "[")%char then
      match skipSpace t with
      | String c1 t1 =>
        if (c1 =? "]")%char then Some (JArray [], t1)
        else elements (skipSpace t) []
      | EmptyString => None
      end
    else if (c =? quoteChar)%char then
      match unquoteBody 0 t with
      | Some (d, rest) => Some (JString d, rest)
      | None => None
      end
    else if (c =? "t")%char then
      option_map (fun r => (JBool true, r)) (stripPrefix "rue" t)
    else if (c =? "f")%char then
      option_map (fun r => (JBool false, r)) (stripPrefix "alse" t)
    else if (c =? "n")%char then
      option_map (fun r => (JNull, r)) (stripPrefix "ull" t)
    else
      match scanNumber (String c t) with
      | Some (lit, rest) => Some (JNumber lit, rest)
      | None => None
      end
  end.

(** One member ["key": value] and what follows it: a comma and more
    members, or the closing brace. *)
Definition membersStep
    (value : string -> option (jvalue * string))
    (members : string -> list (string * jvalue) -> option (jvalue * string))
    (s : string) (acc : list (string * jvalue)) : option (jvalue * string) :=
  match skipSpace s with
  | String c t =>
    if (c =? quoteChar)%char then
      match unquoteBody 0 t with
      | None => None
      | Some (k, r1) =>
        match skipSpace r1 with
        | String c2 r2 =>
          if (c2 =? ":")%char then
            match value r2 with
            | None => None
            | Some (v, r3) =>
              match skipSpace r3 with
              | String c4 r4 =>
                if (c4 =? ",")%char then members r4 (acc ++ [(k, v)])
                else if (c4 =? "}")%char
                then Some (JObject (acc ++ [(k, v)]), r4)
                else None
              | EmptyString => None
              end
            end
          else None
        | EmptyString => None
        end
      end
    else None
  | EmptyString => None
  end.

(** One element and what follows it: a comma and more elements, or the
    closing bracket. *)
Definition elementsStep
    (value : string -> option (jvalue * string))
    (elements : string -> list jvalue -> option (jvalue * string))
    (s : string) (acc : list jvalue) : option (jvalue * string) :=
  match value s with
  | None => None
  | Some (v, r1) =>
    match skipSpace r1 with
    | String c2 r2 =>
      if (c2 =? ",")%char then elements r2 (acc ++ [v])
      else if (c2 =? "]")%char then Some (JArray (acc ++ [v]), r2)
      else None
    | EmptyString => None
    end
  end.

(** [fuel] bounds the number of values and members read; [parseJSON]
    supplies more fuel than the text has bytes. *)
Fixpoint parseValue (fuel : nat) (s : string) : option (jvalue * string) :=
  match fuel with
  | O => None
  | S n => valueStep (parseMembers n) (parseElements n) s
  end
with parseMembers (fuel : nat) (s : string) (acc : list (string * jvalue))
    : option (jvalue * string) :=
  match fuel with
  | O => None
  | S n => membersStep (parseValue n) (parseMembers n) s acc
  end
with parseElements (fuel : nat) (s : string) (acc : list jvalue)
    : option (jvalue * string) :=
  match fuel with
  | O => None
  | S n => elementsStep (parseValue n) (parseElements n) s acc
  end.

(** A whole document: one value, then nothing but white space. *)
Definition parseJSON (data : string) : option jvalue :=
  match parseValue (S (String.length data)) data with
  | Some (v, rest) =>
    match skipSpace rest with
    | EmptyString => Some v
    | _ => None
    end
  | None => None
  end.

(** Compact printing of a value, with the string encoder [quote] of
    the printer. *)
Fixpoint printJSON (quote : string -> string) (j : jvalue) : string :=
  match j with
  | JNull => "null"
  | JBool true => "true"
  | JBool false => "false"
  | JNumber lit => lit
  | JString s => quote s
  | JArray l =>
    "[" +:+
    (fix elems (l : list jvalue) : string :=
       match l with
       | [] => "]"
       | [x] => printJSON quote x +:+ "]"
       | x :: l' => printJSON quote x +:+ "," +:+ elems l'
       end) l
  | JObject m =>
    "{" +:+
    (fix members (m : list (string * jvalue)) : string :=
       match m with
       | [] => "}"
       | [(k, v)] => quote k +:+ ":" +:+ printJSON quote v +:+ "}"
       | (k, v) :: m' =>
         quote k +:+ ":" +:+ printJSON quote v +:+ "," +:+ members m'
       end) m
  end.

End jsontext.

(** ** Go state: the heap and the connection *)

(** The value stored under a Redis key. A hash keeps its fields in
    insertion order, as a small hash does on the server. *)
Inductive RedisVal :=
| RHash (fields : list (string * string))
| RJson (doc : jvalue)
| RStr (s : string).

(** A reply of the server, as redigo hands it to the caller: [RNil] is
    the null reply, [RBulk] a [[]byte]. *)
#[warnings="-register-all"]
Inductive reply :=
| RNil
| RStatus (s : string)
| RInt (n : Z)
| RBulk (b : string)
| RArray (l : list reply)
| RError (msg : string).

(** A connection: the server's database, the commands sent so far
    (oldest first), and whether the connection has failed. *)
Record Conn := mkConn {
  server : gmap string RedisVal;
  sent : list (list string);
  closed : bool
}.

Record World := mkWorld {
  heap : gmap loc StudentDetails;
  conn : Conn;
  stdout : list string
}.

(** A Go computation that may fail: it maps a world to a world and
    either a value or an [error]. *)
Definition Prog (A : Type) : Type := World -> World * result A.

Definition ret {A} (a : A) : Prog A := fun w => (w, Ok a).

Definition fail {A} (e : error) : Prog A := fun w => (w, Err e).

Definition bind {A B} (m : Prog A) (k : A -> Prog B) : Prog B :=
  fun w =>
    match m w with
    | (w1, Ok a) => k a w1
    | (w1, Err e) => (w1, Err e)
    end.

Notation "x <- m ;; k" := (bind m (fun x => k))
  (at level 100, m at next level, right associativity).

(** Reading through a pointer. Go has no dangling pointers; the model
    is made total by a panic at an address that holds no object. *)
Definition load (l : loc) : Prog StudentDetails :=
  fun w =>
    match heap w !! l with
    | Some d => (w, Ok d)
    | None => (w, Err (PanicError "invalid memory address"))
    end.

Definition store (l : loc) (d : StudentDetails) : Prog unit :=
  fun w => (mkWorld (<[l := d]> (heap w)) (conn w) (stdout w), Ok tt).

(** [new(StudentDetails)] or [&StudentDetails{...}]: a fresh address. *)
Definition alloc (d : StudentDetails) : Prog loc :=
  fun w =>
    let l := fresh (dom (heap w)) in
    (mkWorld (<[l := d]> (heap w)) (conn w) (stdout w), Ok l).

Definition deref (p : option loc) : Prog (option StudentDetails) :=
  match p with
  | None => ret None
  | Some l => d <- load l ;; ret (Some d)
  end.

Definition Println (line : string) : Prog unit :=
  fun w => (mkWorld (heap w) (conn w) (stdout w ++ [line]), Ok tt).

(** ** Package [encoding/json] *)

Module json.

Definition hex : string := "0123456789abcdef".

Definition hexChar (i : Z) : ascii :=
  match String.get (Z.to_nat i) hex with
  | Some c => c
  | None => "0"%char
  end.

(** [safeSet]: the ASCII bytes that need no escaping; [htmlSafeSet]
    leaves out [<], [>] and [&] as well. *)
Definition safeSet (b : Z) : bool :=
  (32 <=? b) && (b <? 128) && negb (b =? 34) && negb (b =? 92).

Definition htmlSafeSet (b : Z) : bool :=
  safeSet b && negb (b =? 60) && negb (b =? 62) && negb (b =? 38).

(** One iteration of the loop of [encodeState.string] at the position
    where [s] starts: the bytes written for it and the width of the
    input consumed. *)
Definition encodeStep (escapeHTML : bool) (s : string) : string * nat :=
  match s with
  | EmptyString => (EmptyString, 0%nat)
  | String c _ =>
    let b := byteZ c in
    if b <? utf8.RuneSelf then
      if htmlSafeSet b || (negb escapeHTML && safeSet b)
      then (String c EmptyString, 1%nat)
      else if (b =? 92) || (b =? 34)
      then (String jsontext.backslash (String c EmptyString), 1%nat)
      else if b =? 10 then ("\n", 1%nat)
      else if b =? 13 then ("\r", 1%nat)
      else if b =? 9 then ("\t", 1%nat)
      else
        ("\u00" +:+
           String (hexChar (Z.shiftr b 4))
             (String (hexChar (Z.land b 0xF)) EmptyString), 1%nat)
    else
      let '(r, size) := utf8.DecodeRuneInString s in
      if (r =? utf8.RuneError) && (size =? 1)%nat then ("\ufffd", 1%nat)
      else if (r =? 0x2028) || (r =? 0x2029)
      then ("\u202" +:+ String (hexChar (Z.land r 0xF)) EmptyString, size)
      else (takeS size s, size)
  end.

Fixpoint encodeBody (escapeHTML : bool) (skip : nat) (s : string) : string :=
  match s with
  | EmptyString => EmptyString
  | String _ t =>
    match skip with
    | S k => encodeBody escapeHTML k t
    | O =>
      let '(o, size) := encodeStep escapeHTML s in
      o +:+ encodeBody escapeHTML (size - 1) t
    end
  end.

(** [encodeState.string]. *)
Definition encodeString (escapeHTML : bool) (s : string) : string :=
  String jsontext.quoteChar
    (encodeBody escapeHTML 0 s +:+ String jsontext.quoteChar EmptyString).

(** [base64.StdEncoding], which encodes a [[]byte]. *)
Definition b64table : string :=
  "ABCDEFGHIJKLMNOPQRSTUVWXYZabcdefghijklmnopqrstuvwxyz0123456789+/".

Definition b64 (i : Z) : ascii :=
  match String.get (Z.to_nat i) b64table with
  | Some c => c
  | None => "="%char
  end.

Fixpoint base64 (s : string) : string :=
  match s with
  | EmptyString => EmptyString
  | String a EmptyString =>
    let x := byteZ a in
    String (b64 (Z.shiftr x 2)) (String (b64 (Z.shiftl (Z.land x 3) 4)) "==")
  | String a (String b EmptyString) =>
    let x := byteZ a in
    let y := byteZ b in
    String (b64 (Z.shiftr x 2))
      (String (b64 (Z.lor (Z.shiftl (Z.land x 3) 4) (Z.shiftr y 4)))
        (String (b64 (Z.shiftl (Z.land y 15) 2)) "="))
  | String a (String b (String c t)) =>
    let x := byteZ a in
    let y := byteZ b in
    let z := byteZ c in
    String (b64 (Z.shiftr x 2))
      (String (b64 (Z.lor (Z.shiftl (Z.land x 3) 4) (Z.shiftr y 4)))
        (String (b64 (Z.lor (Z.shiftl (Z.land y 15) 2) (Z.shiftr z 6)))
          (String (b64 (Z.land z 63)) (base64 t))))
  end.

(** The struct encoder: [{], the fields that are not omitted, each as
    ["name":value] and separated by commas, [}].  A field is given by
    its JSON name, whether it is omitted, and its encoded value. *)
Fixpoint encodeFields (first : bool) (fs : list (string * bool * string))
    : string :=
  match fs with
  | [] => EmptyString
  | (name, omit, v) :: fs' =>
    if omit then encodeFields first fs'
    else
      (if first then "{" else ",") +:+
      encodeString true name +:+ ":" +:+ v +:+ encodeFields false fs'
  end.

Definition structEncoder (fs : list (string * bool * string)) : string :=
  match encodeFields true fs with
  | EmptyString => "{}"
  | body => body +:+ "}"
  end.

(** [StudentDetails] has no tags: the keys are the Go field names and
    no field is ever omitted. *)
Definition encodeStudentDetails (d : StudentDetails) : string :=
  structEncoder
    [ ("FirstName", false, encodeString true (FirstName d));
      ("LastName", false, encodeString true (LastName d));
      ("Major", false, encodeString true (Major d)) ].

Definition encodeDetailsPtr (o : option StudentDetails) : string :=
  match o with
  | None => "null"
  | Some d => encodeStudentDetails d
  end.

(** [Student]: the tags [json:"info,omitempty"] and
    [json:"rank,omitempty"]; a nil pointer and the integer 0 are
    empty. *)
Definition encodeStudent (info : option StudentDetails) (rank : Z) : string :=
  structEncoder
    [ ("info", match info with None => true | Some _ => false end,
       encodeDetailsPtr info);
      ("rank", rank =? 0, strconv.FormatInt rank) ].

Definition Marshal (v : Value) : Prog string :=
  match v with
  | VString s => ret (encodeString true s)
  | VBytes b =>
    ret (String jsontext.quoteChar
           (base64 b +:+ String jsontext.quoteChar EmptyString))
  | VInt n => ret (strconv.FormatInt n)
  | VDetailsPtr p => o <- deref p ;; ret (encodeDetailsPtr o)
  | VStudent s => o <- deref (Info s) ;; ret (encodeStudent o (Rank s))
  | VChan _ => fail UnsupportedTypeError
  end.

(** *** Decoding *)

Definition caseMask : Z := 0xDF.
Definition kelvin : Z := 0x212A.
Definition smallLongEss : Z := 0x17F.

Definition isLetterUpper (u : Z) : bool := (65 <=? u) && (u <=? 90).

(** [simpleLetterEqualFold]: the name consists of letters other than
    K and S. *)
Fixpoint simpleLetterEqualFold (s t : string) : bool :=
  match s, t with
  | EmptyString, EmptyString => true
  | String a s', String b t' =>
    (Z.land (byteZ a) caseMask =? Z.land (byteZ b) caseMask)
    && simpleLetterEqualFold s' t'
  | _, _ => false
  end.

(** [equalFoldRight]: the name [s] is ASCII and contains a K or an S,
    which the Kelvin sign and the long s in the key [t] fold to. *)
Fixpoint equalFoldRight (s t : string) : bool :=
  match s with
  | EmptyString => match t with EmptyString => true | _ => false end
  | String sc s' =>
    match t with
    | EmptyString => false
    | String tc t' =>
      let sb := byteZ sc in
      let tb := byteZ tc in
      if tb <? utf8.RuneSelf then
        if sb =? tb then equalFoldRight s' t'
        else
          let sbUpper := Z.land sb caseMask in
          if isLetterUpper sbUpper && (sbUpper =? Z.land tb caseMask)
          then equalFoldRight s' t'
          else false
      else
        let '(tr, size) := utf8.DecodeRuneInString t in
        if ((sb =? 115) || (sb =? 83)) && (tr =? smallLongEss)
        then equalFoldRight s' (dropS size t)
        else if ((sb =? 107) || (sb =? 75)) && (tr =? kelvin)
        then equalFoldRight s' (dropS size t)
        else false
    end
  end.

Definition hasSpecial (s : string) : bool :=
  existsb (fun c => let u := Z.land (byteZ c) caseMask in
                    (u =? 75) || (u =? 83))
          (list_ascii_of_string s).

(** [foldFunc], for the names of this program, which are letters. *)
Definition foldFunc (name : string) : string -> string -> bool :=
  if hasSpecial name then equalFoldRight else simpleLetterEqualFold.

(** The field a key selects: an exact match, else the first field
    whose name equals the key under case folding. *)
Definition findField (names : list string) (key : string) : option string :=
  match List.find (fun n => String.eqb n key) names with
  | Some n => Some n
  | None => List.find (fun n => foldFunc n n key) names
  end.

Definition setDetailsField (f : string) (s : string) (d : StudentDetails)
    : StudentDetails :=
  if String.eqb f "FirstName" then mkStudentDetails s (LastName d) (Major d)
  else if String.eqb f "LastName" then mkStudentDetails (FirstName d) s (Major d)
  else mkStudentDetails (FirstName d) (LastName d) s.

(** Decoding the members of an object into a [StudentDetails]: keys
    that match no field are skipped, [null] leaves a field alone, and
    a value that is not a string is a type error.  (On a type error Go
    keeps decoding and reports the error at the end; the model reports
    it at once.) *)
Fixpoint decodeDetails (m : list (string * jvalue)) (d : StudentDetails)
    : result StudentDetails :=
  match m with
  | [] => Ok d
  | (k, v) :: m' =>
    match findField ["FirstName"; "LastName"; "Major"] k with
    | None => decodeDetails m' d
    | Some f =>
      match v with
      | JString s => decodeDetails m' (setDetailsField f s d)
      | JNull => decodeDetails m' d
      | _ => Err UnmarshalTypeError
      end
    end
  end.

Definition liftResult {A} (r : result A) : Prog A :=
  match r with
  | Ok a => ret a
  | Err e => fail e
  end.

(** The value of the field [info], a [*StudentDetails]: [null] sets
    the pointer to nil; an object is decoded into the object the
    pointer addresses, which is allocated first when the pointer is
    nil. *)
Definition decodeInfo (v : jvalue) (p : option loc) : Prog (option loc) :=
  match v with
  | JNull => ret None
  | JObject m =>
    l <- match p with
         | Some l => ret l
         | None => alloc (mkStudentDetails "" "" "")
         end ;;
    d <- load l ;;
    d' <- liftResult (decodeDetails m d) ;;
    _ <- store l d' ;;
    ret (Some l)
  | _ => fail UnmarshalTypeError
  end.

Definition decodeRank (v : jvalue) (n : Z) : Prog Z :=
  match v with
  | JNull => ret n
  | JNumber lit =>
    match strconv.ParseInt lit with
    | Some z => ret z
    | None => fail UnmarshalTypeError
    end
  | _ => fail UnmarshalTypeError
  end.

Fixpoint decodeStudent (m : list (string * jvalue)) (s : Student)
    : Prog Student :=
  match m with
  | [] => ret s
  | (k, v) :: m' =>
    match findField ["info"; "rank"] k with
    | None => decodeStudent m' s
    | Some f =>
      if String.eqb f "info" then
        p <- decodeInfo v (Info s) ;;
        decodeStudent m' (mkStudent p (Rank s))
      else
        n <- decodeRank v (Rank s) ;;
        decodeStudent m' (mkStudent (Info s) n)
    end
  end.

(** [Unmarshal(data, out)] for [out : *Student]; the result is the
    value of [*out] afterwards. *)
Definition Unmarshal (data : string) (out : Student) : Prog Student :=
  match jsontext.parseJSON data with
  | None => fail SyntaxError
  | Some JNull => ret out
  | Some (JObject m) => decodeStudent m out
  | Some _ => fail UnmarshalTypeError
  end.

End json.

(** ** Package [fmt]: the default format [%v] *)

Module fmt.

(** The text of an address; the model prints the location number. *)
Definition pointer (l : loc) : string := HexString.of_pos l.

Definition SprintDetailsPtr (o : option StudentDetails) : string :=
  match o with
  | None => "<nil>"
  | Some d =>
    "&{" +:+ FirstName d +:+ " " +:+ LastName d +:+ " " +:+ Major d +:+ "}"
  end.

(** At the top level a pointer to a struct prints as [&{...}]; inside
    a struct a pointer prints as an address. *)
Definition Sprint (v : Value) : Prog string :=
  match v with
  | VString s => ret s
  | VBytes b =>
    ret ("[" +:+
         String.concat " "
           (map (fun c => strconv.FormatInt (byteZ c)) (list_ascii_of_string b))
         +:+ "]")
  | VInt n => ret (strconv.FormatInt n)
  | VDetailsPtr p => o <- deref p ;; ret (SprintDetailsPtr o)
  | VStudent s =>
    ret ("{" +:+
         match Info s with None => "<nil>" | Some l => pointer l end
         +:+ " " +:+ strconv.FormatInt (Rank s) +:+ "}")
  | VChan a => ret (pointer a)
  end.

End fmt.

(** ** The Redis server, with the JSON module

    The six commands the program sends, on a database that maps keys to
    hashes, JSON documents and plain strings.  A JSON document is kept
    as the value parsed from the text of [JSON.SET]. *)

Module redis_server.

Definition wrongType : string :=
  "WRONGTYPE Operation against a key holding the wrong kind of value".

Definition wrongArgs : string := "ERR wrong number of arguments".

Fixpoint hashGet (h : list (string * string)) (f : string) : option string :=
  match h with
  | [] => None
  | (k, v) :: h' => if String.eqb k f then Some v else hashGet h' f
  end.

(** Setting a field: an existing field keeps its place, a new one is
    added at the end. The flag tells whether the field is new. *)
Fixpoint hashSet (h : list (string * string)) (f v : string)
    : list (string * string) * bool :=
  match h with
  | [] => ([(f, v)], true)
  | (k, x) :: h' =>
    if String.eqb k f then ((k, v) :: h', false)
    else let '(h'', created) := hashSet h' f v in ((k, x) :: h'', created)
  end.

(** The field/value pairs of [HSET] and [HMSET]; [None] when a field
    has no value. *)
Fixpoint hashSetAll (h : list (string * string)) (fvs : list string)
    : option (list (string * string) * Z) :=
  match fvs with
  | [] => Some (h, 0)
  | f :: v :: fvs' =>
    let '(h1, created) := hashSet h f v in
    match hashSetAll h1 fvs' with
    | Some (h2, n) => Some (h2, if created then n + 1 else n)
    | None => None
    end
  | [_] => None
  end.

Fixpoint hashFlat (h : list (string * string)) : list reply :=
  match h with
  | [] => []
  | (k, v) :: h' => RBulk k :: RBulk v :: hashFlat h'
  end.

(** The string encoder of the document serializer: the quote, the
    backslash and the control bytes are escaped, every other byte is
    copied. *)
Fixpoint serializeBody (s : string) : string :=
  match s with
  | EmptyString => EmptyString
  | String c t =>
    let b := byteZ c in
    (if (b =? 34) || (b =? 92)
     then String jsontext.backslash (String c EmptyString)
     else if b <? 32 then
       "\u00" +:+
         String (json.hexChar (Z.shiftr b 4))
           (String (json.hexChar (Z.land b 0xF)) EmptyString)
     else String c EmptyString) +:+ serializeBody t
  end.

Definition serializeString (s : string) : string :=
  String jsontext.quoteChar
    (serializeBody s +:+ String jsontext.quoteChar EmptyString).

Definition serialize (doc : jvalue) : string :=
  jsontext.printJSON serializeString doc.

(** Paths: the empty path and [.] are the root; otherwise member names
    separated by dots, with an optional leading dot. *)
Fixpoint splitDots (s cur : string) : list string :=
  match s with
  | EmptyString => [cur]
  | String c t =>
    if (c =? ".")%char then cur :: splitDots t EmptyString
    else splitDots t (cur +:+ String c EmptyString)
  end.

Definition parsePath (p : string) : option (list string) :=
  if String.eqb p "" || String.eqb p "." then Some []
  else
    let p' := match p with
              | String c t => if (c =? ".")%char then t else p
              | EmptyString => p
              end in
    let segs := splitDots p' EmptyString in
    if existsb (fun seg => String.eqb seg "") segs then None else Some segs.

Fixpoint member (m : list (string * jvalue)) (k : string) : option jvalue :=
  match m with
  | [] => None
  | (k', v) :: m' => if String.eqb k' k then Some v else member m' k
  end.

Fixpoint setMember (m : list (string * jvalue)) (k : string) (v : jvalue)
    : list (string * jvalue) :=
  match m with
  | [] => [(k, v)]
  | (k', x) :: m' =>
    if String.eqb k' k then (k', v) :: m' else (k', x) :: setMember m' k v
  end.

Fixpoint getPath (doc : jvalue) (segs : list string) : option jvalue :=
  match segs with
  | [] => Some doc
  | k :: segs' =>
    match doc with
    | JObject m =>
      match member m k with
      | Some v => getPath v segs'
      | None => None
      end
    | _ => None
    end
  end.

Inductive setOutcome :=
| SetDone (doc : jvalue)     (* the document after the write *)
| SetSkipped                 (* NX or XX not met: null reply *)
| SetFailed.                 (* the path does not lead into an object *)

Fixpoint setPath (doc : jvalue) (segs : list string) (v : jvalue)
    (nx xx : bool) : setOutcome :=
  match segs with
  | [] => if nx then SetSkipped else SetDone v
  | k :: segs' =>
    match doc with
    | JObject m =>
      match member m k with
      | Some child =>
        match setPath child segs' v nx xx with
        | SetDone child' => SetDone (JObject (setMember m k child'))
        | o => o
        end
      | None =>
        match segs' with
        | [] => if xx then SetSkipped else SetDone (JObject (setMember m k v))
        | _ => SetFailed
        end
      end
    | _ => SetFailed
    end
  end.

(** The flags of [JSON.SET]: nothing, [NX] or [XX]. *)
Definition parseFlags (flags : list string) : option (bool * bool) :=
  match flags with
  | [] => Some (false, false)
  | [f] =>
    if String.eqb f "NX" then Some (true, false)
    else if String.eqb f "XX" then Some (false, true)
    else None
  | _ => None
  end.

Definition jsonSet (db : gmap string RedisVal) (key path text : string)
    (flags : list string) : gmap string RedisVal * reply :=
  match parseFlags flags, parsePath path, jsontext.parseJSON text with
  | None, _, _ => (db, RError "ERR syntax error")
  | _, None, _ => (db, RError "ERR Search path error")
  | _, _, None => (db, RError "ERR JSON lexer error")
  | Some (nx, xx), Some segs, Some v =>
    match db !! key with
    | None =>
      match segs with
      | [] =>
        if xx then (db, RNil)
        else (<[key := RJson v]> db, RStatus "OK")
      | _ => (db, RError "ERR new objects must be created at the root")
      end
    | Some (RJson doc) =>
      match setPath doc segs v nx xx with
      | SetDone doc' => (<[key := RJson doc']> db, RStatus "OK")
      | SetSkipped => (db, RNil)
      | SetFailed => (db, RError "ERR missing key at non-terminal path level")
      end
    | Some _ => (db, RError wrongType)
    end
  end.

Definition jsonGet (db : gmap string RedisVal) (key path : string)
    : gmap string RedisVal * reply :=
  match db !! key with
  | None => (db, RNil)
  | Some (RJson doc) =>
    match parsePath path with
    | None => (db, RError "ERR Search path error")
    | Some segs =>
      match getPath doc segs with
      | Some v => (db, RBulk (serialize v))
      | None => (db, RError "ERR key does not exist at level")
      end
    end
  | Some _ => (db, RError wrongType)
  end.

Definition hashWrite (db : gmap string RedisVal) (key : string)
    (fvs : list string) (multi : bool) : gmap string RedisVal * reply :=
  match fvs with
  | [] => (db, RError wrongArgs)
  | _ =>
    match db !! key with
    | Some (RJson _) | Some (RStr _) => (db, RError wrongType)
    | o =>
      let h := match o with Some (RHash h) => h | _ => [] end in
      match hashSetAll h fvs with
      | None => (db, RError wrongArgs)
      | Some (h', created) =>
        (<[key := RHash h']> db,
         if multi then RStatus "OK" else RInt created)
      end
    end
  end.

(** A command is the list of bulk strings the client sent; the result
    is the database afterwards and the reply. *)
Definition exec (db : gmap string RedisVal) (cmd : list string)
    : gmap string RedisVal * reply :=
  match cmd with
  | [] => (db, RError "ERR empty command")
  | name :: args =>
    if String.eqb name "HMSET" then
      match args with
      | key :: fvs => hashWrite db key fvs true
      | [] => (db, RError wrongArgs)
      end
    else if String.eqb name "HSET" then
      match args with
      | key :: fvs => hashWrite db key fvs false
      | [] => (db, RError wrongArgs)
      end
    else if String.eqb name "HGETALL" then
      match args with
      | [key] =>
        match db !! key with
        | None => (db, RArray [])
        | Some (RHash h) => (db, RArray (hashFlat h))
        | Some _ => (db, RError wrongType)
        end
      | _ => (db, RError wrongArgs)
      end
    else if String.eqb name "HGET" then
      match args with
      | [key; f] =>
        match db !! key with
        | None => (db, RNil)
        | Some (RHash h) =>
          (db, match hashGet h f with Some v => RBulk v | None => RNil end)
        | Some _ => (db, RError wrongType)
        end
      | _ => (db, RError wrongArgs)
      end
    else if String.eqb name "JSON.SET" then
      match args with
      | key :: path :: text :: flags => jsonSet db key path text flags
      | _ => (db, RError wrongArgs)
      end
    else if String.eqb name "JSON.GET" then
      match args with
      | [key] => jsonGet db key ""
      | [key; path] => jsonGet db key path
      | _ => (db, RError "ERR formatting options and several paths are outside this model")
      end
    else (db, RError "ERR unknown command")
  end.

End redis_server.

(** ** Package [redis] (redigo) *)

Module redis.

(** [flattenStruct] for the program's two struct types.  Neither has a
    [redis] tag, so the names are the Go field names and nothing is
    omitted. *)
Definition flattenStudent (s : Student) : list Value :=
  [VString "Info"; VDetailsPtr (Info s); VString "Rank"; VInt (Rank s)].

Definition flattenDetails (d : StudentDetails) : list Value :=
  [VString "FirstName"; VString (FirstName d);
   VString "LastName"; VString (LastName d);
   VString "Major"; VString (Major d)].

(** [Args.AddFlat]: a struct, or a non-nil pointer to one, adds its
    fields as name, value pairs without descending into the values;
    any other value is added as it is. *)
Definition AddFlat (args : list Value) (v : Value) : Prog (list Value) :=
  match v with
  | VStudent s => ret (args ++ flattenStudent s)
  | VDetailsPtr (Some l) => d <- load l ;; ret (args ++ flattenDetails d)
  | VDetailsPtr None => ret args
  | _ => ret (args ++ [v])
  end.

(** [writeArg]: how an argument becomes a bulk string.  Strings, byte
    slices and integers have cases of their own; everything else is
    printed with [fmt.Fprint]. *)
Definition writeArg (arg : Value) : Prog string :=
  match arg with
  | VString s => ret s
  | VBytes b => ret b
  | VInt n => ret (strconv.FormatInt n)
  | _ => fmt.Sprint arg
  end.

Fixpoint writeArgs (args : list Value) : Prog (list string) :=
  match args with
  | [] => ret []
  | a :: args' =>
    s <- writeArg a ;;
    ss <- writeArgs args' ;;
    ret (s :: ss)
  end.

(** One round trip: the command is written, the server executes it,
    the reply is read.  An error reply becomes a Go error. *)
Definition roundTrip (cmd : list string) : Prog reply :=
  fun w =>
    let c := conn w in
    if closed c then (w, Err ConnError)
    else
      let '(db', r) := redis_server.exec (server c) cmd in
      let w' := mkWorld (heap w) (mkConn db' (sent c ++ [cmd]) false)
                        (stdout w) in
      match r with
      | RError msg => (w', Err (RedisError msg))
      | _ => (w', Ok r)
      end.

(** [conn.Do(commandName, args...)]. *)
Definition Do (commandName : string) (args : list Value) : Prog reply :=
  bulk <- writeArgs args ;;
  roundTrip (commandName :: bulk).

Fixpoint pairs (l : list reply) : option (list (string * string)) :=
  match l with
  | [] => Some []
  | RBulk k :: RBulk v :: l' =>
    match pairs l' with
    | Some ps => Some ((k, v) :: ps)
    | None => None
    end
  | _ => None
  end.

(** [redis.StringMap]: an array reply of alternating names and values
    as a Go map; a later pair overrides an earlier one. *)
Definition StringMap (r : reply) : Prog (gmap string string) :=
  match r with
  | RArray l =>
    match pairs l with
    | Some ps =>
      ret (fold_left (fun m kv => <[fst kv := snd kv]> m) ps ∅)
    | None => fail ReplyTypeError
    end
  | _ => fail ReplyTypeError
  end.

End redis.

(** ** Package [rejson] (go-rejson)

    The two helpers, with the signatures the README of the repository
    quotes:
    [JSONSet(conn, key, path, obj, NX, XX)] marshals [obj] and sends
    [JSON.SET key path json [NX|XX]];
    [JSONGet(conn, key, path)] sends [JSON.GET key path]. *)

Module rejson.

Definition JSONSet (key path : string) (obj : Value) (NX XX : bool)
    : Prog reply :=
  b <- json.Marshal obj ;;
  redis.Do "JSON.SET"
    ([VString key; VString path; VBytes b] ++
     (if NX then [VString "NX"] else if XX then [VString "XX"] else [])).

Definition JSONGet (key path : string) : Prog reply :=
  redis.Do "JSON.GET" [VString key; VString path].

End rejson.

(** ** The program ([main.go], lines 145-188)

    The parameter [conn redis.Conn] of each function is the connection
    of the world. *)

Definition addStructHash (key : string) (value : Value) : Prog unit :=
  args <- redis.AddFlat [VString key] value ;;
  _ <- redis.Do "HMSET" args ;;
  ret tt.

(** The key passed to the server is the literal ["JohnDoeHash"]; the
    parameter [key] is not used. *)
Definition getStructHash (key : string) : Prog reply :=
  redis.Do "HGETALL" [VString "JohnDoeHash"].

Definition addStructReJSON (key : string) (value : Value) : Prog unit :=
  _ <- rejson.JSONSet key "." value false false ;;
  ret tt.

Definition getStructReJSON (key : string) : Prog reply :=
  rejson.JSONGet key "".

Definition addStructHashWithJSON (key : string) (value : Value) : Prog unit :=
  b <- json.Marshal value ;;
  _ <- redis.Do "HSET" [VString key; VString "JSON"; VString b] ;;
  ret tt.

Definition getStructHashWithJSON (key : string) : Prog reply :=
  value <- redis.Do "HGET" [VString key; VString "JSON"] ;;
  ret value.

(** The type assertion [x.([]byte)], which panics on any other reply. *)
Definition assertBytes (r : reply) : Prog string :=
  match r with
  | RBulk b => ret b
  | _ => fail (PanicError "interface conversion")
  end.

(** [main] (lines 37-143), from the point where the connection has been
    dialled.  [log.Fatalf] ends the program with the error. *)
Definition main : Prog unit :=
  info <- alloc (mkStudentDetails "John" "Doe" "CSE") ;;
  let student := mkStudent (Some info) 1 in
  _ <- addStructHash "JohnDoeHash" (VStudent student) ;;
  _ <- addStructReJSON "JohnDoeJSON" (VStudent student) ;;
  r <- getStructHash "JohnDoeHash" ;;
  outStudentMap <- redis.StringMap r ;;
  _ <- Println ("[HASH] Student Info " +:+ default "" (outStudentMap !! "Info")
                +:+ " [Type string]") ;;
  outJSON <- getStructReJSON "JohnDoeJSON" ;;
  b <- assertBytes outJSON ;;
  outStudent <- json.Unmarshal b (mkStudent None 0) ;;
  o <- deref (Info outStudent) ;;
  _ <- Println ("[ReJSON] Student Info " +:+ fmt.SprintDetailsPtr o
                +:+ " [Type *main.StudentDetails]") ;;
  _ <- addStructHashWithJSON "JohnDoeHashJSON" (VStudent student) ;;
  outHashJSON <- getStructHashWithJSON "JohnDoeHashJSON" ;;
  b' <- assertBytes outHashJSON ;;
  outHashJSONStudent <- json.Unmarshal b' (mkStudent None 0) ;;
  o' <- deref (Info outHashJSONStudent) ;;
  Println ("[HSET JSON] Student Info " +:+ fmt.SprintDetailsPtr o'
           +:+ " [Type *main.StudentDetails]").

(** The deep value of a [Student]: what its fields and the object its
    pointer addresses hold.  Two records are equal as records of data
    when their deep values are. *)
Definition deepValue (w : World) (s : Student)
    : option (option StudentDetails * Z) :=
  match Info s with
  | None => Some (None, Rank s)
  | Some l =>
    match heap w !! l with
    | Some d => Some (Some d, Rank s)
    | None => None
    end
  end.

Definition emptyWorld : World :=
  mkWorld ∅ (mkConn ∅ [] false) [].

(** ** Vocabulary of the statements *)

(** The arguments of a [JSON.SET] command after key, path and document:
    the condition flags [NX] ("only if absent") and [XX] ("only if
    present"). *)
Definition jsonSetFlags (cmd : list string) : list string :=
  match cmd with
  | name :: _ :: _ :: _ :: flags =>
    if String.eqb name "JSON.SET" then flags else []
  | _ => []
  end.

Definition unconditional (cmd : list string) : Prop := jsonSetFlags cmd = [].

(** The commands a computation sent: those of [w'] after those of [w]. *)
Definition newCommands (w w' : World) : list (list string) :=
  drop (length (sent (conn w))) (sent (conn w')).

(** A Go [int] is 64 bits wide. *)
Definition isInt64 (n : Z) : Prop :=
  strconv.minInt64 <= n <= strconv.maxInt64.

(** The string fields of a Detail are valid UTF-8. *)
Definition validDetails (d : StudentDetails) : Prop :=
  utf8.ValidString (FirstName d) = true /\
  utf8.ValidString (LastName d) = true /\
  utf8.ValidString (Major d) = true.

(** A relation between the world before and the world after that a
    computation maintains wherever it is run. *)
Definition maintains (I : relation World) {A} (m : Prog A) : Prop :=
  forall w, I w (fst (m w)).

(** A relation that holds whenever the connection is left alone. *)
Class ConnOnly (I : relation World) : Prop :=
  conn_only : forall w w', conn w' = conn w -> I w w'.

(** The heap after is the heap before. *)
Definition sameHeap (w w' : World) : Prop := heap w' = heap w.

(** Nothing at all has changed. *)
Definition sameWorld (w w' : World) : Prop := w' = w.

(** The computation sent some commands, each of them free of condition
    flags. *)
Definition onlyUnconditional (w w' : World) : Prop :=
  exists cmds,
    sent (conn w') = sent (conn w) ++ cmds /\ Forall unconditional cmds.

(** A write operation leaves a record as the caller sees it: the heap,
    and with it the object the record points to, is what it was. *)
Definition leavesRecord (op : string -> Value -> Prog unit) : Prop :=
  forall (key : string) (r : Student) (w : World),
    let w' := fst (op key (VStudent r) w) in
    heap w' = heap w /\ deepValue w' r = deepValue w r.

(** A world whose server holds a hash under ["Other"] and nothing under
    ["JohnDoeHash"]. *)
Definition worldWithOther : World :=
  mkWorld ∅ (mkConn {[ "Other" := RHash [("Info", "x")] ]} [] false) [].

(** What [HGETALL] answers for the value under a key. *)
Definition hgetallAnswer (o : option RedisVal) : result reply :=
  match o with
  | None => Ok (RArray [])
  | Some (RHash h) => Ok (RArray (redis_server.hashFlat h))
  | Some _ => Err (RedisError redis_server.wrongType)
  end.

(** The record of [main]: John Doe, majoring in CSE, of rank 1. *)
Definition johnDoe : StudentDetails := mkStudentDetails "John" "Doe" "CSE".

Definition worldWithJohn : World :=
  mkWorld {[ 1%positive := johnDoe ]} (mkConn ∅ [] false) [].

Definition john : Student := mkStudent (Some 1%positive) 1.

(** Reading the flattened encoding as [main] does: [getStructHash], then
    [redis.StringMap] on its reply. *)
Definition readFlattened (key : string) : Prog (gmap string string) :=
  r <- getStructHash key ;; redis.StringMap r.

(** [runeAt s r n]: [s] starts with the well-formed encoding, [n] bytes
    long with [n] at least 2, of the rune [r] (the table of well-formed
    byte sequences of the Unicode standard). *)
Inductive runeAt : string -> Z -> nat -> Prop :=
| rune2At c0 c1 t :
    0xC2 <= byteZ c0 <= 0xDF ->
    0x80 <= byteZ c1 <= 0xBF ->
    runeAt (String c0 (String c1 t))
           ((byteZ c0 mod 32) * 64 + byteZ c1 mod 64) 2
| rune3At c0 c1 c2 t :
    0xE0 <= byteZ c0 <= 0xEF ->
    0x80 <= byteZ c1 <= 0xBF ->
    (byteZ c0 = 0xE0 -> 0xA0 <= byteZ c1) ->
    (byteZ c0 = 0xED -> byteZ c1 <= 0x9F) ->
    0x80 <= byteZ c2 <= 0xBF ->
    runeAt (String c0 (String c1 (String c2 t)))
           ((byteZ c0 mod 16) * 4096 + (byteZ c1 mod 64) * 64
            + byteZ c2 mod 64) 3
| rune4At c0 c1 c2 c3 t :
    0xF0 <= byteZ c0 <= 0xF4 ->
    0x80 <= byteZ c1 <= 0xBF ->
    (byteZ c0 = 0xF0 -> 0x90 <= byteZ c1) ->
    (byteZ c0 = 0xF4 -> byteZ c1 <= 0x8F) ->
    0x80 <= byteZ c2 <= 0xBF ->
    0x80 <= byteZ c3 <= 0xBF ->
    runeAt (String c0 (String c1 (String c2 (String c3 t))))
           ((byteZ c0 mod 8) * 262144 + (byteZ c1 mod 64) * 4096
            + (byteZ c2 mod 64) * 64 + byteZ c3 mod 64) 4.

Fixpoint allDigits (s : string) : bool :=
  match s with
  | EmptyString => true
  | String c t => strconv.isDigit c && allDigits t
  end.

(** What may follow a value in a JSON text: nothing, or a comma, or a
    closing brace or bracket. *)
Definition delimited (rest : string) : bool :=
  match rest with
  | EmptyString => true
  | String c _ => (c =? ",")%char || (c =? "}")%char || (c =? "]")%char
  end.

(** The result of the decoder for the rest of a literal, with the bytes
    [o] of the current step before it. *)
Definition prepend (o : string) (r : option (string * string))
    : option (string * string) :=
  match r with
  | Some (d, rest) => Some (o +:+ d, rest)
  | None => None
  end.

(** A chunk of a literal's body that does not start with the closing
    quote. *)
Definition startsPlain (o : string) : bool :=
  match o with
  | String c _ => negb (c =? jsontext.quoteChar)%char
  | EmptyString => false
  end.

(** The bytes the document serializer writes for one byte of a string. *)
Definition serializeByte (c : ascii) : string :=
  redis_server.serializeBody (String c EmptyString).

(** The elements of an array and the members of an object as
    [printJSON] writes them, closing bracket or brace included. *)
Fixpoint printElems (quote : string -> string) (l : list jvalue) : string :=
  match l with
  | [] => "]"
  | [x] => jsontext.printJSON quote x +:+ "]"
  | x :: l' => jsontext.printJSON quote x +:+ "," +:+ printElems quote l'
  end.

Fixpoint printMembers (quote : string -> string) (m : list (string * jvalue))
    : string :=
  match m with
  | [] => "}"
  | [(k, v)] => quote k +:+ ":" +:+ jsontext.printJSON quote v +:+ "}"
  | (k, v) :: m' =>
    quote k +:+ ":" +:+ jsontext.printJSON quote v +:+ "," +:+
    printMembers quote m'
  end.

(** The number of values and members of a value: the fuel that parsing
    its text takes. *)
Fixpoint jsize (j : jvalue) : nat :=
  match j with
  | JArray l =>
    S ((fix sum (l : list jvalue) : nat :=
          match l with
          | [] => 0%nat
          | x :: l' => S (jsize x + sum l')%nat
          end) l)
  | JObject m =>
    S ((fix sum (m : list (string * jvalue)) : nat :=
          match m with
          | [] => 0%nat
          | (_, v) :: m' => S (jsize v + sum m')%nat
          end) m)
  | _ => 1%nat
  end.

Fixpoint sizeElems (l : list jvalue) : nat :=
  match l with
  | [] => 0%nat
  | x :: l' => S (jsize x + sizeElems l')%nat
  end.

Fixpoint sizeMembers (m : list (string * jvalue)) : nat :=
  match m with
  | [] => 0%nat
  | (_, v) :: m' => S (jsize v + sizeMembers m')%nat
  end.

(** A number literal that the scanner reads whole when a delimiter
    follows it. *)
Definition numberLit (lit : string) : Prop :=
  forall rest,
    delimited rest = true ->
    jsontext.scanNumber (lit +:+ rest) = Some (lit, rest).

(** The values whose text is read back as the value itself: strings and
    keys are valid UTF-8, numbers are literals. *)
#[warnings="-register-all"]
Inductive wfJSON : jvalue -> Prop :=
| wfNull : wfJSON JNull
| wfBool b : wfJSON (JBool b)
| wfNumber lit : numberLit lit -> wfJSON (JNumber lit)
| wfString s : utf8.ValidString s = true -> wfJSON (JString s)
| wfArray l : Forall wfJSON l -> wfJSON (JArray l)
| wfObject m :
    Forall (fun kv => utf8.ValidString (fst kv) = true /\ wfJSON (snd kv)) m ->
    wfJSON (JObject m).

(** A string encoder whose literal the decoder reads back, for every
    valid string and whatever follows the literal. *)
Definition QuoteOK (quote : string -> string) : Prop :=
  forall s rest,
    utf8.ValidString s = true ->
    exists t,
      quote s +:+ rest = String jsontext.quoteChar t /\
      jsontext.unquoteBody 0 t = Some (s, rest).

(** The first byte of a value's text. *)
Definition valueStart (c : ascii) : bool :=
  (c =? "{")%char || (c =? "[")%char || (c =? jsontext.quoteChar)%char ||
  (c =? "t")%char || (c =? "f")%char || (c =? "n")%char ||
  (c =? "-")%char || strconv.isDigit c.

(** With fuel [n] the parser reads back the text of every well-formed
    value of size at most [n], and likewise the elements of an array and
    the members of an object. *)
Definition valueRead (q : string -> string) (n : nat) : Prop :=
  forall j rest,
    (jsize j <= n)%nat -> wfJSON j -> delimited rest = true ->
    jsontext.parseValue n (jsontext.printJSON q j +:+ rest) = Some (j, rest).

Definition elementsRead (q : string -> string) (n : nat) : Prop :=
  forall l acc rest,
    l <> [] -> (sizeElems l <= n)%nat -> Forall wfJSON l ->
    jsontext.parseElements n (printElems q l +:+ rest) acc
    = Some (JArray (acc ++ l), rest).

Definition membersRead (q : string -> string) (n : nat) : Prop :=
  forall m acc rest,
    m <> [] -> (sizeMembers m <= n)%nat ->
    Forall (fun kv => utf8.ValidString (fst kv) = true /\ wfJSON (snd kv)) m ->
    jsontext.parseMembers n (printMembers q m +:+ rest) acc
    = Some (JObject (acc ++ m), rest).

(** The JSON value of a Detail, and of a record given the Detail its
    pointer addresses: what [json.Marshal] writes, as a value. *)
Definition detailsJSON (d : StudentDetails) : jvalue :=
  JObject [ ("FirstName", JString (FirstName d));
            ("LastName", JString (LastName d));
            ("Major", JString (Major d)) ].

Definition studentJSON (info : option StudentDetails) (rank : Z) : jvalue :=
  JObject
    (match info with
     | Some d => [("info", detailsJSON d)]
     | None => []
     end ++
     (if rank =? 0 then [] else [("rank", JNumber (strconv.FormatInt rank))])).

(** A JSON text written with apostrophes where the text has double
    quotes. *)
Fixpoint dq (s : string) : string :=
  match s with
  | EmptyString => EmptyString
  | String c t =>
    String (if (c =? "'")%char then jsontext.quoteChar else c) (dq t)
  end.

(** The document the README shows for John Doe. *)
Definition johnDoeText : string :=
  dq "{'info':{'FirstName':'John','LastName':'Doe','Major':'CSE'},'rank':1}".

(** The zero value of [Student]: a nil pointer and rank 0. *)
Definition zeroStudent : Student := mkStudent None 0.

(** A Detail whose first name is the single byte 0xFF, which is not
    valid UTF-8, and a world that holds it at address 1. *)
Definition rawDetails : StudentDetails :=
  mkStudentDetails (String (toByte 255) EmptyString) "Doe" "CSE".

Definition worldWithRaw : World :=
  mkWorld {[ 1%positive := rawDetails ]} (mkConn ∅ [] false) [].

(** The result of a write followed by the matching read and
    [json.Unmarshal] of the bytes read into a zero [Student]; a reply
    that is not a byte string fails the type assertion, as in [main]. *)
Definition roundTrip (write : string -> Value -> Prog unit)
    (read : string -> Prog reply) (key : string) (r : Student)
    : Prog Student :=
  _ <- write key (VStudent r) ;;
  reply <- read key ;;
  b <- assertBytes reply ;;
  json.Unmarshal b zeroStudent.

(** A record with empty strings, a string with bytes beyond ASCII and
    with characters that the encoder escapes, and rank 0. *)
Definition sparseDetails : StudentDetails :=
  mkStudentDetails "" "Doë & <Sons>" "".

Definition worldWithSparse : World :=
  mkWorld {[ 1%positive := sparseDetails ]} (mkConn ∅ [] false) [].

Definition sparse : Student := mkStudent (Some 1%positive) 0.

(** ** Vocabulary of the properties of the operations *)

(** A computation that either fails without touching the world, or
    amounts to one round trip of the command [name] with [key] for its
    first argument. *)
Definition oneCommandOn (name key : string) {A} (m : Prog A) : Prop :=
  forall w,
    (fst (m w) = w /\ isErr (snd (m w)) = true) \/
    exists bulk,
      fst (m w) = fst (redis.roundTrip (name :: key :: bulk) w) /\
      isErr (snd (m w))
      = isErr (snd (redis.roundTrip (name :: key :: bulk) w)).

(** The commands that read: the server answers them and stores
    nothing. *)
Definition readCommand (name : string) : bool :=
  String.eqb name "HGETALL" || String.eqb name "HGET"
  || String.eqb name "JSON.GET".
(** The world is what it was but for the log of the commands sent. *)
Definition onlySent (w w' : World) : Prop :=
  heap w' = heap w /\
  server (conn w') = server (conn w) /\
  closed (conn w') = closed (conn w) /\
  stdout w' = stdout w.

(** A world whose connection is down; the record [john] is on its heap. *)
Definition downWorld : World :=
  mkWorld {[ 1%positive := johnDoe ]} (mkConn ∅ [] true) [].

(** A world whose server holds a hash under ["H"] and a JSON document
    under ["D"]; the record [john] is on its heap. *)
Definition worldWithBoth : World :=
  mkWorld {[ 1%positive := johnDoe ]}
    (mkConn {[ "H" := RHash [("Note", "x")];
               "D" := RJson (JObject [("old", JNumber "7")]) ]} [] false)
    [].
(** What [HGET] answers for the value under a key and a field name. *)
Definition hgetAnswer (o : option RedisVal) (f : string) : result reply :=
  match o with
  | None => Ok RNil
  | Some (RHash h) =>
    Ok (match redis_server.hashGet h f with
        | Some v => RBulk v
        | None => RNil
        end)
  | Some _ => Err (RedisError redis_server.wrongType)
  end.

(** What [JSON.GET] at the root answers for the value under a key. *)
Definition jsonGetAnswer (o : option RedisVal) : result reply :=
  match o with
  | None => Ok RNil
  | Some (RJson doc) => Ok (RBulk (redis_server.serialize doc))
  | Some _ => Err (RedisError redis_server.wrongType)
  end.

(** Reading as [main] does (lines 90-97 and 122-129): the reply is
    asserted to be a byte string. *)
Definition readBytes (read : string -> Prog reply) (key : string)
    : Prog string :=
  r <- read key ;; assertBytes r.

(** The world after one round trip of [cmd] that left the database
    [db]. *)
Definition afterCommand (w : World) (cmd : list string)
    (db : gmap string RedisVal) : World :=
  mkWorld (heap w) (mkConn db (sent (conn w) ++ [cmd]) false) (stdout w).

(** The hash under a key; no field when the key holds no hash. *)
Definition hashAt (db : gmap string RedisVal) (key : string)
    : list (string * string) :=
  match db !! key with
  | Some (RHash h) => h
  | _ => []
  end.

(** The key is free or holds a hash. *)
Definition hashOrFree (db : gmap string RedisVal) (key : string) : Prop :=
  match db !! key with
  | None | Some (RHash _) => True
  | Some _ => False
  end.

(** The key is free or holds a JSON document. *)
Definition docOrFree (db : gmap string RedisVal) (key : string) : Prop :=
  match db !! key with
  | None | Some (RJson _) => True
  | Some _ => False
  end.

(** The strings of a Detail, if there is one, are valid UTF-8. *)
Definition validInfo (o : option StudentDetails) : Prop :=
  match o with
  | Some d => validDetails d
  | None => True
  end.
(** Two Details that differ and that [fmt] prints alike, and a world
    that holds them at the addresses 1 and 2. *)
Definition johnPaul : StudentDetails := mkStudentDetails "John Paul" "Doe" "CSE".

Definition paulDoe : StudentDetails := mkStudentDetails "John" "Paul Doe" "CSE".

Definition worldWithTwo : World :=
  mkWorld {[ 1%positive := johnPaul; 2%positive := paulDoe ]}
          (mkConn ∅ [] false) [].

(** A record with a nil Detail and a rank that is not zero. *)
Definition ranked : Student := mkStudent None 42.
(** The three lines [main] prints (the comments at lines 83, 104 and
    136). *)
Definition mainOutput : list string :=
  [ "[HASH] Student Info &{John Doe CSE} [Type string]";
    "[ReJSON] Student Info &{John Doe CSE} [Type *main.StudentDetails]";
    "[HSET JSON] Student Info &{John Doe CSE} [Type *main.StudentDetails]" ].

(** The six commands [main] sends, in order. *)
Definition mainCommands : list (list string) :=
  [ ["HMSET"; "JohnDoeHash"; "Info"; "&{John Doe CSE}"; "Rank"; "1"];
    ["JSON.SET"; "JohnDoeJSON"; "."; johnDoeText];
    ["HGETALL"; "JohnDoeHash"];
    ["JSON.GET"; "JohnDoeJSON"; ""];
    ["HSET"; "JohnDoeHashJSON"; "JSON"; johnDoeText];
    ["HGET"; "JohnDoeHashJSON"; "JSON"] ].

(** What [main] leaves under its three keys. *)
Definition mainStore (db : gmap string RedisVal) : gmap string RedisVal :=
  <["JohnDoeHashJSON" := RHash [("JSON", johnDoeText)]]>
    (<["JohnDoeJSON" := RJson (studentJSON (Some johnDoe) 1)]>
       (<["JohnDoeHash" :=
            RHash [("Info", "&{John Doe CSE}"); ("Rank", "1")]]> db)).

(** The key is free, or holds the value [v] already. *)
Definition freeOr (db : gmap string RedisVal) (key : string) (v : RedisVal)
    : Prop :=
  db !! key = None \/ db !! key = Some v.

(** The three keys of [main] are free or hold what a run of [main]
    leaves under them. *)
Definition mainReady (db : gmap string RedisVal) : Prop :=
  freeOr db "JohnDoeHash" (RHash [("Info", "&{John Doe CSE}"); ("Rank", "1")]) /\
  freeOr db "JohnDoeJSON" (RJson (studentJSON (Some johnDoe) 1)) /\
  freeOr db "JohnDoeHashJSON" (RHash [("JSON", johnDoeText)]).

(** Every object of the heap [h] is in [h'], unchanged. *)
Definition keepsObjects (h h' : gmap loc StudentDetails) : Prop :=
  forall l d, h !! l = Some d -> h' !! l = Some d.
(** A world in which the key ["JohnDoeJSON"] holds a hash, so that the
    second write of [main] fails. *)
Definition worldWithClash : World :=
  mkWorld ∅ (mkConn {[ "JohnDoeJSON" := RHash [("Note", "x")] ]} [] false) [].

(* ================================================================== *)
(** * Part II: theorems                                                *)
(* ================================================================== *)

#[local] Arguments String.append !s1 s2 : simpl nomatch.
(** ** Strings *)

Lemma append_assoc (a b c : string) : (a +:+ b) +:+ c = a +:+ (b +:+ c).
Proof. induction a as [| x a IH]; simpl; [reflexivity | f_equal; exact IH]. Qed.

Lemma append_nil_r (a : string) : a +:+ "" = a.
Proof. induction a as [| x a IH]; simpl; [reflexivity | f_equal; exact IH]. Qed.

Lemma length_append (a b : string) :
  String.length (a +:+ b) = (String.length a + String.length b)%nat.
Proof. induction a as [| x a IH]; simpl; [reflexivity | f_equal; exact IH]. Qed.

Lemma takeS_dropS (n : nat) (s : string) : takeS n s +:+ dropS n s = s.
Proof.
  revert s. induction n as [| n IH]; intros [| c t]; simpl; try reflexivity.
  f_equal. apply IH.
Qed.

Lemma dropS_append (a b : string) : dropS (String.length a) (a +:+ b) = b.
Proof. induction a as [| x a IH]; simpl; [now destruct b | exact IH]. Qed.

(** ** Bytes *)

Lemma byteZ_range (c : ascii) : 0 <= byteZ c < 256.
Proof.
  unfold byteZ. pose proof (N_ascii_bounded c). lia.
Qed.

Lemma toByte_byteZ (c : ascii) : toByte (byteZ c) = c.
Proof.
  unfold toByte. rewrite Z.mod_small by apply byteZ_range.
  unfold byteZ. rewrite N2Z.id. apply ascii_N_embedding.
Qed.

Lemma byteZ_toByte (z : Z) : 0 <= z < 256 -> byteZ (toByte z) = z.
Proof.
  intros H. unfold toByte, byteZ. rewrite Z.mod_small by exact H.
  rewrite N_ascii_embedding by lia. lia.
Qed.

Lemma byteZ_inj (a b : ascii) : byteZ a = byteZ b -> a = b.
Proof. intros H. rewrite <- (toByte_byteZ a), <- (toByte_byteZ b). now rewrite H. Qed.

(** ** Bit operations as arithmetic *)

Lemma land_low_zero (x b n : Z) :
  0 <= n -> 0 <= b < 2 ^ n -> x mod 2 ^ n = 0 -> Z.land x b = 0.
Proof.
  intros Hn Hb Hx. apply Z.bits_inj'. intros i Hi.
  rewrite Z.land_spec, Z.bits_0.
  destruct (Z.lt_ge_cases i n) as [L | G].
  - assert (E : Z.testbit x i = false).
    { assert (X : x = x / 2 ^ n * 2 ^ n).
      { pose proof (Z.div_mod x (2 ^ n)) as D.
        assert (2 ^ n <> 0) by (apply Z.pow_nonzero; lia). lia. }
      rewrite X. apply Z.mul_pow2_bits_low. exact L. }
    now rewrite E.
  - assert (E : Z.testbit b i = false).
    { destruct (Z.eq_dec b 0) as [-> | N]; [apply Z.bits_0 |].
      apply Z.bits_above_log2; [lia |].
      apply Z.lt_le_trans with n; [| exact G].
      apply Z.log2_lt_pow2; lia. }
    rewrite E. apply andb_false_r.
Qed.

Lemma lor_add (x b n : Z) :
  0 <= n -> 0 <= b < 2 ^ n -> x mod 2 ^ n = 0 -> Z.lor x b = x + b.
Proof.
  intros Hn Hb Hx. symmetry. apply Z.add_nocarry_lor.
  now apply land_low_zero with n.
Qed.

(** The masks and shifts of [unicode/utf8], on bytes and runes. *)
Lemma land_63 x : Z.land x 63 = x mod 64.
Proof. change 63 with (Z.ones 6). now rewrite Z.land_ones. Qed.

Lemma land_31 x : Z.land x 31 = x mod 32.
Proof. change 31 with (Z.ones 5). now rewrite Z.land_ones. Qed.

Lemma land_15 x : Z.land x 15 = x mod 16.
Proof. change 15 with (Z.ones 4). now rewrite Z.land_ones. Qed.

Lemma land_7 x : Z.land x 7 = x mod 8.
Proof. change 7 with (Z.ones 3). now rewrite Z.land_ones. Qed.

Lemma shiftl_6 x : Z.shiftl x 6 = x * 64.
Proof. now rewrite Z.shiftl_mul_pow2. Qed.

Lemma shiftl_12 x : Z.shiftl x 12 = x * 4096.
Proof. now rewrite Z.shiftl_mul_pow2. Qed.

Lemma shiftl_18 x : Z.shiftl x 18 = x * 262144.
Proof. now rewrite Z.shiftl_mul_pow2. Qed.

Lemma shiftr_6 x : Z.shiftr x 6 = x / 64.
Proof. now rewrite Z.shiftr_div_pow2. Qed.

Lemma shiftr_12 x : Z.shiftr x 12 = x / 4096.
Proof. now rewrite Z.shiftr_div_pow2. Qed.

Lemma shiftr_18 x : Z.shiftr x 18 = x / 262144.
Proof. now rewrite Z.shiftr_div_pow2. Qed.

Ltac bits_to_arith :=
  unfold utf8.maskx, utf8.mask2, utf8.mask3, utf8.mask4,
         utf8.tx, utf8.t2, utf8.t3, utf8.t4 in *;
  rewrite ?land_63, ?land_31, ?land_15, ?land_7,
          ?shiftl_6, ?shiftl_12, ?shiftl_18,
          ?shiftr_6, ?shiftr_12, ?shiftr_18 in *.

(** The rune of a two-byte sequence. *)
Lemma rune2_arith b0 b1 :
  Z.lor (Z.shiftl (Z.land b0 utf8.mask2) 6) (Z.land b1 utf8.maskx)
  = (b0 mod 32) * 64 + b1 mod 64.
Proof.
  bits_to_arith.
  apply lor_add with 6; [lia | | ].
  - change (2 ^ 6) with 64. apply Z.mod_pos_bound. lia.
  - change (2 ^ 6) with 64. apply Z.mod_mul. lia.
Qed.

Lemma rune3_arith b0 b1 b2 :
  Z.lor (Z.lor (Z.shiftl (Z.land b0 utf8.mask3) 12)
               (Z.shiftl (Z.land b1 utf8.maskx) 6))
        (Z.land b2 utf8.maskx)
  = (b0 mod 16) * 4096 + (b1 mod 64) * 64 + b2 mod 64.
Proof.
  bits_to_arith.
  pose proof (Z.mod_pos_bound b1 64). pose proof (Z.mod_pos_bound b2 64).
  rewrite (lor_add (b0 mod 16 * 4096) (b1 mod 64 * 64) 12);
    [| lia | change (2 ^ 12) with 4096; lia
     | change (2 ^ 12) with 4096; apply Z.mod_mul; lia ].
  apply lor_add with 6; [lia | change (2 ^ 6) with 64; lia |].
  change (2 ^ 6) with 64.
  replace (b0 mod 16 * 4096 + b1 mod 64 * 64)
    with ((b0 mod 16 * 64 + b1 mod 64) * 64) by lia.
  apply Z.mod_mul. lia.
Qed.

Lemma rune4_arith b0 b1 b2 b3 :
  Z.lor (Z.lor (Z.lor (Z.shiftl (Z.land b0 utf8.mask4) 18)
                      (Z.shiftl (Z.land b1 utf8.maskx) 12))
               (Z.shiftl (Z.land b2 utf8.maskx) 6))
        (Z.land b3 utf8.maskx)
  = (b0 mod 8) * 262144 + (b1 mod 64) * 4096 + (b2 mod 64) * 64 + b3 mod 64.
Proof.
  bits_to_arith.
  pose proof (Z.mod_pos_bound b1 64). pose proof (Z.mod_pos_bound b2 64).
  pose proof (Z.mod_pos_bound b3 64). pose proof (Z.mod_pos_bound b0 8).
  rewrite (lor_add (b0 mod 8 * 262144) (b1 mod 64 * 4096) 18);
    [| lia | change (2 ^ 18) with 262144; lia
     | change (2 ^ 18) with 262144; apply Z.mod_mul; lia ].
  rewrite (lor_add (b0 mod 8 * 262144 + b1 mod 64 * 4096) (b2 mod 64 * 64) 12);
    [| lia | change (2 ^ 12) with 4096; lia | ].
  - apply lor_add with 6; [lia | change (2 ^ 6) with 64; lia |].
    change (2 ^ 6) with 64.
    replace (b0 mod 8 * 262144 + b1 mod 64 * 4096 + b2 mod 64 * 64)
      with ((b0 mod 8 * 4096 + b1 mod 64 * 64 + b2 mod 64) * 64) by lia.
    apply Z.mod_mul. lia.
  - change (2 ^ 12) with 4096.
    replace (b0 mod 8 * 262144 + b1 mod 64 * 4096)
      with ((b0 mod 8 * 64 + b1 mod 64) * 4096) by lia.
    apply Z.mod_mul. lia.
Qed.

(** ** UTF-8: decoding and encoding a well-formed sequence *)

Ltac zdecide c :=
  let v := eval vm_compute in c in
  lazymatch v with
  | true => change c with true
  | false => change c with false
  end.

Ltac zcase1 :=
  match goal with
  | |- context [Z.ltb ?a ?b] =>
    first [zdecide (Z.ltb a b) | destruct (Z.ltb_spec a b)]
  | |- context [Z.leb ?a ?b] =>
    first [zdecide (Z.leb a b) | destruct (Z.leb_spec a b)]
  | |- context [Z.eqb ?a ?b] =>
    first [zdecide (Z.eqb a b) | destruct (Z.eqb_spec a b)]
  end.

Ltac zcases := repeat (zcase1; cbn [andb orb negb]; try lia).

Ltac modlia := Z.div_mod_to_equations; lia.

Ltac utf8_consts :=
  unfold utf8.rune1Max, utf8.rune2Max, utf8.rune3Max, utf8.MaxRune,
         utf8.surrogateMin, utf8.surrogateMax, utf8.RuneError,
         utf8.RuneSelf, utf8.locb, utf8.hicb in *.

Ltac accept_ranges :=
  repeat match goal with
  | |- context [utf8.acceptRanges ?a] =>
    let v := eval vm_compute in (utf8.acceptRanges a) in
    change (utf8.acceptRanges a) with v; cbv beta iota zeta
  end.

Lemma first_s1 b : 0xC2 <= b <= 0xDF -> utf8.first b = utf8.s1.
Proof. intros H. unfold utf8.first. zcases; try reflexivity. Qed.

Lemma first_s2 b : b = 0xE0 -> utf8.first b = utf8.s2.
Proof. intros ->. reflexivity. Qed.

Lemma first_s3 b :
  0xE1 <= b <= 0xEF -> b <> 0xED -> utf8.first b = utf8.s3.
Proof. intros H N. unfold utf8.first. zcases; try reflexivity. Qed.

Lemma first_s4 b : b = 0xED -> utf8.first b = utf8.s4.
Proof. intros ->. reflexivity. Qed.

Lemma first_s5 b : b = 0xF0 -> utf8.first b = utf8.s5.
Proof. intros ->. reflexivity. Qed.

Lemma first_s6 b : 0xF1 <= b <= 0xF3 -> utf8.first b = utf8.s6.
Proof. intros H. unfold utf8.first. zcases; try reflexivity. Qed.

Lemma first_s7 b : b = 0xF4 -> utf8.first b = utf8.s7.
Proof. intros ->. reflexivity. Qed.

Ltac decode_leaf :=
  cbv beta iota zeta; zcases; accept_ranges; utf8_consts; zcases;
  try reflexivity.

Lemma runeAt_decode s r n : runeAt s r n -> utf8.DecodeRuneInString s = (r, n).
Proof.
  intros [c0 c1 t H0 H1 | c0 c1 c2 t H0 H1 HE0 HED H2
          | c0 c1 c2 c3 t H0 H1 HF0 HF4 H2 H3];
    unfold utf8.DecodeRuneInString.
  - rewrite rune2_arith, first_s1 by exact H0. decode_leaf.
  - rewrite rune3_arith.
    destruct (Z.eq_dec (byteZ c0) 0xE0) as [E | NE0];
      [rewrite (first_s2 _ E); specialize (HE0 E); decode_leaf |].
    destruct (Z.eq_dec (byteZ c0) 0xED) as [E | NED];
      [rewrite (first_s4 _ E); specialize (HED E); decode_leaf |].
    rewrite first_s3 by lia. decode_leaf.
  - rewrite rune4_arith.
    destruct (Z.eq_dec (byteZ c0) 0xF0) as [E | NF0];
      [rewrite (first_s5 _ E); specialize (HF0 E); decode_leaf |].
    destruct (Z.eq_dec (byteZ c0) 0xF4) as [E | NF4];
      [rewrite (first_s7 _ E); specialize (HF4 E); decode_leaf |].
    rewrite first_s6 by lia. decode_leaf.
Qed.

Lemma String_eq a b s t : a = b -> s = t -> String a s = String b t.
Proof. now intros -> ->. Qed.

Lemma toByte_eq z c : z = byteZ c -> toByte z = c.
Proof. intros ->. apply toByte_byteZ. Qed.

(** The digits of a rune in base 64. *)
Lemma digits2 a b :
  0 <= b < 64 -> (a * 64 + b) / 64 = a /\ (a * 64 + b) mod 64 = b.
Proof. intros. split; modlia. Qed.

Lemma digits3 a b c :
  0 <= b < 64 -> 0 <= c < 64 ->
  let r := a * 4096 + b * 64 + c in
  r / 4096 = a /\ (r / 64) mod 64 = b /\ r mod 64 = c.
Proof.
  intros Hb Hc r. subst r.
  replace (a * 4096 + b * 64 + c) with ((a * 64 + b) * 64 + c) by lia.
  destruct (digits2 (a * 64 + b) c Hc) as [Q R].
  destruct (digits2 a b Hb) as [Q' R'].
  repeat split.
  - replace 4096 with (64 * 64) by reflexivity.
    rewrite <- Z.div_div by lia. now rewrite Q, Q'.
  - now rewrite Q, R'.
  - exact R.
Qed.

Lemma digits4 a b c d :
  0 <= b < 64 -> 0 <= c < 64 -> 0 <= d < 64 ->
  let r := a * 262144 + b * 4096 + c * 64 + d in
  r / 262144 = a /\ (r / 4096) mod 64 = b /\ (r / 64) mod 64 = c
  /\ r mod 64 = d.
Proof.
  intros Hb Hc Hd r. subst r.
  replace (a * 262144 + b * 4096 + c * 64 + d)
    with ((a * 4096 + b * 64 + c) * 64 + d) by lia.
  destruct (digits2 (a * 4096 + b * 64 + c) d Hd) as [Q R].
  destruct (digits3 a b c Hb Hc) as (Q1 & Q2 & Q3).
  repeat split.
  - replace 262144 with (64 * 4096) by reflexivity.
    rewrite <- Z.div_div by lia. now rewrite Q.
  - assert (X : forall x, x / 4096 = x / 64 / 64)
      by (intros; now rewrite Z.div_div by lia).
    rewrite X. now rewrite Q.
  - now rewrite Q.
  - exact R.
Qed.

Lemma lor_t2 a : 0 <= a < 32 -> Z.lor 192 a = 192 + a.
Proof. intros H. apply lor_add with 6; [lia | change (2 ^ 6) with 64; lia | reflexivity]. Qed.

Lemma lor_t3 a : 0 <= a < 16 -> Z.lor 224 a = 224 + a.
Proof. intros H. apply lor_add with 5; [lia | change (2 ^ 5) with 32; lia | reflexivity]. Qed.

Lemma lor_t4 a : 0 <= a < 8 -> Z.lor 240 a = 240 + a.
Proof. intros H. apply lor_add with 4; [lia | change (2 ^ 4) with 16; lia | reflexivity]. Qed.

Lemma lor_tx a : 0 <= a < 64 -> Z.lor 128 a = 128 + a.
Proof. intros H. apply lor_add with 7; [lia | change (2 ^ 7) with 128; lia | reflexivity]. Qed.

Lemma mod_sub b m k : k * m <= b < (k + 1) * m -> b mod m = b - k * m.
Proof.
  intros H. symmetry. apply Z.mod_unique with k; [left |]; lia.
Qed.

Lemma EncodeRune_2 r :
  128 <= r <= 2047 ->
  utf8.EncodeRune r =
  String (toByte (192 + r / 64)) (String (toByte (128 + r mod 64)) "").
Proof.
  intros H. unfold utf8.EncodeRune.
  rewrite (Z.mod_small r (2 ^ 32)) by lia.
  utf8_consts.
  destruct (Z.leb_spec r 127); [lia |].
  destruct (Z.leb_spec r 2047); [| lia].
  bits_to_arith. rewrite lor_t2, lor_tx by modlia. reflexivity.
Qed.

Lemma EncodeRune_3 r :
  2048 <= r <= 65535 -> ~ (55296 <= r <= 57343) ->
  utf8.EncodeRune r =
  String (toByte (224 + r / 4096))
    (String (toByte (128 + (r / 64) mod 64))
       (String (toByte (128 + r mod 64)) "")).
Proof.
  intros H N. unfold utf8.EncodeRune, utf8.encode3.
  rewrite (Z.mod_small r (2 ^ 32)) by lia.
  utf8_consts.
  destruct (Z.leb_spec r 127); [lia |].
  destruct (Z.leb_spec r 2047); [lia |].
  destruct (Z.ltb_spec 1114111 r); [lia |].
  destruct (Z.leb_spec r 65535); [| lia].
  assert (E : (55296 <=? r) && (r <=? 57343) = false).
  { destruct (Z.leb_spec 55296 r), (Z.leb_spec r 57343); try reflexivity. lia. }
  rewrite E. cbn [orb].
  bits_to_arith. rewrite lor_t3, !lor_tx by modlia. reflexivity.
Qed.

Lemma EncodeRune_4 r :
  65536 <= r <= 1114111 ->
  utf8.EncodeRune r =
  String (toByte (240 + r / 262144))
    (String (toByte (128 + (r / 4096) mod 64))
       (String (toByte (128 + (r / 64) mod 64))
          (String (toByte (128 + r mod 64)) ""))).
Proof.
  intros H. unfold utf8.EncodeRune.
  rewrite (Z.mod_small r (2 ^ 32)) by lia.
  utf8_consts.
  destruct (Z.leb_spec r 127); [lia |].
  destruct (Z.leb_spec r 2047); [lia |].
  destruct (Z.ltb_spec 1114111 r); [lia |].
  destruct (Z.leb_spec r 65535); [lia |].
  assert (E : (55296 <=? r) && (r <=? 57343) = false).
  { destruct (Z.leb_spec 55296 r), (Z.leb_spec r 57343); try reflexivity. lia. }
  rewrite E. cbn [orb].
  bits_to_arith. rewrite lor_t4, !lor_tx by modlia. reflexivity.
Qed.

Lemma runeAt_encode s r n : runeAt s r n -> utf8.EncodeRune r = takeS n s.
Proof.
  intros [c0 c1 t H0 H1 | c0 c1 c2 t H0 H1 HE0 HED H2
          | c0 c1 c2 c3 t H0 H1 HF0 HF4 H2 H3]; cbn [takeS].
  - rewrite (mod_sub (byteZ c0) 32 6), (mod_sub (byteZ c1) 64 2) by lia.
    destruct (digits2 (byteZ c0 - 6 * 32) (byteZ c1 - 2 * 64)) as [Q R]; [lia |].
    rewrite EncodeRune_2 by lia. rewrite Q, R.
    repeat apply String_eq; try reflexivity; apply toByte_eq; lia.
  - rewrite (mod_sub (byteZ c0) 16 14), (mod_sub (byteZ c1) 64 2),
            (mod_sub (byteZ c2) 64 2) by lia.
    destruct (digits3 (byteZ c0 - 14 * 16) (byteZ c1 - 2 * 64)
                      (byteZ c2 - 2 * 64)) as (Q1 & Q2 & Q3); [lia | lia |].
    rewrite EncodeRune_3 by lia. rewrite Q1, Q2, Q3.
    repeat apply String_eq; try reflexivity; apply toByte_eq; lia.
  - rewrite (mod_sub (byteZ c0) 8 30), (mod_sub (byteZ c1) 64 2),
            (mod_sub (byteZ c2) 64 2), (mod_sub (byteZ c3) 64 2) by lia.
    destruct (digits4 (byteZ c0 - 30 * 8) (byteZ c1 - 2 * 64)
                      (byteZ c2 - 2 * 64) (byteZ c3 - 2 * 64))
      as (Q1 & Q2 & Q3 & Q4); [lia | lia | lia |].
    rewrite EncodeRune_4 by lia. rewrite Q1, Q2, Q3, Q4.
    repeat apply String_eq; try reflexivity; apply toByte_eq; lia.
Qed.

Lemma first_xx b : 0x80 <= b < 0xC2 \/ 0xF5 <= b -> utf8.first b = utf8.xx.
Proof. intros H. unfold utf8.first. zcases; try reflexivity. Qed.

Ltac rune_leaf :=
  cbv beta iota zeta; zcases; accept_ranges; utf8_consts; zcases;
  cbn [fst snd]; intros Hinv; try discriminate Hinv;
  rewrite ?rune2_arith, ?rune3_arith, ?rune4_arith;
  constructor; lia.

(** Where decoding does not report an error at a byte that is not
    ASCII, the string starts with a well-formed sequence. *)
Lemma decode_runeAt c0 t :
  128 <= byteZ c0 ->
  utf8.invalidAt (String c0 t) = false ->
  runeAt (String c0 t) (fst (utf8.DecodeRuneInString (String c0 t)))
                       (snd (utf8.DecodeRuneInString (String c0 t))).
Proof.
  intros Hge. unfold utf8.invalidAt, utf8.DecodeRuneInString.
  pose proof (byteZ_range c0) as B.
  destruct (Z.lt_ge_cases (byteZ c0) 0xC2);
    [rewrite first_xx by lia; rune_leaf |].
  destruct (Z.lt_ge_cases (byteZ c0) 0xE0);
    [rewrite first_s1 by lia; destruct t as [| c1 t]; rune_leaf |].
  destruct (Z.lt_ge_cases (byteZ c0) 0xF0).
  - destruct (Z.eq_dec (byteZ c0) 0xE0) as [E | NE0];
      [rewrite (first_s2 _ E); destruct t as [| c1 [| c2 t]]; rune_leaf |].
    destruct (Z.eq_dec (byteZ c0) 0xED) as [E | NED];
      [rewrite (first_s4 _ E); destruct t as [| c1 [| c2 t]]; rune_leaf |].
    rewrite first_s3 by lia. destruct t as [| c1 [| c2 t]]; rune_leaf.
  - destruct (Z.lt_ge_cases (byteZ c0) 0xF5);
      [| rewrite first_xx by lia; rune_leaf].
    destruct (Z.eq_dec (byteZ c0) 0xF0) as [E | NF0];
      [rewrite (first_s5 _ E); destruct t as [| c1 [| c2 [| c3 t]]]; rune_leaf |].
    destruct (Z.eq_dec (byteZ c0) 0xF4) as [E | NF4];
      [rewrite (first_s7 _ E); destruct t as [| c1 [| c2 [| c3 t]]]; rune_leaf |].
    rewrite first_s6 by lia. destruct t as [| c1 [| c2 [| c3 t]]]; rune_leaf.
Qed.

(** ** [strconv]: printing and parsing a 64-bit integer *)

Lemma byteZ_digitChar u : 0 <= u < 10 -> byteZ (strconv.digitChar u) = 48 + u.
Proof. intros H. unfold strconv.digitChar. apply byteZ_toByte. lia. Qed.

Lemma isDigit_digitChar u : 0 <= u < 10 -> strconv.isDigit (strconv.digitChar u) = true.
Proof.
  intros H. unfold strconv.isDigit. rewrite byteZ_digitChar by exact H.
  apply andb_true_intro. split; apply Z.leb_le; lia.
Qed.

Lemma formatBits_S f u acc :
  strconv.formatBits (S f) u acc =
  if u <? 10 then String (strconv.digitChar u) acc
  else strconv.formatBits f (u / 10) (String (strconv.digitChar (u mod 10)) acc).
Proof. reflexivity. Qed.

Lemma parseDigits_formatBits f u acc :
  0 <= u < 10 ^ Z.of_nat f ->
  strconv.parseDigits (strconv.formatBits f u acc) 0 = strconv.parseDigits acc u.
Proof.
  revert u acc. induction f as [| f IH]; intros u acc H.
  - simpl in *. assert (u = 0) by lia. subst u. reflexivity.
  - cbn [strconv.formatBits].
    destruct (Z.ltb_spec u 10) as [L | G].
    + cbn [strconv.parseDigits].
      rewrite isDigit_digitChar, byteZ_digitChar by lia. f_equal. lia.
    + rewrite IH.
      * cbn [strconv.parseDigits].
        assert (M : 0 <= u mod 10 < 10) by (apply Z.mod_pos_bound; lia).
        rewrite isDigit_digitChar, byteZ_digitChar by exact M.
        f_equal. pose proof (Z.div_mod u 10). lia.
      * rewrite Nat2Z.inj_succ, Z.pow_succ_r in H by lia.
        split; [apply Z.div_pos; lia |].
        apply Z.div_lt_upper_bound; lia.
Qed.

(** The digits [formatBits] writes before [acc]: a digit [d] and digits
    [ds], with [d] a zero only for the number 0. *)
Lemma formatBits_shape f u acc :
  0 <= u < 10 ^ Z.of_nat (S f) ->
  exists d ds,
    strconv.formatBits (S f) u acc = String d (ds +:+ acc) /\
    strconv.isDigit d = true /\ allDigits ds = true /\
    (d = "0"%char -> u = 0 /\ ds = EmptyString).
Proof.
  revert u acc. induction f as [| f IH]; intros u acc H.
  - change (10 ^ Z.of_nat 1) with 10 in H.
    cbn [strconv.formatBits]. destruct (Z.ltb_spec u 10) as [L | G]; [| lia].
    exists (strconv.digitChar u), EmptyString. repeat split.
    + now apply isDigit_digitChar.
    + apply (f_equal byteZ) in H0. rewrite byteZ_digitChar in H0 by lia.
      change (byteZ "0") with 48 in H0. lia.
  - rewrite formatBits_S. destruct (Z.ltb_spec u 10) as [L | G].
    + exists (strconv.digitChar u), EmptyString. repeat split.
      * apply isDigit_digitChar; lia.
      * apply (f_equal byteZ) in H0. rewrite byteZ_digitChar in H0 by lia.
        change (byteZ "0") with 48 in H0. lia.
    + assert (Hq : 0 < u / 10 < 10 ^ Z.of_nat (S f)).
      { rewrite (Nat2Z.inj_succ (S f)), Z.pow_succ_r in H by lia.
        split; [apply Z.div_str_pos; lia |].
        apply Z.div_lt_upper_bound; lia. }
      destruct (IH (u / 10) (String (strconv.digitChar (u mod 10)) acc))
        as (d & ds & E & D & A & Z0); [lia |].
      exists d, (ds +:+ String (strconv.digitChar (u mod 10)) EmptyString).
      rewrite E, append_assoc. repeat split; try assumption.
      * clear - A. induction ds as [| c ds IHd]; simpl in *.
        -- rewrite isDigit_digitChar; [reflexivity |].
           apply Z.mod_pos_bound. lia.
        -- apply andb_prop in A as [A1 A2]. rewrite A1. now apply IHd.
      * destruct (Z0 H0). lia.
      * destruct (Z0 H0). lia.
Qed.

Lemma int64_lt_pow10 i : isInt64 i -> 0 <= Z.abs i < 10 ^ Z.of_nat 20.
Proof.
  unfold isInt64, strconv.minInt64, strconv.maxInt64.
  change (10 ^ Z.of_nat 20) with 100000000000000000000.
  change (2 ^ 63) with 9223372036854775808. lia.
Qed.

(** The round trip of an integer through its decimal text. *)
Lemma ParseInt_FormatInt i :
  isInt64 i -> strconv.ParseInt (strconv.FormatInt i) = Some i.
Proof.
  intros H. pose proof (int64_lt_pow10 i H) as B.
  unfold strconv.FormatInt. destruct (Z.ltb_spec i 0) as [N | P].
  - unfold strconv.ParseInt. cbn [Ascii.eqb Bool.eqb].
    change ("-" =? "-")%char with true. cbv iota beta.
    destruct (formatBits_shape 19 (- i) EmptyString) as (d & ds & E & D & A & Z0);
      [lia |].
    pose proof (parseDigits_formatBits 20 (- i) EmptyString) as PD.
    rewrite E in *. rewrite PD by lia. cbn [strconv.parseDigits].
    replace (- - i) with i by lia.
    unfold isInt64 in H.
    destruct (Z.leb_spec strconv.minInt64 i), (Z.leb_spec i strconv.maxInt64);
      try lia. reflexivity.
  - destruct (formatBits_shape 19 i EmptyString) as (d & ds & E & D & A & Z0);
      [lia |].
    pose proof (parseDigits_formatBits 20 i EmptyString) as PD.
    rewrite E in *. unfold strconv.ParseInt.
    assert (Hm : (d =? "-")%char = false).
    { apply Ascii.eqb_neq. intros ->. discriminate D. }
    assert (Hp : (d =? "+")%char = false).
    { apply Ascii.eqb_neq. intros ->. discriminate D. }
    rewrite Hm, Hp. rewrite PD by lia. cbn [strconv.parseDigits].
    unfold isInt64 in H.
    destruct (Z.leb_spec strconv.minInt64 i), (Z.leb_spec i strconv.maxInt64);
      try lia. reflexivity.
Qed.

(** ** Scanning a number that a delimiter follows *)

Lemma delimited_cons c t :
  delimited (String c t) = true -> c = ","%char \/ c = "}"%char \/ c = "]"%char.
Proof.
  cbn [delimited]. intros H.
  apply orb_prop in H as [H | H]; [apply orb_prop in H as [H | H] |];
    apply Ascii.eqb_eq in H; auto.
Qed.

Lemma scanExp_delimited pre rest :
  delimited rest = true -> jsontext.scanExp pre rest = Some (pre, rest).
Proof.
  destruct rest as [| c t]; [reflexivity |]. intros H.
  destruct (delimited_cons c t H) as [-> | [-> | ->]]; reflexivity.
Qed.

Lemma scanFrac_delimited pre rest :
  delimited rest = true -> jsontext.scanFrac pre rest = Some (pre, rest).
Proof.
  destruct rest as [| c t]; [reflexivity |]. intros H.
  destruct (delimited_cons c t H) as [-> | [-> | ->]]; reflexivity.
Qed.

Lemma spanDigits_append ds rest :
  allDigits ds = true -> delimited rest = true ->
  jsontext.spanDigits (ds +:+ rest) = (ds, rest).
Proof.
  intros A D. induction ds as [| c ds IH]; simpl in *.
  - destruct rest as [| c t]; [reflexivity |].
    destruct (delimited_cons c t D) as [-> | [-> | ->]]; reflexivity.
  - apply andb_prop in A as [A1 A2]. rewrite A1, IH by exact A2. reflexivity.
Qed.

(** The digits of a number, with an optional sign before them. *)
Lemma scanNumber_digits sg d ds rest :
  sg = EmptyString \/ sg = "-" ->
  strconv.isDigit d = true -> allDigits ds = true ->
  (d = "0"%char -> ds = EmptyString) ->
  delimited rest = true ->
  jsontext.scanNumber (sg +:+ String d (ds +:+ rest))
  = Some (sg +:+ String d ds, rest).
Proof.
  intros S D A Z0 R.
  assert (Hm : (d =? "-")%char = false).
  { apply Ascii.eqb_neq. intros ->. discriminate D. }
  assert (Body : forall pre,
    (if (d =? "0")%char
     then jsontext.scanFrac (pre +:+ String d EmptyString) (ds +:+ rest)
     else if strconv.isDigit d
          then let '(ds', t1) := jsontext.spanDigits (ds +:+ rest) in
               jsontext.scanFrac (pre +:+ String d ds') t1
          else None) = Some (pre +:+ String d ds, rest)).
  { intros pre. destruct (Ascii.eqb_spec d "0") as [E | N].
    - rewrite (Z0 E). cbn [String.append]. now apply scanFrac_delimited.
    - rewrite D, spanDigits_append by assumption. now apply scanFrac_delimited. }
  destruct S as [-> | ->].
  - cbn [String.append]. unfold jsontext.scanNumber. rewrite Hm.
    apply (Body EmptyString).
  - cbn [String.append]. unfold jsontext.scanNumber.
    change ("-" =? "-")%char with true. cbv beta iota.
    apply (Body "-").
Qed.

Lemma scanNumber_FormatInt i rest :
  isInt64 i -> delimited rest = true ->
  jsontext.scanNumber (strconv.FormatInt i +:+ rest)
  = Some (strconv.FormatInt i, rest).
Proof.
  intros H R. pose proof (int64_lt_pow10 i H) as B.
  unfold strconv.FormatInt. destruct (Z.ltb_spec i 0) as [N | P].
  - destruct (formatBits_shape 19 (- i) EmptyString) as (d & ds & E & D & A & Z0);
      [lia |].
    rewrite E, append_nil_r.
    apply (scanNumber_digits "-" d ds rest); auto.
    intros Hd. destruct (Z0 Hd). lia.
  - destruct (formatBits_shape 19 i EmptyString) as (d & ds & E & D & A & Z0);
      [lia |].
    rewrite E, append_nil_r.
    apply (scanNumber_digits EmptyString d ds rest); auto.
    intros Hd. now destruct (Z0 Hd).
Qed.

Lemma FormatInt_head i :
  isInt64 i ->
  exists c t, strconv.FormatInt i = String c t /\
              (c = "-"%char \/ strconv.isDigit c = true).
Proof.
  intros H. pose proof (int64_lt_pow10 i H) as B.
  unfold strconv.FormatInt. destruct (Z.ltb_spec i 0) as [N | P].
  - eexists _, _. split; [reflexivity | now left].
  - destruct (formatBits_shape 19 i EmptyString) as (d & ds & E & D & A & Z0);
      [lia |].
    rewrite E. eexists _, _. split; [reflexivity | now right].
Qed.

(** ** String literals: what the decoder reads back *)

Lemma unquoteBody_skip a Y :
  jsontext.unquoteBody (String.length a) (a +:+ Y) = jsontext.unquoteBody 0 Y.
Proof.
  induction a as [| c a IH]; [reflexivity |].
  cbn [String.length String.append jsontext.unquoteBody]. exact IH.
Qed.

(** A chunk of input that one step of the decoder consumes whole. *)
Lemma unquoteBody_chunk o out Y :
  startsPlain o = true ->
  jsontext.unquoteStep (o +:+ Y) = Some (out, String.length o) ->
  jsontext.unquoteBody 0 (o +:+ Y) = prepend out (jsontext.unquoteBody 0 Y).
Proof.
  destruct o as [| c o]; [discriminate |]. cbn [startsPlain].
  intros Q St. apply negb_true_iff in Q.
  cbn [String.append String.length] in *.
  cbn [jsontext.unquoteBody]. rewrite Q, St.
  replace (S (String.length o) - 1)%nat with (String.length o) by lia.
  rewrite unquoteBody_skip. reflexivity.
Qed.

Lemma encodeBody_skip e a s :
  json.encodeBody e (String.length a) (a +:+ s) = json.encodeBody e 0 s.
Proof.
  induction a as [| c a IH]; [reflexivity |].
  cbn [String.length String.append json.encodeBody]. exact IH.
Qed.

Lemma validFrom_skip a s :
  utf8.validFrom (String.length a) (a +:+ s) = utf8.validFrom 0 s.
Proof.
  induction a as [| c a IH]; [reflexivity |].
  cbn [String.length String.append utf8.validFrom]. exact IH.
Qed.

(** *** Facts about a well-formed sequence *)

Lemma runeAt_size s r n : runeAt s r n -> (2 <= n <= 4)%nat.
Proof. intros []; lia. Qed.

Lemma runeAt_take s r n Y : runeAt s r n -> runeAt (takeS n s +:+ Y) r n.
Proof. intros []; cbn [takeS String.append]; constructor; assumption. Qed.

Lemma runeAt_length s r n : runeAt s r n -> String.length (takeS n s) = n.
Proof. intros []; reflexivity. Qed.

Lemma runeAt_head s r n :
  runeAt s r n -> exists c t, s = String c t /\ 128 <= byteZ c.
Proof. intros []; eexists _, _; (split; [reflexivity | lia]). Qed.

Lemma runeAt_valid s r n : runeAt s r n -> utf8.invalidAt s = false.
Proof.
  intros H. unfold utf8.invalidAt. rewrite (runeAt_decode _ _ _ H).
  destruct H; cbn; apply andb_false_r.
Qed.

(** The decoder at a well-formed sequence copies it. *)
Lemma unquoteStep_rune s r n Y :
  runeAt s r n ->
  jsontext.unquoteStep (takeS n s +:+ Y) = Some (takeS n s, n).
Proof.
  intros H. pose proof (runeAt_take s r n Y H) as HT.
  pose proof (runeAt_decode _ _ _ HT) as D.
  pose proof (runeAt_encode _ _ _ H) as E.
  destruct (runeAt_head _ _ _ HT) as (c & t & Es & Hc).
  rewrite Es in *. unfold jsontext.unquoteStep. rewrite D, E.
  pose proof (byteZ_range c) as B.
  assert (Hb : (c =? jsontext.backslash)%char = false).
  { apply Ascii.eqb_neq. intros ->. change (byteZ jsontext.backslash) with 92 in Hc. lia. }
  assert (Hq : (c =? jsontext.quoteChar)%char = false).
  { apply Ascii.eqb_neq. intros ->. change (byteZ jsontext.quoteChar) with 34 in Hc. lia. }
  rewrite Hb, Hq. cbn [orb]. unfold utf8.RuneSelf.
  destruct (Z.ltb_spec (byteZ c) 32); [lia |].
  destruct (Z.ltb_spec (byteZ c) 128); [lia |]. reflexivity.
Qed.

(** *** ASCII bytes, one by one *)

Lemma encodeStep_ascii e c t Y :
  byteZ c < 128 ->
  let o := fst (json.encodeStep e (String c t)) in
  snd (json.encodeStep e (String c t)) = 1%nat /\
  startsPlain o = true /\
  jsontext.unquoteStep (o +:+ Y) = Some (String c EmptyString, String.length o).
Proof.
  intros H.
  destruct c as [b0 b1 b2 b3 b4 b5 b6 b7].
  destruct b7;
    [ exfalso; destruct b0, b1, b2, b3, b4, b5, b6;
      vm_compute in H; discriminate H |].
  clear H.
  destruct e, b0, b1, b2, b3, b4, b5, b6; repeat split; reflexivity.
Qed.

(** *** A well-formed sequence: copied, or escaped for U+2028, U+2029 *)

Lemma encodeStep_rune e s r n :
  runeAt s r n ->
  exists o,
    json.encodeStep e s = (o, n) /\ startsPlain o = true /\
    forall Y, jsontext.unquoteStep (o +:+ Y) = Some (takeS n s, String.length o).
Proof.
  intros H.
  pose proof (runeAt_decode _ _ _ H) as D.
  pose proof (runeAt_encode _ _ _ H) as E.
  pose proof (runeAt_size _ _ _ H) as Sz.
  destruct (runeAt_head _ _ _ H) as (c & t & Es & Hc).
  unfold json.encodeStep. rewrite Es. rewrite <- Es. rewrite D.
  unfold utf8.RuneSelf. destruct (Z.ltb_spec (byteZ c) 128); [lia |].
  assert (N1 : (n =? 1)%nat = false) by (apply Nat.eqb_neq; lia).
  rewrite N1, andb_false_r.
  destruct (Z.eqb_spec r 0x2028) as [-> | N28].
  - exists "\u2028". repeat split. intros Y. rewrite <- E. reflexivity.
  - destruct (Z.eqb_spec r 0x2029) as [-> | N29].
    + exists "\u2029". repeat split. intros Y. rewrite <- E. reflexivity.
    + cbn [orb]. exists (takeS n s). repeat split.
      * destruct H; cbn [takeS startsPlain]; apply negb_true_iff, Ascii.eqb_neq;
          intros ->; change (byteZ jsontext.quoteChar) with 34 in *; lia.
      * intros Y. rewrite (runeAt_length _ _ _ H).
        now apply unquoteStep_rune with r.
Qed.

Lemma encodeBody_0 e c t :
  json.encodeBody e 0 (String c t) =
  fst (json.encodeStep e (String c t)) +:+
  json.encodeBody e (snd (json.encodeStep e (String c t)) - 1) t.
Proof.
  cbn [json.encodeBody]. destruct (json.encodeStep e (String c t)). reflexivity.
Qed.

Lemma validFrom_0 c t :
  utf8.validFrom 0 (String c t) =
  if utf8.invalidAt (String c t) then false
  else utf8.validFrom (snd (utf8.DecodeRuneInString (String c t)) - 1) t.
Proof. reflexivity. Qed.

Lemma decode_ascii c t :
  byteZ c < 128 -> utf8.DecodeRuneInString (String c t) = (byteZ c, 1%nat).
Proof.
  intros H. unfold utf8.DecodeRuneInString, utf8.first.
  destruct (Z.ltb_spec (byteZ c) 128); [reflexivity | lia].
Qed.

Lemma encodeBody_drop e n t :
  json.encodeBody e n t = json.encodeBody e 0 (dropS n t).
Proof.
  revert t. induction n as [| n IH]; intros [| c t]; try reflexivity.
  cbn [json.encodeBody dropS]. apply IH.
Qed.

Lemma validFrom_drop n t : utf8.validFrom n t = utf8.validFrom 0 (dropS n t).
Proof.
  revert t. induction n as [| n IH]; intros [| c t]; try reflexivity.
  cbn [utf8.validFrom dropS]. apply IH.
Qed.

Lemma length_dropS n t : (String.length (dropS n t) <= String.length t)%nat.
Proof.
  revert t. induction n as [| n IH]; intros [| c t]; simpl; try lia.
  specialize (IH t). lia.
Qed.

(** The literal Go writes for a valid string is read back as that
    string, whatever follows the closing quote. *)
Lemma unquote_encodeBody e s :
  utf8.ValidString s = true ->
  forall Y,
    jsontext.unquoteBody 0
      (json.encodeBody e 0 s +:+ String jsontext.quoteChar Y)
    = Some (s, Y).
Proof.
  unfold utf8.ValidString.
  remember (String.length s) as len eqn:L.
  assert (Hlen : (String.length s <= len)%nat) by lia. clear L.
  revert s Hlen. induction len as [| len IH]; intros s Hlen V Y.
  - destruct s; [reflexivity | simpl in Hlen; lia].
  - destruct s as [| c t]; [reflexivity |].
    rewrite validFrom_0 in V.
    destruct (utf8.invalidAt (String c t)) eqn:Inv; [discriminate |].
    rewrite encodeBody_0. rewrite validFrom_drop in V.
    rewrite encodeBody_drop.
    destruct (Z.lt_ge_cases (byteZ c) 128) as [A | NA].
    + destruct (encodeStep_ascii e c t
                  (json.encodeBody e 0 t +:+ String jsontext.quoteChar Y) A)
        as (S1 & P & U).
      rewrite decode_ascii in V by exact A. cbn [snd Nat.sub dropS] in V.
      rewrite S1. cbn [Nat.sub dropS]. rewrite append_assoc.
      rewrite (unquoteBody_chunk _ _ _ P U).
      rewrite IH; [reflexivity | simpl in Hlen; lia | exact V].
    + pose proof (decode_runeAt c t NA Inv) as R.
      destruct (utf8.DecodeRuneInString (String c t)) as [r n] eqn:D.
      cbn [fst snd] in R, V.
      destruct (encodeStep_rune e _ _ _ R) as (o & Eo & P & U).
      rewrite Eo. cbn [fst snd].
      pose proof (runeAt_size _ _ _ R) as Sz.
      pose proof (takeS_dropS n (String c t)) as Split.
      destruct n as [| n]; [lia |].
      replace (S n - 1)%nat with n in * by lia.
      change (dropS (S n) (String c t)) with (dropS n t) in Split.
      rewrite append_assoc, (unquoteBody_chunk _ _ _ P (U _)).
      rewrite IH; [| | exact V].
      * cbn [prepend]. rewrite Split. reflexivity.
      * pose proof (length_dropS n t). simpl in Hlen. lia.
Qed.

(** *** The document serializer of the server *)

Lemma serializeBody_cons c t :
  redis_server.serializeBody (String c t)
  = serializeByte c +:+ redis_server.serializeBody t.
Proof.
  unfold serializeByte. cbn [redis_server.serializeBody].
  now rewrite append_nil_r.
Qed.

Lemma serializeByte_ascii c Y :
  byteZ c < 128 ->
  startsPlain (serializeByte c) = true /\
  jsontext.unquoteStep (serializeByte c +:+ Y)
  = Some (String c EmptyString, String.length (serializeByte c)).
Proof.
  intros H.
  destruct c as [b0 b1 b2 b3 b4 b5 b6 b7].
  destruct b7;
    [ exfalso; destruct b0, b1, b2, b3, b4, b5, b6;
      vm_compute in H; discriminate H |].
  clear H.
  destruct b0, b1, b2, b3, b4, b5, b6; split; reflexivity.
Qed.

Lemma serializeByte_raw c : 128 <= byteZ c -> serializeByte c = String c EmptyString.
Proof.
  intros H. unfold serializeByte. cbn [redis_server.serializeBody].
  destruct (Z.eqb_spec (byteZ c) 34); [lia |].
  destruct (Z.eqb_spec (byteZ c) 92); [lia |].
  destruct (Z.ltb_spec (byteZ c) 32); [lia |]. reflexivity.
Qed.

Lemma serializeBody_rune s r n :
  runeAt s r n ->
  redis_server.serializeBody s
  = takeS n s +:+ redis_server.serializeBody (dropS n s).
Proof.
  intros []; cbn [takeS dropS];
    rewrite !serializeBody_cons, !serializeByte_raw by lia; reflexivity.
Qed.

Lemma startsPlain_rune s r n : runeAt s r n -> startsPlain (takeS n s) = true.
Proof.
  intros []; cbn [takeS startsPlain]; apply negb_true_iff, Ascii.eqb_neq;
    intros ->; change (byteZ jsontext.quoteChar) with 34 in *; lia.
Qed.

Lemma unquoteStep_rune_length s r n Y :
  runeAt s r n ->
  jsontext.unquoteStep (takeS n s +:+ Y)
  = Some (takeS n s, String.length (takeS n s)).
Proof.
  intros H. rewrite (runeAt_length _ _ _ H). now apply unquoteStep_rune with r.
Qed.

Lemma unquote_serializeBody s :
  utf8.ValidString s = true ->
  forall Y,
    jsontext.unquoteBody 0
      (redis_server.serializeBody s +:+ String jsontext.quoteChar Y)
    = Some (s, Y).
Proof.
  unfold utf8.ValidString.
  remember (String.length s) as len eqn:L.
  assert (Hlen : (String.length s <= len)%nat) by lia. clear L.
  revert s Hlen. induction len as [| len IH]; intros s Hlen V Y.
  - destruct s; [reflexivity | simpl in Hlen; lia].
  - destruct s as [| c t]; [reflexivity |].
    rewrite validFrom_0 in V.
    destruct (utf8.invalidAt (String c t)) eqn:Inv; [discriminate |].
    rewrite validFrom_drop in V.
    destruct (Z.lt_ge_cases (byteZ c) 128) as [A | NA].
    + destruct (serializeByte_ascii c
                  (redis_server.serializeBody t +:+ String jsontext.quoteChar Y) A)
        as (P & U).
      rewrite decode_ascii in V by exact A. cbn [snd Nat.sub dropS] in V.
      rewrite serializeBody_cons, append_assoc.
      rewrite (unquoteBody_chunk _ _ _ P U).
      rewrite IH; [reflexivity | simpl in Hlen; lia | exact V].
    + pose proof (decode_runeAt c t NA Inv) as R.
      destruct (utf8.DecodeRuneInString (String c t)) as [r n] eqn:D.
      cbn [fst snd] in R, V.
      pose proof (runeAt_size _ _ _ R) as Sz.
      pose proof (runeAt_length _ _ _ R) as Ln.
      pose proof (takeS_dropS n (String c t)) as Split.
      rewrite (serializeBody_rune _ _ _ R), append_assoc.
      pose proof (unquoteStep_rune_length _ _ _
        (redis_server.serializeBody (dropS n (String c t)) +:+
         String jsontext.quoteChar Y) R) as U.
      rewrite (unquoteBody_chunk _ _ _ (startsPlain_rune _ _ _ R) U).
      destruct n as [| n]; [lia |].
      replace (S n - 1)%nat with n in * by lia.
      change (dropS (S n) (String c t)) with (dropS n t) in *.
      rewrite IH; [| | exact V].
      * cbn [prepend]. rewrite Split. reflexivity.
      * pose proof (length_dropS n t). simpl in Hlen. lia.
Qed.

(** ** Running computations *)

Lemma bind_Ok {A B} (m : Prog A) (k : A -> Prog B) w w1 a :
  m w = (w1, Ok a) -> bind m k w = k a w1.
Proof. intros H. unfold bind. now rewrite H. Qed.

Lemma bind_Err {A B} (m : Prog A) (k : A -> Prog B) w w1 e :
  m w = (w1, Err e) -> bind m k w = (w1, Err e).
Proof. intros H. unfold bind. now rewrite H. Qed.

Lemma bind_inv_Ok {A B} (m : Prog A) (k : A -> Prog B) w w2 b :
  bind m k w = (w2, Ok b) ->
  exists w1 a, m w = (w1, Ok a) /\ k a w1 = (w2, Ok b).
Proof.
  unfold bind. destruct (m w) as [w1 [a | e]]; intros H.
  - exists w1, a. auto.
  - discriminate.
Qed.

(** ** Invariants that every step of a computation maintains *)

Section Maintained.

Context (I : relation World) `{!PreOrder I}.

Lemma maintains_ret {A} (a : A) : maintains I (ret a).
Proof. intros w. simpl. reflexivity. Qed.

Lemma maintains_fail {A} (e : error) : maintains I (@fail A e).
Proof. intros w. simpl. reflexivity. Qed.

Lemma maintains_bind {A B} (m : Prog A) (k : A -> Prog B) :
  maintains I m -> (forall a, maintains I (k a)) -> maintains I (bind m k).
Proof.
  intros Hm Hk w. unfold bind.
  specialize (Hm w). destruct (m w) as [w1 [a | e]]; simpl in *.
  - etransitivity; [exact Hm | apply Hk].
  - exact Hm.
Qed.

Lemma maintains_load l : maintains I (load l).
Proof. intros w. unfold load. destruct (heap w !! l); simpl; reflexivity. Qed.

Lemma maintains_deref p : maintains I (deref p).
Proof.
  destruct p; simpl.
  - apply maintains_bind; [apply maintains_load | intros; apply maintains_ret].
  - apply maintains_ret.
Qed.

Lemma maintains_liftResult {A} (r : result A) : maintains I (json.liftResult r).
Proof. destruct r; [apply maintains_ret | apply maintains_fail]. Qed.

Lemma maintains_Marshal v : maintains I (json.Marshal v).
Proof.
  destruct v; simpl;
    try apply maintains_ret; try apply maintains_fail;
    (apply maintains_bind; [apply maintains_deref | intros; apply maintains_ret]).
Qed.

Lemma maintains_Sprint v : maintains I (fmt.Sprint v).
Proof.
  destruct v; simpl; try apply maintains_ret.
  apply maintains_bind; [apply maintains_deref | intros; apply maintains_ret].
Qed.

Lemma maintains_writeArg v : maintains I (redis.writeArg v).
Proof.
  destruct v; try apply maintains_ret; apply maintains_Sprint.
Qed.

Lemma maintains_writeArgs args : maintains I (redis.writeArgs args).
Proof.
  induction args as [| a args IH]; simpl.
  - apply maintains_ret.
  - apply maintains_bind; [apply maintains_writeArg |].
    intros s. apply maintains_bind; [exact IH |].
    intros ss. apply maintains_ret.
Qed.

Lemma maintains_AddFlat args v : maintains I (redis.AddFlat args v).
Proof.
  destruct v as [s | b | n | [l |] | s | a]; simpl; try apply maintains_ret.
  apply maintains_bind; [apply maintains_load | intros; apply maintains_ret].
Qed.

Lemma maintains_StringMap r : maintains I (redis.StringMap r).
Proof.
  destruct r; simpl; try apply maintains_fail.
  destruct (redis.pairs l); [apply maintains_ret | apply maintains_fail].
Qed.

Lemma maintains_assertBytes r : maintains I (assertBytes r).
Proof. destruct r; simpl; try apply maintains_fail; apply maintains_ret. Qed.

(** What is left to show for a given invariant are the commands that
    reach the server. *)
Lemma maintains_Do name args :
  (forall bulk, maintains I (redis.roundTrip (name :: bulk))) ->
  maintains I (redis.Do name args).
Proof.
  intros H. unfold redis.Do.
  apply maintains_bind; [apply maintains_writeArgs | intros; apply H].
Qed.

(** Invariants that speak of the connection only are maintained by the
    steps that touch the heap or standard output. *)
Context `{!ConnOnly I}.

Lemma maintains_alloc d : maintains I (alloc d).
Proof. intros w. apply conn_only. reflexivity. Qed.

Lemma maintains_store l d : maintains I (store l d).
Proof. intros w. apply conn_only. reflexivity. Qed.

Lemma maintains_Println line : maintains I (Println line).
Proof. intros w. apply conn_only. reflexivity. Qed.

Lemma maintains_decodeInfo v p : maintains I (json.decodeInfo v p).
Proof.
  destruct v; simpl; try apply maintains_fail; try apply maintains_ret.
  apply maintains_bind.
  - destruct p; [apply maintains_ret | apply maintains_alloc].
  - intros l. apply maintains_bind; [apply maintains_load |].
    intros d. apply maintains_bind; [apply maintains_liftResult |].
    intros d'. apply maintains_bind; [apply maintains_store |].
    intros _. apply maintains_ret.
Qed.

Lemma maintains_decodeRank v n : maintains I (json.decodeRank v n).
Proof.
  destruct v; simpl; try apply maintains_fail; try apply maintains_ret.
  destruct (strconv.ParseInt lit); [apply maintains_ret | apply maintains_fail].
Qed.

Lemma maintains_decodeStudent m s : maintains I (json.decodeStudent m s).
Proof.
  revert s. induction m as [| [k v] m IH]; intros s; simpl.
  - apply maintains_ret.
  - destruct (json.findField _ k) as [f |]; [| apply IH].
    destruct (String.eqb f "info").
    + apply maintains_bind; [apply maintains_decodeInfo |]. intros p. apply IH.
    + apply maintains_bind; [apply maintains_decodeRank |]. intros n. apply IH.
Qed.

Lemma maintains_Unmarshal data out : maintains I (json.Unmarshal data out).
Proof.
  unfold json.Unmarshal.
  destruct (jsontext.parseJSON data) as [[] |];
    try apply maintains_fail; try apply maintains_ret.
  apply maintains_decodeStudent.
Qed.

End Maintained.

(** ** The heap is read, never written, by the write operations *)

#[local] Instance sameHeap_preorder : PreOrder sameHeap.
Proof.
  split.
  - intros w. reflexivity.
  - intros w1 w2 w3. unfold sameHeap. congruence.
Qed.

Lemma sameHeap_roundTrip cmd : maintains sameHeap (redis.roundTrip cmd).
Proof.
  intros w. unfold redis.roundTrip, sameHeap.
  destruct (closed (conn w)); [reflexivity |].
  destruct (redis_server.exec _ _) as [db' r]. destruct r; reflexivity.
Qed.

Lemma sameHeap_Do name args : maintains sameHeap (redis.Do name args).
Proof. apply maintains_Do; [exact _ |]. intros. apply sameHeap_roundTrip. Qed.

Lemma sameHeap_addStructHash key value :
  maintains sameHeap (addStructHash key value).
Proof.
  unfold addStructHash.
  apply maintains_bind; [exact _ | apply maintains_AddFlat; exact _ |].
  intros args. apply maintains_bind; [exact _ | apply sameHeap_Do |].
  intros _. apply maintains_ret; exact _.
Qed.

Lemma sameHeap_JSONSet key path obj NX XX :
  maintains sameHeap (rejson.JSONSet key path obj NX XX).
Proof.
  unfold rejson.JSONSet.
  apply maintains_bind; [exact _ | apply maintains_Marshal; exact _ |].
  intros b. apply sameHeap_Do.
Qed.

Lemma sameHeap_addStructReJSON key value :
  maintains sameHeap (addStructReJSON key value).
Proof.
  unfold addStructReJSON.
  apply maintains_bind; [exact _ | apply sameHeap_JSONSet |].
  intros _. apply maintains_ret; exact _.
Qed.

Lemma sameHeap_addStructHashWithJSON key value :
  maintains sameHeap (addStructHashWithJSON key value).
Proof.
  unfold addStructHashWithJSON.
  apply maintains_bind; [exact _ | apply maintains_Marshal; exact _ |].
  intros b. apply maintains_bind; [exact _ | apply sameHeap_Do |].
  intros _. apply maintains_ret; exact _.
Qed.

Lemma sameHeap_deepValue w w' r : sameHeap w w' -> deepValue w' r = deepValue w r.
Proof. unfold sameHeap, deepValue. intros ->. reflexivity. Qed.

(** C9. None of the three write operations mutates the record passed to
    it or the Detail it points to: whatever the key, the record and the
    world, and whether the call succeeds or fails, the Go heap after the
    call is the heap before it, so the record the caller holds has the
    same deep value. *)
Theorem write_operations_do_not_mutate_record :
  leavesRecord addStructHash /\
  leavesRecord addStructReJSON /\
  leavesRecord addStructHashWithJSON.
Proof.
  unfold leavesRecord.
  repeat split; try apply sameHeap_deepValue.
  - apply sameHeap_addStructHash.
  - apply sameHeap_addStructHash.
  - apply sameHeap_addStructReJSON.
  - apply sameHeap_addStructReJSON.
  - apply sameHeap_addStructHashWithJSON.
  - apply sameHeap_addStructHashWithJSON.
Qed.

(** ** Encoding reads the world and leaves it as it is *)

#[local] Instance sameWorld_preorder : PreOrder sameWorld.
Proof.
  split.
  - intros w. reflexivity.
  - intros w1 w2 w3. unfold sameWorld. congruence.
Qed.

Lemma Marshal_world v w : fst (json.Marshal v w) = w.
Proof. apply (maintains_Marshal sameWorld v w). Qed.

Lemma writeArgs_world args w : fst (redis.writeArgs args w) = w.
Proof. apply (maintains_writeArgs sameWorld args w). Qed.

(** C4. When [json.Marshal] fails on the value, [addStructHashWithJSON]
    returns that error and the world is exactly what it was: the
    database of the server is untouched and no command was sent. *)
Theorem addStructHashWithJSON_encoding_error
    (key : string) (value : Value) (w w' : World) (e : error) :
  json.Marshal value w = (w', Err e) ->
  addStructHashWithJSON key value w = (w, Err e) /\
  server (conn (fst (addStructHashWithJSON key value w))) = server (conn w) /\
  newCommands w (fst (addStructHashWithJSON key value w)) = [].
Proof.
  intros H.
  assert (Hw : w' = w) by (pose proof (Marshal_world value w) as E;
                           rewrite H in E; exact E).
  subst w'.
  assert (R : addStructHashWithJSON key value w = (w, Err e)).
  { unfold addStructHashWithJSON. now apply bind_Err. }
  rewrite R. simpl. repeat split.
  unfold newCommands. apply drop_all.
Qed.

Lemma addStructHashWithJSON_encoding_error_witness :
  json.Marshal (VChan 1%positive) emptyWorld = (emptyWorld, Err UnsupportedTypeError) /\
  addStructHashWithJSON "JohnDoeHashJSON" (VChan 1%positive) emptyWorld
    = (emptyWorld, Err UnsupportedTypeError).
Proof.
  split; [reflexivity |].
  apply (addStructHashWithJSON_encoding_error
           "JohnDoeHashJSON" (VChan 1%positive) emptyWorld emptyWorld UnsupportedTypeError).
  reflexivity.
Defined.

(** ** The commands on the wire *)

#[local] Instance onlyUnconditional_preorder : PreOrder onlyUnconditional.
Proof.
  split.
  - intros w. exists []. split; [now rewrite app_nil_r | constructor].
  - intros w1 w2 w3 [c1 [E1 F1]] [c2 [E2 F2]].
    exists (c1 ++ c2). split.
    + rewrite E2, E1. now rewrite app_assoc.
    + apply Forall_app. split; assumption.
Qed.

#[local] Instance onlyUnconditional_conn : ConnOnly onlyUnconditional.
Proof.
  intros w w' E. exists []. rewrite E. split; [now rewrite app_nil_r | constructor].
Qed.

Lemma roundTrip_sent cmd w :
  sent (conn (fst (redis.roundTrip cmd w))) =
  sent (conn w) ++ (if closed (conn w) then [] else [cmd]).
Proof.
  unfold redis.roundTrip.
  destruct (closed (conn w)); simpl; [now rewrite app_nil_r |].
  destruct (redis_server.exec _ _) as [db' r]. destruct r; reflexivity.
Qed.

Lemma roundTrip_unconditional cmd :
  unconditional cmd -> maintains onlyUnconditional (redis.roundTrip cmd).
Proof.
  intros U w. exists (if closed (conn w) then [] else [cmd]).
  split; [apply roundTrip_sent |].
  destruct (closed (conn w)); repeat constructor. exact U.
Qed.

Lemma unconditional_other name bulk :
  String.eqb name "JSON.SET" = false -> unconditional (name :: bulk).
Proof.
  intros H. unfold unconditional, jsonSetFlags.
  destruct bulk as [| a [| b [| c l]]]; try reflexivity. now rewrite H.
Qed.

Lemma Do_other_unconditional name args :
  String.eqb name "JSON.SET" = false ->
  maintains onlyUnconditional (redis.Do name args).
Proof.
  intros H. apply maintains_Do; [exact _ |].
  intros bulk. apply roundTrip_unconditional, unconditional_other, H.
Qed.

Lemma JSONSet_unconditional key path obj :
  maintains onlyUnconditional (rejson.JSONSet key path obj false false).
Proof.
  unfold rejson.JSONSet.
  apply maintains_bind; [exact _ | apply maintains_Marshal; exact _ |].
  intros b w. unfold redis.Do. simpl app. unfold redis.writeArgs, redis.writeArg.
  unfold bind at 1. simpl.
  apply roundTrip_unconditional. reflexivity.
Qed.

Lemma addStructHash_unconditional key value :
  maintains onlyUnconditional (addStructHash key value).
Proof.
  unfold addStructHash.
  apply maintains_bind; [exact _ | apply maintains_AddFlat; exact _ |].
  intros args. apply maintains_bind; [exact _ | now apply Do_other_unconditional |].
  intros _. apply maintains_ret; exact _.
Qed.

Lemma addStructReJSON_unconditional key value :
  maintains onlyUnconditional (addStructReJSON key value).
Proof.
  unfold addStructReJSON.
  apply maintains_bind; [exact _ | apply JSONSet_unconditional |].
  intros _. apply maintains_ret; exact _.
Qed.

Lemma addStructHashWithJSON_unconditional key value :
  maintains onlyUnconditional (addStructHashWithJSON key value).
Proof.
  unfold addStructHashWithJSON.
  apply maintains_bind; [exact _ | apply maintains_Marshal; exact _ |].
  intros b. apply maintains_bind; [exact _ | now apply Do_other_unconditional |].
  intros _. apply maintains_ret; exact _.
Qed.

Lemma getStructHash_unconditional key :
  maintains onlyUnconditional (getStructHash key).
Proof. now apply Do_other_unconditional. Qed.

Lemma getStructReJSON_unconditional key :
  maintains onlyUnconditional (getStructReJSON key).
Proof. now apply Do_other_unconditional. Qed.

Lemma getStructHashWithJSON_unconditional key :
  maintains onlyUnconditional (getStructHashWithJSON key).
Proof.
  unfold getStructHashWithJSON.
  apply maintains_bind; [exact _ | now apply Do_other_unconditional |].
  intros ?. apply maintains_ret; exact _.
Qed.

Ltac wire_step :=
  lazymatch goal with
  | |- maintains _ (bind _ _) =>
    apply maintains_bind; [exact _ | | intros ?; cbv zeta]
  | |- maintains _ (ret _) => apply maintains_ret; exact _
  | |- maintains _ (alloc _) => apply maintains_alloc; exact _
  | |- maintains _ (deref _) => apply maintains_deref; exact _
  | |- maintains _ (Println _) => apply maintains_Println; exact _
  | |- maintains _ (assertBytes _) => apply maintains_assertBytes; exact _
  | |- maintains _ (redis.StringMap _) => apply maintains_StringMap; exact _
  | |- maintains _ (json.Unmarshal _ _) => apply maintains_Unmarshal; exact _
  | |- maintains _ (addStructHash _ _) => apply addStructHash_unconditional
  | |- maintains _ (addStructReJSON _ _) => apply addStructReJSON_unconditional
  | |- maintains _ (addStructHashWithJSON _ _) =>
    apply addStructHashWithJSON_unconditional
  | |- maintains _ (getStructHash _) => apply getStructHash_unconditional
  | |- maintains _ (getStructReJSON _) => apply getStructReJSON_unconditional
  | |- maintains _ (getStructHashWithJSON _) =>
    apply getStructHashWithJSON_unconditional
  end.

Lemma main_unconditional : maintains onlyUnconditional main.
Proof. unfold main. repeat wire_step. Qed.

Lemma onlyUnconditional_new w w' :
  onlyUnconditional w w' -> Forall unconditional (newCommands w w').
Proof.
  intros [cmds [E F]]. unfold newCommands. rewrite E.
  now rewrite drop_app_length.
Qed.

(** C7. [addStructReJSON] always performs the unconditional write.
    Whatever the key, the value and the world, the call sends either
    nothing (the value could not be encoded, or the connection is
    closed) or exactly the command [JSON.SET key . json], with neither
    [NX] nor [XX] after the document; and in a run of [main] from any
    world no command carries a condition flag. *)
Theorem addStructReJSON_always_unconditional :
  (forall (key : string) (value : Value) (w : World),
     let w' := fst (addStructReJSON key value w) in
     newCommands w w' = [] \/
     exists b, newCommands w w' = [["JSON.SET"; key; "."; b]]) /\
  (forall w : World, Forall unconditional (newCommands w (fst (main w)))).
Proof.
  split.
  - intros key value w. simpl.
    unfold addStructReJSON, rejson.JSONSet, newCommands, bind.
    pose proof (Marshal_world value w) as W.
    destruct (json.Marshal value w) as [w1 [b | e]]; simpl in W; subst w1.
    + change (redis.Do "JSON.SET" ([VString key; VString "."; VBytes b] ++ []) w)
        with (redis.roundTrip ["JSON.SET"; key; "."; b] w).
      pose proof (roundTrip_sent ["JSON.SET"; key; "."; b] w) as S.
      destruct (redis.roundTrip _ w) as [w2 [r | e]]; simpl in S |- *;
        rewrite S; (destruct (closed (conn w));
          [ left; rewrite app_nil_r; apply drop_all
          | right; exists b; now rewrite drop_app_length ]).
    + left. apply drop_all.
  - intros w. apply onlyUnconditional_new, main_unconditional.
Qed.

(** ** [getStructHash] *)

(** C2. [getStructHash] does not read the hash named by its argument:
    for every key it sends [HGETALL JohnDoeHash].  On a server that
    holds a hash under ["Other"] and nothing under ["JohnDoeHash"], the
    call for ["Other"] sends [HGETALL JohnDoeHash] and answers with the
    empty list, while [HGETALL Other] would answer with the field of
    that hash. *)
Theorem getStructHash_ignores_key :
  (forall (key : string) (w : World),
     getStructHash key w = redis.Do "HGETALL" [VString "JohnDoeHash"] w) /\
  newCommands worldWithOther (fst (getStructHash "Other" worldWithOther))
    = [["HGETALL"; "JohnDoeHash"]] /\
  snd (getStructHash "Other" worldWithOther) = Ok (RArray []) /\
  snd (redis.Do "HGETALL" [VString "Other"] worldWithOther)
    = Ok (RArray [RBulk "Info"; RBulk "x"]).
Proof.
  split; [reflexivity |].
  repeat split; vm_compute; reflexivity.
Qed.

(** C8, as stated, fails: on a server with no key at all, neither the
    key asked for nor the key the call really reads exists, and the call
    returns the empty list and no error. *)
Lemma getStructHash_missing_key_is_no_error :
  server (conn emptyWorld) !! "NoSuchKey" = None /\
  server (conn emptyWorld) !! "JohnDoeHash" = None /\
  snd (getStructHash "NoSuchKey" emptyWorld) = Ok (RArray []) /\
  isErr (snd (getStructHash "NoSuchKey" emptyWorld)) = false.
Proof. repeat split; vm_compute; reflexivity. Qed.

(** C8, amended. [getStructHash] returns an error exactly when the store
    call fails.  On a closed connection it returns the connection error
    and sends nothing.  Otherwise it sends one [HGETALL] for some key,
    and its result is the server's answer for that key: the fields of
    the hash; the empty list, and no error, when the key does not exist;
    the wrong-type error when the key holds something else. *)
Theorem getStructHash_error_cases (key : string) (w : World) :
  let w' := fst (getStructHash key w) in
  let r := snd (getStructHash key w) in
  if closed (conn w)
  then r = Err ConnError /\ w' = w
  else exists target,
      newCommands w w' = [["HGETALL"; target]] /\
      r = hgetallAnswer (server (conn w) !! target) /\
      server (conn w') = server (conn w).
Proof.
  simpl. unfold getStructHash.
  change (redis.Do "HGETALL" [VString "JohnDoeHash"] w)
    with (redis.roundTrip ["HGETALL"; "JohnDoeHash"] w).
  unfold redis.roundTrip.
  destruct (closed (conn w)) eqn:C; [split; reflexivity |].
  exists "JohnDoeHash".
  change (redis_server.exec (server (conn w)) ["HGETALL"; "JohnDoeHash"])
    with (match server (conn w) !! "JohnDoeHash" with
          | None => (server (conn w), RArray [])
          | Some (RHash h) => (server (conn w), RArray (redis_server.hashFlat h))
          | Some _ => (server (conn w), RError redis_server.wrongType)
          end).
  unfold newCommands.
  destruct (server (conn w) !! "JohnDoeHash") as [[h | doc | s] |]; simpl;
    rewrite drop_app_length; repeat split.
Qed.

(** C5. The mapping read back is not that of the record just written
    unless the key is ["JohnDoeHash"] (the defect of C2).  After
    [addStructHash "Other" john] on an empty server, the hash under
    ["Other"] holds the Detail as the one string [&{John Doe CSE}], and
    the mapping read back for ["Other"] has no entry for ["Info"]. *)
Theorem flattened_read_back_under_other_key :
  let w1 := fst (addStructHash "Other" (VStudent john) worldWithJohn) in
  snd (addStructHash "Other" (VStudent john) worldWithJohn) = Ok tt /\
  server (conn w1) !! "Other"
    = Some (RHash [("Info", "&{John Doe CSE}"); ("Rank", "1")]) /\
  exists m, snd (readFlattened "Other" w1) = Ok m /\ m !! "Info" = None.
Proof.
  simpl. split; [vm_compute; reflexivity |].
  split; [vm_compute; reflexivity |].
  eexists. split; [vm_compute; reflexivity |]. vm_compute. reflexivity.
Qed.

(** ** The parser reads back what the printer writes *)

Lemma printElems_cons q x y l :
  printElems q (x :: y :: l)
  = jsontext.printJSON q x +:+ "," +:+ printElems q (y :: l).
Proof. reflexivity. Qed.

Lemma printMembers_cons q k v kv m :
  printMembers q ((k, v) :: kv :: m)
  = q k +:+ ":" +:+ jsontext.printJSON q v +:+ "," +:+ printMembers q (kv :: m).
Proof. destruct kv. reflexivity. Qed.

Lemma printJSON_array q l :
  jsontext.printJSON q (JArray l) = "[" +:+ printElems q l.
Proof.
  cbn [jsontext.printJSON]. f_equal.
  induction l as [| x l IH]; [reflexivity |].
  destruct l as [| y l]; [reflexivity |].
  rewrite printElems_cons, <- IH. reflexivity.
Qed.

Lemma printJSON_object q m :
  jsontext.printJSON q (JObject m) = "{" +:+ printMembers q m.
Proof.
  cbn [jsontext.printJSON]. f_equal.
  induction m as [| [k v] m IH]; [reflexivity |].
  destruct m as [| kv m]; [reflexivity |].
  rewrite printMembers_cons, <- IH. destruct kv. reflexivity.
Qed.

Lemma jsize_array l : jsize (JArray l) = S (sizeElems l).
Proof. reflexivity. Qed.

Lemma jsize_object m : jsize (JObject m) = S (sizeMembers m).
Proof. reflexivity. Qed.

Lemma jsize_pos j : (1 <= jsize j)%nat.
Proof. destruct j; cbn [jsize]; lia. Qed.

(** The byte a value's text starts with selects the branch of the
    parser. *)
Lemma valueStart_cases c :
  valueStart c = true ->
  jsontext.isSpace c = false /\
  (c =? "]")%char = false /\ (c =? "}")%char = false /\
  ((c =? "-")%char || strconv.isDigit c = true ->
   (c =? "{")%char = false /\ (c =? "[")%char = false /\
   (c =? jsontext.quoteChar)%char = false /\ (c =? "t")%char = false /\
   (c =? "f")%char = false /\ (c =? "n")%char = false).
Proof.
  destruct c as [b0 b1 b2 b3 b4 b5 b6 b7].
  destruct b0, b1, b2, b3, b4, b5, b6, b7; intros H;
    try discriminate H; repeat split; try reflexivity;
    match goal with
    | D : _ || _ = true |- _ => vm_compute in D; discriminate D
    end.
Qed.

Lemma scanNumber_head lit rest :
  jsontext.scanNumber lit = Some (lit, rest) ->
  exists c t, lit = String c t /\ (c =? "-")%char || strconv.isDigit c = true.
Proof.
  destruct lit as [| c t]; [discriminate |]. intros H.
  exists c, t. split; [reflexivity |].
  unfold jsontext.scanNumber in H.
  destruct (c =? "-")%char; [reflexivity |]. cbn [orb].
  destruct (Ascii.eqb_spec c "0") as [-> | N]; [reflexivity |].
  destruct (strconv.isDigit c); [reflexivity | discriminate].
Qed.

Lemma numberLit_head lit :
  numberLit lit ->
  exists c t, lit = String c t /\ (c =? "-")%char || strconv.isDigit c = true.
Proof.
  intros H. specialize (H EmptyString eq_refl). rewrite append_nil_r in H.
  now apply scanNumber_head in H.
Qed.

Lemma QuoteOK_head q s :
  QuoteOK q -> utf8.ValidString s = true ->
  exists t, q s = String jsontext.quoteChar t.
Proof.
  intros Q V. destruct (Q s EmptyString V) as (t & E & _).
  rewrite append_nil_r in E. eauto.
Qed.

Lemma printJSON_head q j :
  QuoteOK q -> wfJSON j ->
  exists c t, jsontext.printJSON q j = String c t /\ valueStart c = true.
Proof.
  intros Q W. destruct W as [| b | lit L | s V | l F | m F].
  - eexists _, _. split; reflexivity.
  - destruct b; eexists _, _; split; reflexivity.
  - destruct (numberLit_head lit L) as (c & t & -> & H).
    exists c, t. split; [reflexivity |]. unfold valueStart.
    apply orb_prop in H as [H | H]; rewrite H; now rewrite ?orb_true_r.
  - destruct (QuoteOK_head q s Q V) as (t & E).
    exists jsontext.quoteChar, t. split; [exact E | reflexivity].
  - rewrite printJSON_array. eexists _, _. split; reflexivity.
  - rewrite printJSON_object. eexists _, _. split; reflexivity.
Qed.

Lemma skipSpace_start c t :
  jsontext.isSpace c = false -> jsontext.skipSpace (String c t) = String c t.
Proof. intros H. cbn [jsontext.skipSpace]. now rewrite H. Qed.

Lemma skipSpace_delimiter c t :
  c = ","%char \/ c = "}"%char \/ c = "]"%char \/ c = ":"%char ->
  jsontext.skipSpace (String c t) = String c t.
Proof. intros [-> | [-> | [-> | ->]]]; reflexivity. Qed.

Lemma valueStep_string pm pe t :
  jsontext.valueStep pm pe (String jsontext.quoteChar t)
  = match jsontext.unquoteBody 0 t with
    | Some (d, rest) => Some (JString d, rest)
    | None => None
    end.
Proof. reflexivity. Qed.

Lemma valueStep_number pm pe c t :
  (c =? "-")%char || strconv.isDigit c = true ->
  jsontext.valueStep pm pe (String c t)
  = match jsontext.scanNumber (String c t) with
    | Some (lit, rest) => Some (JNumber lit, rest)
    | None => None
    end.
Proof.
  intros H.
  assert (V : valueStart c = true).
  { unfold valueStart. apply orb_prop in H as [H | H]; rewrite H;
      now rewrite ?orb_true_r. }
  destruct (valueStart_cases c V) as (Sp & _ & _ & D).
  destruct (D H) as (D1 & D2 & D3 & D4 & D5 & D6).
  unfold jsontext.valueStep. rewrite skipSpace_start by exact Sp.
  now rewrite D1, D2, D3, D4, D5, D6.
Qed.

Lemma valueStep_array pm pe c t :
  valueStart c = true ->
  jsontext.valueStep pm pe (String "[" (String c t)) = pe (String c t) [].
Proof.
  intros V. destruct (valueStart_cases c V) as (Sp & D & _).
  unfold jsontext.valueStep.
  change (jsontext.skipSpace (String "[" (String c t)))
    with (String "[" (String c t)).
  cbv beta iota.
  change ("[" =? "{")%char with false. change ("[" =? "[")%char with true.
  cbv beta iota. rewrite skipSpace_start by exact Sp. now rewrite D.
Qed.

Lemma valueStep_object pm pe c t :
  valueStart c = true ->
  jsontext.valueStep pm pe (String "{" (String c t)) = pm (String c t) [].
Proof.
  intros V. destruct (valueStart_cases c V) as (Sp & _ & D & _).
  unfold jsontext.valueStep.
  change (jsontext.skipSpace (String "{" (String c t)))
    with (String "{" (String c t)).
  cbv beta iota.
  change ("{" =? "{")%char with true.
  cbv beta iota. rewrite skipSpace_start by exact Sp. now rewrite D.
Qed.

Lemma printElems_head q x l rest :
  QuoteOK q -> wfJSON x ->
  exists c t, printElems q (x :: l) +:+ rest = String c t /\ valueStart c = true.
Proof.
  intros Q W. destruct (printJSON_head q x Q W) as (c & t & E & V).
  destruct l as [| y l]; [cbn [printElems] | rewrite printElems_cons];
    rewrite E; cbn [String.append]; eauto.
Qed.

Lemma printMembers_head q k v m rest :
  QuoteOK q -> utf8.ValidString k = true ->
  exists t, printMembers q ((k, v) :: m) +:+ rest = String jsontext.quoteChar t.
Proof.
  intros Q V. destruct (QuoteOK_head q k Q V) as (t & E).
  destruct m as [| kv m]; [cbn [printMembers] | rewrite printMembers_cons];
    rewrite E; cbn [String.append]; eauto.
Qed.

Lemma delimited_comma t : delimited (String "," t) = true.
Proof. reflexivity. Qed.

Lemma delimited_bracket t : delimited (String "]" t) = true.
Proof. reflexivity. Qed.

Lemma delimited_brace t : delimited (String "}" t) = true.
Proof. reflexivity. Qed.

Section ParsePrint.

Variable q : string -> string.
Hypothesis Q : QuoteOK q.

Lemma value_step n :
  elementsRead q n -> membersRead q n -> valueRead q (S n).
Proof.
  unfold valueRead, elementsRead, membersRead.
  intros PE PM j rest Sz W D.
  change (jsontext.parseValue (S n) ?s)
    with (jsontext.valueStep (jsontext.parseMembers n)
            (jsontext.parseElements n) s).
  destruct W as [| b | lit L | s V | l F | m F].
  - reflexivity.
  - destruct b; reflexivity.
  - destruct (numberLit_head lit L) as (c & t & -> & H).
    cbn [jsontext.printJSON String.append].
    rewrite valueStep_number by exact H.
    change (String c (t +:+ rest)) with (String c t +:+ rest).
    now rewrite (L rest D).
  - cbn [jsontext.printJSON].
    destruct (Q s rest V) as (t & E & U).
    now rewrite E, valueStep_string, U.
  - rewrite printJSON_array, jsize_array in *.
    destruct l as [| x l]; [reflexivity |].
    destruct (printElems_head q x l rest Q (Forall_inv F)) as (c & t & E & V).
    cbn [String.append]. rewrite E, valueStep_array by exact V.
    rewrite <- E. apply (PE (x :: l) [] rest); [discriminate | lia | exact F].
  - rewrite printJSON_object, jsize_object in *.
    destruct m as [| [k v] m]; [reflexivity |].
    destruct (printMembers_head q k v m rest Q (proj1 (Forall_inv F)))
      as (t & E).
    cbn [String.append]. rewrite E, valueStep_object by reflexivity.
    rewrite <- E. apply (PM ((k, v) :: m) [] rest); [discriminate | lia | exact F].
Qed.

Lemma elements_step n :
  valueRead q n -> elementsRead q n -> elementsRead q (S n).
Proof.
  unfold valueRead, elementsRead, membersRead.
  intros PV PE l acc rest NE Sz F.
  change (jsontext.parseElements (S n) ?s ?a)
    with (jsontext.elementsStep (jsontext.parseValue n)
            (jsontext.parseElements n) s a).
  destruct l as [| x l]; [congruence |]. clear NE.
  cbn [sizeElems] in Sz. inversion F as [| ? ? Wx Fl]; subst.
  unfold jsontext.elementsStep.
  destruct l as [| y l].
  - cbn [printElems]. rewrite append_assoc.
    rewrite PV; [| lia | exact Wx | reflexivity].
    reflexivity.
  - rewrite printElems_cons, !append_assoc.
    rewrite PV; [| lia | exact Wx | reflexivity].
    cbn [String.append]. rewrite skipSpace_delimiter by auto.
    change ("," =? ",")%char with true. cbv beta iota.
    rewrite PE; [| discriminate | lia | exact Fl].
    now rewrite <- app_assoc.
Qed.

Lemma members_step n :
  valueRead q n -> membersRead q n -> membersRead q (S n).
Proof.
  unfold valueRead, elementsRead, membersRead.
  intros PV PM m acc rest NE Sz F.
  change (jsontext.parseMembers (S n) ?s ?a)
    with (jsontext.membersStep (jsontext.parseValue n)
            (jsontext.parseMembers n) s a).
  destruct m as [| [k v] m]; [congruence |]. clear NE.
  cbn [sizeMembers] in Sz. inversion F as [| ? ? [Vk Wv] Fm]; subst.
  cbn [fst snd] in Vk, Wv.
  unfold jsontext.membersStep.
  destruct m as [| kv m].
  - cbn [printMembers]. rewrite !append_assoc.
    destruct (Q k (":" +:+ jsontext.printJSON q v +:+ "}" +:+ rest) Vk)
      as (t & E & U).
    rewrite E, skipSpace_start by reflexivity.
    change (jsontext.quoteChar =? jsontext.quoteChar)%char with true.
    cbv beta iota. rewrite U.
    cbn [String.append]. rewrite skipSpace_delimiter by auto.
    change (":" =? ":")%char with true. cbv beta iota.
    rewrite PV; [| lia | exact Wv | reflexivity].
    reflexivity.
  - rewrite printMembers_cons, !append_assoc.
    destruct (Q k (":" +:+ jsontext.printJSON q v +:+ "," +:+
                   printMembers q (kv :: m) +:+ rest) Vk)
      as (t & E & U).
    rewrite E, skipSpace_start by reflexivity.
    change (jsontext.quoteChar =? jsontext.quoteChar)%char with true.
    cbv beta iota. rewrite U.
    cbn [String.append]. rewrite skipSpace_delimiter by auto.
    change (":" =? ":")%char with true. cbv beta iota.
    rewrite PV; [| lia | exact Wv | reflexivity].
    cbn [String.append]. rewrite skipSpace_delimiter by auto.
    change ("," =? ",")%char with true. cbv beta iota.
    rewrite PM; [| discriminate | lia | exact Fm].
    now rewrite <- app_assoc.
Qed.

Lemma parse_print_fuel n :
  valueRead q n /\ elementsRead q n /\ membersRead q n.
Proof.
  induction n as [| n (PV & PE & PM)].
  - repeat split.
    + intros j rest Sz. pose proof (jsize_pos j). lia.
    + intros [| x l] acc rest NE Sz; [congruence | simpl in Sz; lia].
    + intros [| [k v] m] acc rest NE Sz; [congruence | simpl in Sz; lia].
  - repeat split.
    + now apply value_step.
    + now apply elements_step.
    + now apply members_step.
Qed.

Lemma length_print_fuel n :
  (forall j, (jsize j <= n)%nat -> wfJSON j ->
     (jsize j <= String.length (jsontext.printJSON q j))%nat) /\
  (forall l, (sizeElems l <= n)%nat -> Forall wfJSON l ->
     (sizeElems l <= String.length (printElems q l))%nat) /\
  (forall m, (sizeMembers m <= n)%nat ->
     Forall (fun kv => utf8.ValidString (fst kv) = true /\ wfJSON (snd kv)) m ->
     (sizeMembers m <= String.length (printMembers q m))%nat).
Proof.
  induction n as [| n (A & B & C)].
  - repeat split.
    + intros j Sz. pose proof (jsize_pos j). lia.
    + intros [| x l] Sz _; simpl in *; lia.
    + intros [| [k v] m] Sz _; simpl in *; lia.
  - repeat split.
    + intros j Sz W. destruct W as [| b | lit L | s V | l F | m F].
      * simpl. lia.
      * destruct b; simpl; lia.
      * destruct (numberLit_head lit L) as (c & t & -> & _). simpl. lia.
      * destruct (QuoteOK_head q s Q V) as (t & E).
        cbn [jsontext.printJSON]. rewrite E. simpl. lia.
      * rewrite printJSON_array, jsize_array in *.
        cbn [String.append String.length].
        specialize (B l ltac:(lia) F). lia.
      * rewrite printJSON_object, jsize_object in *.
        cbn [String.append String.length].
        specialize (C m ltac:(lia) F). lia.
    + intros [| x l] Sz F; [simpl; lia |].
      inversion F as [| ? ? Wx Fl]; subst. cbn [sizeElems] in *.
      specialize (A x ltac:(lia) Wx). specialize (B l ltac:(lia) Fl).
      destruct l as [| y l].
      * cbn [printElems]. rewrite length_append. simpl. lia.
      * rewrite printElems_cons, !length_append.
        change (String.length ",") with 1%nat. lia.
    + intros [| [k v] m] Sz F; [simpl; lia |].
      inversion F as [| ? ? [Vk Wv] Fm]; subst. cbn [sizeMembers] in *.
      cbn [snd] in Wv.
      specialize (A v ltac:(lia) Wv). specialize (C m ltac:(lia) Fm).
      destruct m as [| kv m].
      * cbn [printMembers]. rewrite !length_append. simpl. lia.
      * rewrite printMembers_cons, !length_append.
        change (String.length ",") with 1%nat.
        change (String.length ":") with 1%nat. lia.
Qed.

(** The parser reads back what the printer writes: for a printer whose
    string literals the decoder reads back and a well-formed value, the
    text of the value parses to the value. *)
Theorem parseJSON_printJSON j :
  wfJSON j -> jsontext.parseJSON (jsontext.printJSON q j) = Some j.
Proof.
  intros W. unfold jsontext.parseJSON.
  destruct (length_print_fuel (jsize j)) as (A & _).
  specialize (A j (Nat.le_refl _) W).
  destruct (parse_print_fuel (S (String.length (jsontext.printJSON q j))))
    as (PV & _).
  specialize (PV j EmptyString). rewrite append_nil_r in PV.
  rewrite PV; [reflexivity | lia | exact W | reflexivity].
Qed.

End ParsePrint.

(** ** The two string encoders *)

Lemma encodeString_QuoteOK e : QuoteOK (json.encodeString e).
Proof.
  intros s rest V. unfold json.encodeString.
  exists (json.encodeBody e 0 s +:+ String jsontext.quoteChar rest). split.
  - cbn [String.append]. now rewrite append_assoc.
  - now apply unquote_encodeBody.
Qed.

Lemma serializeString_QuoteOK : QuoteOK redis_server.serializeString.
Proof.
  intros s rest V. unfold redis_server.serializeString.
  exists (redis_server.serializeBody s +:+ String jsontext.quoteChar rest). split.
  - cbn [String.append]. now rewrite append_assoc.
  - now apply unquote_serializeBody.
Qed.

(** ** The text [json.Marshal] writes for a record *)

Ltac normalize_append :=
  repeat first [ rewrite append_assoc
               | rewrite append_nil_r
               | progress cbn [String.append] ].

Lemma encodeStudentDetails_print d :
  json.encodeStudentDetails d
  = jsontext.printJSON (json.encodeString true) (detailsJSON d).
Proof.
  unfold json.encodeStudentDetails, json.structEncoder, detailsJSON.
  cbn [json.encodeFields jsontext.printJSON String.append].
  normalize_append. reflexivity.
Qed.

Lemma encodeStudent_print o rank :
  json.encodeStudent o rank
  = jsontext.printJSON (json.encodeString true) (studentJSON o rank).
Proof.
  unfold json.encodeStudent, json.structEncoder, studentJSON.
  destruct o as [d |]; destruct (rank =? 0);
    cbn [json.encodeFields json.encodeDetailsPtr jsontext.printJSON
         String.append app];
    rewrite ?encodeStudentDetails_print;
    cbn [jsontext.printJSON detailsJSON String.append];
    normalize_append; reflexivity.
Qed.

Lemma numberLit_FormatInt i : isInt64 i -> numberLit (strconv.FormatInt i).
Proof. intros H rest D. now apply scanNumber_FormatInt. Qed.

Lemma detailsJSON_wf d : validDetails d -> wfJSON (detailsJSON d).
Proof.
  intros (V1 & V2 & V3). constructor.
  repeat constructor; cbn [fst snd]; try reflexivity; assumption.
Qed.

Lemma studentJSON_wf o rank :
  match o with Some d => validDetails d | None => True end ->
  isInt64 rank -> wfJSON (studentJSON o rank).
Proof.
  intros V I. unfold studentJSON. constructor.
  apply Forall_app. split.
  - destruct o as [d |]; [| constructor].
    constructor; [| constructor].
    split; [reflexivity | now apply detailsJSON_wf].
  - destruct (rank =? 0); [constructor |].
    constructor; [| constructor].
    split; [reflexivity |]. constructor. now apply numberLit_FormatInt.
Qed.

(** The text of a record parses to the JSON value of the record. *)
Lemma parse_encodeStudent o rank :
  match o with Some d => validDetails d | None => True end ->
  isInt64 rank ->
  jsontext.parseJSON (json.encodeStudent o rank) = Some (studentJSON o rank).
Proof.
  intros V I. rewrite encodeStudent_print.
  apply parseJSON_printJSON; [apply encodeString_QuoteOK |].
  now apply studentJSON_wf.
Qed.

(** So does the text the server writes for the stored document. *)
Lemma parse_serialize_student o rank :
  match o with Some d => validDetails d | None => True end ->
  isInt64 rank ->
  jsontext.parseJSON (redis_server.serialize (studentJSON o rank))
  = Some (studentJSON o rank).
Proof.
  intros V I. unfold redis_server.serialize.
  apply parseJSON_printJSON; [apply serializeString_QuoteOK |].
  now apply studentJSON_wf.
Qed.

(** ** Decoding the JSON value of a record *)

Lemma decodeDetails_detailsJSON d d0 :
  match detailsJSON d with
  | JObject m => json.decodeDetails m d0 = Ok d
  | _ => False
  end.
Proof. destruct d. reflexivity. Qed.

Lemma decodeRank_FormatInt rank n w :
  isInt64 rank ->
  json.decodeRank (JNumber (strconv.FormatInt rank)) n w = (w, Ok rank).
Proof.
  intros H. unfold json.decodeRank. now rewrite ParseInt_FormatInt.
Qed.

Lemma decodeInfo_detailsJSON d w :
  let l := fresh (dom (heap w)) in
  json.decodeInfo (detailsJSON d) None w
  = (mkWorld (<[l := d]> (<[l := mkStudentDetails "" "" ""]> (heap w)))
             (conn w) (stdout w),
     Ok (Some l)).
Proof.
  intros l. unfold json.decodeInfo, detailsJSON.
  unfold bind, alloc, load, store. cbn [heap conn stdout].
  fold l. rewrite lookup_insert_eq.
  pose proof (decodeDetails_detailsJSON d (mkStudentDetails "" "" "")) as E.
  unfold detailsJSON in E. rewrite E. reflexivity.
Qed.

(** Decoding the value of a record into a zero [Student] gives a record
    with the same deep value; the connection is not used. *)
Lemma decodeStudent_studentJSON o rank w :
  isInt64 rank ->
  exists w' out,
    match studentJSON o rank with
    | JObject m => json.decodeStudent m (mkStudent None 0) w = (w', Ok out)
    | _ => False
    end /\
    deepValue w' out = Some (o, rank) /\
    conn w' = conn w /\
    (o = None -> Info out = None).
Proof.
  intros I. unfold studentJSON.
  destruct o as [d |]; destruct (Z.eqb_spec rank 0) as [-> | NZ];
    cbn [app json.decodeStudent].
  - change (json.findField ["info"; "rank"] "info") with (Some "info").
    cbv beta iota. change (String.eqb "info" "info") with true. cbv beta iota.
    unfold bind at 1. cbn [Info Rank]. rewrite decodeInfo_detailsJSON.
    eexists _, _. split; [reflexivity |].
    unfold deepValue. cbn [Info Rank heap conn].
    rewrite lookup_insert_eq. repeat split. discriminate.
  - change (json.findField ["info"; "rank"] "info") with (Some "info").
    cbv beta iota. change (String.eqb "info" "info") with true. cbv beta iota.
    unfold bind at 1. cbn [Info Rank]. rewrite decodeInfo_detailsJSON.
    cbn [json.decodeStudent].
    change (json.findField ["info"; "rank"] "rank") with (Some "rank").
    cbv beta iota. change (String.eqb "rank" "info") with false. cbv beta iota.
    unfold bind at 1. rewrite decodeRank_FormatInt by exact I.
    eexists _, _. split; [reflexivity |].
    unfold deepValue. cbn [Info Rank heap conn].
    rewrite lookup_insert_eq. repeat split. discriminate.
  - eexists _, _. split; [reflexivity |]. repeat split.
  - change (json.findField ["info"; "rank"] "rank") with (Some "rank").
    cbv beta iota. change (String.eqb "rank" "info") with false. cbv beta iota.
    unfold bind at 1. rewrite decodeRank_FormatInt by exact I.
    eexists _, _. split; [reflexivity |]. repeat split.
Qed.

(** A text that parses to the value of a record decodes to that
    record. *)
Lemma Unmarshal_studentJSON data o rank w :
  jsontext.parseJSON data = Some (studentJSON o rank) ->
  isInt64 rank ->
  exists w' out,
    json.Unmarshal data (mkStudent None 0) w = (w', Ok out) /\
    deepValue w' out = Some (o, rank) /\
    conn w' = conn w /\
    (o = None -> Info out = None).
Proof.
  intros P I. unfold json.Unmarshal. rewrite P.
  destruct (decodeStudent_studentJSON o rank w I) as (w' & out & D & R).
  exists w', out. split; [| exact R].
  unfold studentJSON in *. exact D.
Qed.

(** ** The store: a write followed by the matching read *)

Lemma hashGet_hashSet h f v :
  redis_server.hashGet (fst (redis_server.hashSet h f v)) f = Some v.
Proof.
  induction h as [| [k x] h IH]; cbn [redis_server.hashSet].
  - cbn. now rewrite String.eqb_refl.
  - destruct (String.eqb k f) eqn:E.
    + cbn. now rewrite E.
    + destruct (redis_server.hashSet h f v) as [h'' created].
      cbn in *. now rewrite E.
Qed.

Lemma exec_HSET db key f v :
  redis_server.exec db ["HSET"; key; f; v]
  = redis_server.hashWrite db key [f; v] false.
Proof. reflexivity. Qed.

Lemma exec_HGET db key f :
  redis_server.exec db ["HGET"; key; f]
  = match db !! key with
    | None => (db, RNil)
    | Some (RHash h) =>
      (db, match redis_server.hashGet h f with
           | Some v => RBulk v
           | None => RNil
           end)
    | Some _ => (db, RError redis_server.wrongType)
    end.
Proof. reflexivity. Qed.

Lemma exec_JSON_SET db key path text :
  redis_server.exec db ["JSON.SET"; key; path; text]
  = redis_server.jsonSet db key path text [].
Proof. reflexivity. Qed.

Lemma exec_JSON_GET db key path :
  redis_server.exec db ["JSON.GET"; key; path]
  = redis_server.jsonGet db key path.
Proof. reflexivity. Qed.

(** After a successful [HSET key f v], [HGET key f] answers [v]. *)
Lemma HSET_then_HGET key f v w w1 r :
  redis.roundTrip ["HSET"; key; f; v] w = (w1, Ok r) ->
  exists w2,
    redis.roundTrip ["HGET"; key; f] w1 = (w2, Ok (RBulk v)) /\
    heap w2 = heap w.
Proof.
  unfold redis.roundTrip at 1. destruct (closed (conn w)); [discriminate |].
  rewrite exec_HSET. unfold redis_server.hashWrite.
  assert (Go : forall h,
    (let '(db', r0) :=
       match redis_server.hashSetAll h [f; v] with
       | Some (h', created) =>
         (<[key := RHash h']> (server (conn w)), RInt created)
       | None => (server (conn w), RError redis_server.wrongArgs)
       end in
     let w' := mkWorld (heap w)
                 (mkConn db' (sent (conn w) ++ [["HSET"; key; f; v]]) false)
                 (stdout w) in
     match r0 with
     | RError msg => (w', Err (RedisError msg))
     | _ => (w', Ok r0)
     end) = (w1, Ok r) ->
    exists w2,
      redis.roundTrip ["HGET"; key; f] w1 = (w2, Ok (RBulk v)) /\
      heap w2 = heap w).
  { intros h. cbn [redis_server.hashSetAll].
    pose proof (hashGet_hashSet h f v) as G.
    destruct (redis_server.hashSet h f v) as [h1 created]. cbn [fst] in G.
    intros E. injection E as <- _.
    unfold redis.roundTrip. cbn [conn closed server heap sent stdout].
    rewrite exec_HGET, lookup_insert_eq, G.
    eexists. split; reflexivity. }
  destruct (server (conn w) !! key) as [[h | doc | s] |];
    try discriminate; apply Go.
Qed.


Lemma Marshal_student r l d w :
  Info r = Some l -> heap w !! l = Some d ->
  json.Marshal (VStudent r) w = (w, Ok (json.encodeStudent (Some d) (Rank r))).
Proof.
  intros HI HL. unfold json.Marshal, bind, deref. rewrite HI.
  unfold bind, load. rewrite HL. reflexivity.
Qed.

Lemma Marshal_student_nil r w :
  Info r = None ->
  json.Marshal (VStudent r) w = (w, Ok (json.encodeStudent None (Rank r))).
Proof. intros HI. unfold json.Marshal, bind, deref. now rewrite HI. Qed.

Lemma deepValue_sameHeap w w' out : heap w' = heap w -> deepValue w' out = deepValue w out.
Proof. unfold deepValue. now intros ->. Qed.

(** ** Round trips through the store *)








(** C6. The JSON text of a record names the fields [Info] and [Rank] by
    the lower-case keys ["info"] and ["rank"] and keeps the field names
    of the Detail: for a record with a Detail of valid strings and a
    rank other than 0, the text [json.Marshal] writes parses to the
    object with exactly these keys.  And the record of [main], written
    with [addStructReJSON] under ["JohnDoeJSON"] and read back at the
    root path, comes back as a text that parses to the same JSON value as
    the document of the README. *)
Theorem record_json_keys (d : StudentDetails) (rank : Z) :
  validDetails d -> isInt64 rank -> rank <> 0 ->
  jsontext.parseJSON (json.encodeStudent (Some d) rank)
  = Some (JObject
            [ ("info", JObject [ ("FirstName", JString (FirstName d));
                                 ("LastName", JString (LastName d));
                                 ("Major", JString (Major d)) ]);
              ("rank", JNumber (strconv.FormatInt rank)) ]) /\
  (let write := addStructReJSON "JohnDoeJSON" (VStudent john) worldWithJohn in
   let read := getStructReJSON "JohnDoeJSON" (fst write) in
   snd write = Ok tt /\
   exists b,
     snd read = Ok (RBulk b) /\
     jsontext.parseJSON b = jsontext.parseJSON johnDoeText /\
     jsontext.parseJSON johnDoeText
     = Some (JObject
               [ ("info", JObject [ ("FirstName", JString "John");
                                    ("LastName", JString "Doe");
                                    ("Major", JString "CSE") ]);
                 ("rank", JNumber "1") ])).
Proof.
  intros V I NZ. split.
  - rewrite (parse_encodeStudent (Some d) rank V I).
    unfold studentJSON, detailsJSON.
    destruct (Z.eqb_spec rank 0); [contradiction | reflexivity].
  - cbv zeta. split; [vm_compute; reflexivity |].
    eexists. split; [vm_compute; reflexivity |].
    split; vm_compute; reflexivity.
Qed.

Lemma record_json_keys_witness :
  jsontext.parseJSON (json.encodeStudent (Some johnDoe) 1)
  = Some (JObject
            [ ("info", JObject [ ("FirstName", JString "John");
                                 ("LastName", JString "Doe");
                                 ("Major", JString "CSE") ]);
              ("rank", JNumber "1") ]).
Proof.
  apply (record_json_keys johnDoe 1).
  - repeat split.
  - unfold isInt64. vm_compute. split; discriminate.
  - discriminate.
Defined.

(** C10. For the zero record (nil Detail, rank 0) [json.Marshal] omits
    both fields and writes [{}]; when [addStructHashWithJSON] reports no
    error, [getStructHashWithJSON] returns [{}], and [json.Unmarshal] of
    it yields the zero record again, its Detail pointer still nil. *)
Theorem zero_record_round_trip (key : string) (w w1 : World) :
  addStructHashWithJSON key (VStudent zeroStudent) w = (w1, Ok tt) ->
  json.Marshal (VStudent zeroStudent) w = (w, Ok "{}") /\
  exists w2 out w3,
    getStructHashWithJSON key w1 = (w2, Ok (RBulk "{}")) /\
    json.Unmarshal "{}" zeroStudent w2 = (w3, Ok out) /\
    out = zeroStudent /\ Info out = None /\
    deepValue w3 out = deepValue w zeroStudent.
Proof.
  intros Wr. split; [reflexivity |].
  unfold addStructHashWithJSON in Wr.
  rewrite (bind_Ok _ _ _ w _ (Marshal_student_nil zeroStudent w eq_refl)) in Wr.
  change (json.encodeStudent None (Rank zeroStudent)) with "{}" in Wr.
  change (redis.Do "HSET" [VString key; VString "JSON"; VString "{}"] w)
    with (redis.roundTrip ["HSET"; key; "JSON"; "{}"] w) in Wr.
  apply bind_inv_Ok in Wr as (w1' & rep & Wr & R). injection R as <-.
  destruct (HSET_then_HGET _ _ _ _ _ _ Wr) as (w2 & Rd & Hp).
  exists w2, zeroStudent, w2. repeat split.
  unfold getStructHashWithJSON.
  change (redis.Do "HGET" [VString key; VString "JSON"] w1')
    with (redis.roundTrip ["HGET"; key; "JSON"] w1').
  now rewrite (bind_Ok _ _ _ _ _ Rd).
Qed.

Lemma zero_record_round_trip_witness :
  let w1 := fst (addStructHashWithJSON "JohnDoeHashJSON" (VStudent zeroStudent)
                   emptyWorld) in
  json.Marshal (VStudent zeroStudent) emptyWorld = (emptyWorld, Ok "{}") /\
  exists w2 out w3,
    getStructHashWithJSON "JohnDoeHashJSON" w1 = (w2, Ok (RBulk "{}")) /\
    json.Unmarshal "{}" zeroStudent w2 = (w3, Ok out) /\
    out = zeroStudent /\ Info out = None /\
    deepValue w3 out = deepValue emptyWorld zeroStudent.
Proof.
  apply (zero_record_round_trip "JohnDoeHashJSON" emptyWorld).
  vm_compute. reflexivity.
Defined.

(** ** The flattened encoding under the key [getStructHash] reads *)

(** [fmt] separates the fields of the Detail by spaces and does not
    quote them: two different Details can print alike, so the Detail
    cannot be recovered from the flat string. *)
Lemma SprintDetailsPtr_not_injective :
  exists d1 d2,
    d1 <> d2 /\
    fmt.SprintDetailsPtr (Some d1) = fmt.SprintDetailsPtr (Some d2).
Proof.
  exists (mkStudentDetails "John Paul" "Doe" "CSE"),
         (mkStudentDetails "John" "Paul Doe" "CSE").
  split; [discriminate | reflexivity].
Qed.

(** X26. Under the key ["JohnDoeHash"], a record written to a fresh key is
    read back as a mapping whose ["Info"] entry is the one flat string
    [fmt] prints for the Detail; the fields of the Detail have no entry
    of their own. *)
Lemma flattened_detail_is_one_string r l d w :
  Info r = Some l -> heap w !! l = Some d ->
  closed (conn w) = false -> server (conn w) !! "JohnDoeHash" = None ->
  let w1 := fst (addStructHash "JohnDoeHash" (VStudent r) w) in
  snd (addStructHash "JohnDoeHash" (VStudent r) w) = Ok tt /\
  exists m,
    snd (readFlattened "JohnDoeHash" w1) = Ok m /\
    m !! "Info" = Some (fmt.SprintDetailsPtr (Some d)) /\
    m !! "FirstName" = None /\ m !! "LastName" = None /\ m !! "Major" = None.
Proof.
  intros HI HL C K. cbv zeta.
  assert (E : addStructHash "JohnDoeHash" (VStudent r) w
    = (mkWorld (heap w)
         (mkConn (<["JohnDoeHash" :=
                      RHash [("Info", fmt.SprintDetailsPtr (Some d));
                             ("Rank", strconv.FormatInt (Rank r))]]>
                    (server (conn w)))
                 (sent (conn w) ++
                  [["HMSET"; "JohnDoeHash"; "Info";
                    fmt.SprintDetailsPtr (Some d);
                    "Rank"; strconv.FormatInt (Rank r)]])
                 false)
         (stdout w), Ok tt)).
  { unfold addStructHash, redis.AddFlat, redis.flattenStudent.
    unfold bind at 1. cbn [ret app].
    unfold redis.Do, redis.writeArgs, redis.writeArg, fmt.Sprint.
    rewrite HI. unfold deref, load, bind, ret. rewrite HL.
    unfold redis.roundTrip. rewrite C.
    change (redis_server.exec (server (conn w))
              ("HMSET" :: "JohnDoeHash" :: ?fvs))
      with (redis_server.hashWrite (server (conn w)) "JohnDoeHash" fvs true).
    unfold redis_server.hashWrite. rewrite K. reflexivity. }
  rewrite E. cbn [fst snd]. split; [reflexivity |].
  unfold readFlattened, getStructHash.
  change (redis.Do "HGETALL" [VString "JohnDoeHash"])
    with (redis.roundTrip ["HGETALL"; "JohnDoeHash"]).
  unfold bind, redis.roundTrip. cbn [conn closed server].
  change (redis_server.exec ?db ["HGETALL"; "JohnDoeHash"])
    with (match db !! "JohnDoeHash" with
          | None => (db, RArray [])
          | Some (RHash h) => (db, RArray (redis_server.hashFlat h))
          | Some _ => (db, RError redis_server.wrongType)
          end).
  rewrite lookup_insert_eq. cbn.
  eexists. split; [reflexivity |].
  repeat split;
    rewrite ?lookup_insert_ne by discriminate;
    first [apply lookup_insert_eq | apply lookup_empty].
Qed.

(** ** When the writes succeed *)

(** [addStructHashWithJSON] succeeds on an open connection when the key
    is free or holds a hash. *)
Lemma addStructHashWithJSON_succeeds key r l d w :
  Info r = Some l -> heap w !! l = Some d ->
  closed (conn w) = false ->
  (server (conn w) !! key = None \/
   exists h, server (conn w) !! key = Some (RHash h)) ->
  exists w1, addStructHashWithJSON key (VStudent r) w = (w1, Ok tt).
Proof.
  intros HI HL C K. unfold addStructHashWithJSON.
  rewrite (bind_Ok _ _ _ _ _ (Marshal_student r l d w HI HL)).
  unfold bind.
  change (redis.Do "HSET" [VString key; VString "JSON"; VString ?t] w)
    with (redis.roundTrip ["HSET"; key; "JSON"; t] w).
  unfold redis.roundTrip. cbv zeta. rewrite C, exec_HSET.
  unfold redis_server.hashWrite. cbn [redis_server.hashSetAll].
  destruct K as [-> | [h ->]].
  - cbn [redis_server.hashSet]. eexists. reflexivity.
  - destruct (redis_server.hashSet h "JSON" _) as [h1 created].
    eexists. reflexivity.
Qed.

(** [addStructReJSON] succeeds on an open connection when the key is
    free or holds a JSON document. *)
Lemma addStructReJSON_succeeds key r l d w :
  Info r = Some l -> heap w !! l = Some d ->
  validDetails d -> isInt64 (Rank r) ->
  closed (conn w) = false ->
  (server (conn w) !! key = None \/
   exists doc, server (conn w) !! key = Some (RJson doc)) ->
  exists w1, addStructReJSON key (VStudent r) w = (w1, Ok tt).
Proof.
  intros HI HL V I C K. unfold addStructReJSON, rejson.JSONSet.
  unfold bind at 1.
  rewrite (bind_Ok _ _ _ _ _ (Marshal_student r l d w HI HL)).
  change (redis.Do "JSON.SET"
            ([VString key; VString "."; VBytes ?t] ++ []) w)
    with (redis.roundTrip ["JSON.SET"; key; "."; t] w).
  unfold redis.roundTrip. cbv zeta. rewrite C, exec_JSON_SET.
  unfold redis_server.jsonSet.
  change (redis_server.parseFlags []) with (Some (false, false)).
  change (redis_server.parsePath ".") with (Some (@nil string)).
  rewrite (parse_encodeStudent (Some d) (Rank r) V I). cbv beta iota.
  destruct K as [-> | [doc ->]]; cbn [redis_server.setPath];
    eexists; reflexivity.
Qed.

(** * Properties of the operations beyond the round trips *)

(** ** One round trip *)

Lemma roundTrip_closed cmd w :
  closed (conn w) = true -> redis.roundTrip cmd w = (w, Err ConnError).
Proof. intros C. unfold redis.roundTrip. now rewrite C. Qed.

Lemma roundTrip_open cmd w :
  closed (conn w) = false ->
  redis.roundTrip cmd w
  = (mkWorld (heap w)
       (mkConn (fst (redis_server.exec (server (conn w)) cmd))
               (sent (conn w) ++ [cmd]) false)
       (stdout w),
     match snd (redis_server.exec (server (conn w)) cmd) with
     | RError msg => Err (RedisError msg)
     | r => Ok r
     end).
Proof.
  intros C. unfold redis.roundTrip. rewrite C.
  destruct (redis_server.exec _ _) as [db' r]. destruct r; reflexivity.
Qed.

(** ** The server, command by command *)


Lemma hashWrite_frame db key fvs multi k :
  k <> key ->
  fst (redis_server.hashWrite db key fvs multi) !! k = db !! k.
Proof.
  intros N. unfold redis_server.hashWrite.
  destruct fvs as [| f fvs]; [reflexivity |].
  destruct (db !! key) as [[h | doc | s] |]; try reflexivity;
    (destruct (redis_server.hashSetAll _ _) as [[h' created] |];
     [| reflexivity]); cbn [fst]; now rewrite lookup_insert_ne.
Qed.


Lemma jsonSet_frame db key path text flags k :
  k <> key ->
  fst (redis_server.jsonSet db key path text flags) !! k = db !! k.
Proof.
  intros N. unfold redis_server.jsonSet.
  destruct (redis_server.parseFlags flags) as [[nx xx] |]; [| reflexivity].
  destruct (redis_server.parsePath path) as [segs |]; [| reflexivity].
  destruct (jsontext.parseJSON text) as [v |]; [| reflexivity].
  destruct (db !! key) as [[h | doc | s] |]; try reflexivity.
  - destruct (redis_server.setPath _ _ _ _ _); try reflexivity.
    cbn [fst]. now rewrite lookup_insert_ne.
  - destruct segs; [| reflexivity]. destruct xx; [reflexivity |].
    cbn [fst]. now rewrite lookup_insert_ne.
Qed.

Lemma jsonGet_store db key path :
  fst (redis_server.jsonGet db key path) = db.
Proof.
  unfold redis_server.jsonGet.
  destruct (db !! key) as [[h | doc | s] |]; try reflexivity.
  destruct (redis_server.parsePath path) as [segs |]; [| reflexivity].
  destruct (redis_server.getPath doc segs); reflexivity.
Qed.

(** The cases of [exec], by the name of the command. *)
Ltac exec_cases name :=
  unfold redis_server.exec;
  destruct (String.eqb name "HMSET");
  [| destruct (String.eqb name "HSET");
     [| destruct (String.eqb name "HGETALL");
        [| destruct (String.eqb name "HGET");
           [| destruct (String.eqb name "JSON.SET");
              [| destruct (String.eqb name "JSON.GET")]]]]].


(** A command changes at most what is stored under its first
    argument. *)
Lemma exec_frame db name key bulk k :
  k <> key ->
  fst (redis_server.exec db (name :: key :: bulk)) !! k = db !! k.
Proof.
  intros N. exec_cases name.
  - now apply hashWrite_frame.
  - now apply hashWrite_frame.
  - destruct bulk; [| reflexivity].
    destruct (db !! key) as [[h | doc | s] |]; reflexivity.
  - destruct bulk as [| f [| ? ?]]; try reflexivity.
    destruct (db !! key) as [[h | doc | s] |]; reflexivity.
  - destruct bulk as [| path [| text flags]]; try reflexivity.
    now apply jsonSet_frame.
  - destruct bulk as [| path [| ? ?]]; try reflexivity;
      now rewrite jsonGet_store.
  - reflexivity.
Qed.

(** The commands that read store nothing. *)
Lemma exec_read db name args :
  readCommand name = true ->
  fst (redis_server.exec db (name :: args)) = db.
Proof.
  unfold readCommand. intros R.
  unfold redis_server.exec.
  destruct (String.eqb name "HMSET") eqn:E1.
  { apply String.eqb_eq in E1. subst name. vm_compute in R. discriminate R. }
  destruct (String.eqb name "HSET") eqn:E2.
  { apply String.eqb_eq in E2. subst name. vm_compute in R. discriminate R. }
  destruct (String.eqb name "HGETALL").
  { destruct args as [| key [| ? ?]]; try reflexivity.
    destruct (db !! key) as [[h | doc | s] |]; reflexivity. }
  destruct (String.eqb name "HGET").
  { destruct args as [| key [| f [| ? ?]]]; try reflexivity.
    destruct (db !! key) as [[h | doc | s] |]; reflexivity. }
  destruct (String.eqb name "JSON.SET") eqn:E5.
  { apply String.eqb_eq in E5. subst name. vm_compute in R. discriminate R. }
  destruct (String.eqb name "JSON.GET").
  { destruct args as [| key [| path [| ? ?]]]; try reflexivity;
      apply jsonGet_store. }
  reflexivity.
Qed.

(** ** Every operation is at most one command on its key *)

Lemma writeArgs_head key rest w :
  match snd (redis.writeArgs (VString key :: rest) w) with
  | Ok bulk => exists b, bulk = key :: b
  | Err _ => True
  end.
Proof.
  cbn [redis.writeArgs redis.writeArg]. unfold bind at 1. cbn [ret].
  unfold bind. destruct (redis.writeArgs rest w) as [w1 [ss | e]]; cbn; eauto.
Qed.

Lemma Do_oneCommandOn name key rest :
  oneCommandOn name key (redis.Do name (VString key :: rest)).
Proof.
  intros w. unfold redis.Do, bind.
  pose proof (writeArgs_world (VString key :: rest) w) as W.
  pose proof (writeArgs_head key rest w) as H.
  destruct (redis.writeArgs (VString key :: rest) w) as [w1 [bulk | e]];
    cbn [fst snd] in *; subst w1.
  - destruct H as [b ->]. right. exists b. split; reflexivity.
  - left. split; reflexivity.
Qed.

Lemma oneCommandOn_result {A B} name key (m : Prog A) (f : A -> B) :
  oneCommandOn name key m ->
  oneCommandOn name key (bind m (fun a => ret (f a))).
Proof.
  intros H w. unfold bind.
  destruct (H w) as [[E1 E2] | (bulk & E1 & E2)];
    [left | right; exists bulk];
    destruct (m w) as [w1 [a | e]]; cbn [fst snd ret isErr] in *;
    split; assumption.
Qed.

Lemma oneCommandOn_after {A B} name key (m : Prog A) (k : A -> Prog B) :
  (forall w, fst (m w) = w) ->
  (forall a, oneCommandOn name key (k a)) ->
  oneCommandOn name key (bind m k).
Proof.
  intros Hm Hk w. unfold bind. specialize (Hm w).
  destruct (m w) as [w1 [a | e]]; cbn [fst] in Hm; subst w1.
  - apply Hk.
  - left. split; reflexivity.
Qed.

Lemma AddFlat_head key value w :
  fst (redis.AddFlat [VString key] value w) = w /\
  match snd (redis.AddFlat [VString key] value w) with
  | Ok args => exists rest, args = VString key :: rest
  | Err _ => True
  end.
Proof.
  split; [apply (maintains_AddFlat sameWorld _ _ w) |].
  destruct value as [s | b | n | [l |] | s | a]; cbn; eauto.
  unfold bind, load. destruct (heap w !! l); cbn; eauto.
Qed.

Lemma addStructHash_one key value :
  oneCommandOn "HMSET" key (addStructHash key value).
Proof.
  intros w.
  assert (E : addStructHash key value w
    = match redis.AddFlat [VString key] value w with
      | (w1, Ok args) => (_ <- redis.Do "HMSET" args ;; ret tt) w1
      | (w1, Err e) => (w1, Err e)
      end) by reflexivity.
  rewrite E. clear E.
  destruct (AddFlat_head key value w) as [W H].
  destruct (redis.AddFlat [VString key] value w) as [w1 [args | e]];
    cbn [fst snd] in *; subst w1.
  - destruct H as [rest ->].
    apply (oneCommandOn_result _ key _ (fun _ => tt)), Do_oneCommandOn.
  - left. split; reflexivity.
Qed.

Lemma addStructReJSON_one key value :
  oneCommandOn "JSON.SET" key (addStructReJSON key value).
Proof.
  unfold addStructReJSON, rejson.JSONSet.
  apply (oneCommandOn_result _ key _ (fun _ => tt)).
  apply oneCommandOn_after; [apply Marshal_world |].
  intros b. apply Do_oneCommandOn.
Qed.

Lemma addStructHashWithJSON_one key value :
  oneCommandOn "HSET" key (addStructHashWithJSON key value).
Proof.
  unfold addStructHashWithJSON.
  apply oneCommandOn_after; [apply Marshal_world |].
  intros b. apply (oneCommandOn_result _ key _ (fun _ => tt)), Do_oneCommandOn.
Qed.

Lemma getStructHash_one key :
  oneCommandOn "HGETALL" "JohnDoeHash" (getStructHash key).
Proof. apply Do_oneCommandOn. Qed.

Lemma getStructReJSON_one key :
  oneCommandOn "JSON.GET" key (getStructReJSON key).
Proof. apply Do_oneCommandOn. Qed.

Lemma getStructHashWithJSON_one key :
  oneCommandOn "HGET" key (getStructHashWithJSON key).
Proof.
  unfold getStructHashWithJSON.
  apply (oneCommandOn_result _ key _ (fun value => value)), Do_oneCommandOn.
Qed.

(** What one command on a key can and cannot do. *)

Lemma oneCommandOn_closed {A} name key (m : Prog A) w :
  oneCommandOn name key m -> closed (conn w) = true ->
  fst (m w) = w /\ isErr (snd (m w)) = true.
Proof.
  intros H C. destruct (H w) as [E | (bulk & E1 & E2)]; [exact E |].
  rewrite E1, E2, (roundTrip_closed _ _ C). split; reflexivity.
Qed.


Lemma oneCommandOn_frame {A} name key (m : Prog A) w k :
  oneCommandOn name key m -> k <> key ->
  server (conn (fst (m w))) !! k = server (conn w) !! k.
Proof.
  intros H N. destruct (H w) as [[E _] | (bulk & E1 & _)].
  - now rewrite E.
  - rewrite E1. destruct (closed (conn w)) eqn:C.
    + now rewrite (roundTrip_closed _ _ C).
    + rewrite (roundTrip_open _ _ C). cbn [fst conn server].
      now apply exec_frame.
Qed.

Lemma oneCommandOn_rest {A} name key (m : Prog A) w :
  oneCommandOn name key m ->
  heap (fst (m w)) = heap w /\
  stdout (fst (m w)) = stdout w /\
  closed (conn (fst (m w))) = closed (conn w).
Proof.
  intros H. destruct (H w) as [[E _] | (bulk & E1 & _)].
  - now rewrite E.
  - rewrite E1. destruct (closed (conn w)) eqn:C.
    + now rewrite (roundTrip_closed _ _ C).
    + rewrite (roundTrip_open _ _ C). repeat split.
Qed.

Lemma oneCommandOn_sent {A} name key (m : Prog A) w :
  oneCommandOn name key m ->
  (length (newCommands w (fst (m w))) <= 1)%nat.
Proof.
  intros H. unfold newCommands.
  destruct (H w) as [[E _] | (bulk & E1 & _)].
  - rewrite E, drop_all. cbn. lia.
  - rewrite E1. pose proof (roundTrip_sent (name :: key :: bulk) w) as S.
    rewrite S, drop_app_length. destruct (closed (conn w)); cbn; lia.
Qed.

(** ** What no operation does *)

(** X1. On a connection that is down every operation returns an error and
    leaves the world as it is: no command is sent and nothing is stored.
    The read operations return the connection error. *)
Theorem closed_connection_stops_every_operation
    (key : string) (value : Value) (w : World) :
  closed (conn w) = true ->
  (fst (addStructHash key value w) = w /\
   isErr (snd (addStructHash key value w)) = true) /\
  (fst (addStructReJSON key value w) = w /\
   isErr (snd (addStructReJSON key value w)) = true) /\
  (fst (addStructHashWithJSON key value w) = w /\
   isErr (snd (addStructHashWithJSON key value w)) = true) /\
  getStructHash key w = (w, Err ConnError) /\
  getStructReJSON key w = (w, Err ConnError) /\
  getStructHashWithJSON key w = (w, Err ConnError).
Proof.
  intros C.
  split; [exact (oneCommandOn_closed _ key _ w (addStructHash_one key value) C) |].
  split; [exact (oneCommandOn_closed _ key _ w (addStructReJSON_one key value) C) |].
  split; [exact (oneCommandOn_closed _ key _ w (addStructHashWithJSON_one key value) C) |].
  split; [apply (roundTrip_closed ["HGETALL"; "JohnDoeHash"] w C) |].
  split; [apply (roundTrip_closed ["JSON.GET"; key; ""] w C) |].
  unfold getStructHashWithJSON.
  change (redis.Do "HGET" [VString key; VString "JSON"])
    with (redis.roundTrip ["HGET"; key; "JSON"]).
  unfold bind. now rewrite (roundTrip_closed _ w C).
Qed.

Lemma closed_connection_stops_every_operation_witness :
  closed (conn downWorld) = true /\
  addStructHash "JohnDoeHash" (VStudent john) downWorld
  = (downWorld, Err ConnError) /\
  getStructHashWithJSON "JohnDoeHashJSON" downWorld
  = (downWorld, Err ConnError).
Proof.
  pose proof (closed_connection_stops_every_operation
                "JohnDoeHashJSON" (VStudent john) downWorld eq_refl) as H.
  split; [reflexivity |]. split; [reflexivity |]. apply H.
Defined.



(** X3. A write changes at most what is stored under its own key: whatever
    the value and the outcome, every other key holds what it held
    before. *)
Theorem write_touches_only_its_key
    (key : string) (value : Value) (w : World) (other : string) :
  other <> key ->
  server (conn (fst (addStructHash key value w))) !! other
  = server (conn w) !! other /\
  server (conn (fst (addStructReJSON key value w))) !! other
  = server (conn w) !! other /\
  server (conn (fst (addStructHashWithJSON key value w))) !! other
  = server (conn w) !! other.
Proof.
  intros N.
  split; [exact (oneCommandOn_frame _ key _ w other (addStructHash_one key value) N) |].
  split; [exact (oneCommandOn_frame _ key _ w other (addStructReJSON_one key value) N) |].
  exact (oneCommandOn_frame _ key _ w other (addStructHashWithJSON_one key value) N).
Qed.

Lemma write_touches_only_its_key_witness :
  snd (addStructReJSON "D" (VStudent john) worldWithBoth) = Ok tt /\
  server (conn (fst (addStructReJSON "D" (VStudent john) worldWithBoth)))
    !! "H"
  = Some (RHash [("Note", "x")]).
Proof.
  split; [vm_compute; reflexivity |].
  destruct (write_touches_only_its_key "D" (VStudent john) worldWithBoth "H")
    as (_ & E & _); [discriminate |].
  rewrite E. reflexivity.
Defined.

(** X4. The read operations store nothing and allocate nothing: after a
    read the heap, the database, the state of the connection and the
    output are what they were.  All that a read leaves behind is the
    command in the log of the connection. *)
Theorem read_operations_store_nothing (key : string) (w : World) :
  onlySent w (fst (getStructHash key w)) /\
  onlySent w (fst (getStructReJSON key w)) /\
  onlySent w (fst (getStructHashWithJSON key w)).
Proof.
  assert (R : forall name args, readCommand name = true ->
            onlySent w (fst (redis.roundTrip (name :: args) w))).
  { intros name args H. unfold onlySent.
    destruct (closed (conn w)) eqn:C.
    - rewrite (roundTrip_closed _ _ C). cbn [fst].
      repeat split; try reflexivity. exact C.
    - rewrite (roundTrip_open _ _ C). cbn [fst heap conn server closed stdout].
      rewrite (exec_read _ _ _ H). repeat split. }
  split; [apply (R "HGETALL" ["JohnDoeHash"]); reflexivity |].
  split; [apply (R "JSON.GET" [key; ""]); reflexivity |].
  unfold getStructHashWithJSON.
  change (redis.Do "HGET" [VString key; VString "JSON"])
    with (redis.roundTrip ["HGET"; key; "JSON"]).
  specialize (R "HGET" [key; "JSON"] eq_refl). unfold bind.
  destruct (redis.roundTrip ["HGET"; key; "JSON"] w) as [w1 [r | e]];
    exact R.
Qed.

(** X5. Each of the six operations makes at most one round trip to the
    server, whatever its arguments and its outcome. *)
Theorem every_operation_is_at_most_one_command
    (key : string) (value : Value) (w : World) :
  (length (newCommands w (fst (addStructHash key value w))) <= 1)%nat /\
  (length (newCommands w (fst (addStructReJSON key value w))) <= 1)%nat /\
  (length (newCommands w (fst (addStructHashWithJSON key value w))) <= 1)%nat /\
  (length (newCommands w (fst (getStructHash key w))) <= 1)%nat /\
  (length (newCommands w (fst (getStructReJSON key w))) <= 1)%nat /\
  (length (newCommands w (fst (getStructHashWithJSON key w))) <= 1)%nat.
Proof.
  split; [exact (oneCommandOn_sent _ key _ w (addStructHash_one key value)) |].
  split; [exact (oneCommandOn_sent _ key _ w (addStructReJSON_one key value)) |].
  split; [exact (oneCommandOn_sent _ key _ w (addStructHashWithJSON_one key value)) |].
  split; [exact (oneCommandOn_sent _ "JohnDoeHash" _ w (getStructHash_one key)) |].
  split; [exact (oneCommandOn_sent _ key _ w (getStructReJSON_one key)) |].
  exact (oneCommandOn_sent _ key _ w (getStructHashWithJSON_one key)).
Qed.

(** ** The operations on an open connection *)

Lemma getStructHashWithJSON_run key w :
  closed (conn w) = false ->
  getStructHashWithJSON key w
  = (afterCommand w ["HGET"; key; "JSON"] (server (conn w)),
     hgetAnswer (server (conn w) !! key) "JSON").
Proof.
  intros C. unfold getStructHashWithJSON.
  change (redis.Do "HGET" [VString key; VString "JSON"])
    with (redis.roundTrip ["HGET"; key; "JSON"]).
  unfold bind. rewrite (roundTrip_open _ _ C), exec_HGET.
  unfold afterCommand, hgetAnswer.
  destruct (server (conn w) !! key) as [[h | doc | s] |]; try reflexivity.
  cbn [fst snd]. destruct (redis_server.hashGet h "JSON"); reflexivity.
Qed.

Lemma getStructReJSON_run key w :
  closed (conn w) = false ->
  getStructReJSON key w
  = (afterCommand w ["JSON.GET"; key; ""] (server (conn w)),
     jsonGetAnswer (server (conn w) !! key)).
Proof.
  intros C. unfold getStructReJSON, rejson.JSONGet.
  change (redis.Do "JSON.GET" [VString key; VString ""])
    with (redis.roundTrip ["JSON.GET"; key; ""]).
  rewrite (roundTrip_open _ _ C), exec_JSON_GET.
  unfold afterCommand, jsonGetAnswer, redis_server.jsonGet.
  destruct (server (conn w) !! key) as [[h | doc | s] |]; reflexivity.
Qed.

Lemma getStructHash_run key w :
  closed (conn w) = false ->
  getStructHash key w
  = (afterCommand w ["HGETALL"; "JohnDoeHash"] (server (conn w)),
     hgetallAnswer (server (conn w) !! "JohnDoeHash")).
Proof.
  intros C. unfold getStructHash.
  change (redis.Do "HGETALL" [VString "JohnDoeHash"])
    with (redis.roundTrip ["HGETALL"; "JohnDoeHash"]).
  rewrite (roundTrip_open _ _ C).
  change (redis_server.exec (server (conn w)) ["HGETALL"; "JohnDoeHash"])
    with (match server (conn w) !! "JohnDoeHash" with
          | None => (server (conn w), RArray [])
          | Some (RHash h) => (server (conn w), RArray (redis_server.hashFlat h))
          | Some _ => (server (conn w), RError redis_server.wrongType)
          end).
  unfold afterCommand, hgetallAnswer.
  destruct (server (conn w) !! "JohnDoeHash") as [[h | doc | s] |]; reflexivity.
Qed.

Lemma newCommands_afterCommand w cmd db :
  newCommands w (afterCommand w cmd db) = [cmd].
Proof. unfold newCommands, afterCommand. cbn. now rewrite drop_app_length. Qed.

(** ** The read operations, case by case *)

(** X6. [getStructHashWithJSON] on an open connection sends [HGET key JSON]
    and returns the server's answer as it is: the bytes of the field
    when the hash has it; the nil reply, and no error, when the key does
    not exist or the hash has no field [JSON]; the wrong-type error when
    the key holds something that is not a hash.  On a closed connection
    it returns the connection error and the world is untouched. *)
Theorem getStructHashWithJSON_cases (key : string) (w : World) :
  let w' := fst (getStructHashWithJSON key w) in
  let r := snd (getStructHashWithJSON key w) in
  if closed (conn w)
  then r = Err ConnError /\ w' = w
  else newCommands w w' = [["HGET"; key; "JSON"]] /\
       r = match server (conn w) !! key with
           | None => Ok RNil
           | Some (RHash h) =>
             match redis_server.hashGet h "JSON" with
             | Some text => Ok (RBulk text)
             | None => Ok RNil
             end
           | Some _ => Err (RedisError redis_server.wrongType)
           end.
Proof.
  cbv zeta. destruct (closed (conn w)) eqn:C.
  - pose proof (oneCommandOn_closed _ key _ w (getStructHashWithJSON_one key) C)
      as [E1 E2].
    split; [| exact E1].
    unfold getStructHashWithJSON in *.
    change (redis.Do "HGET" [VString key; VString "JSON"])
      with (redis.roundTrip ["HGET"; key; "JSON"]).
    unfold bind. now rewrite (roundTrip_closed _ w C).
  - rewrite (getStructHashWithJSON_run key w C). cbn [fst snd].
    split; [apply newCommands_afterCommand |].
    unfold hgetAnswer.
    destruct (server (conn w) !! key) as [[h | doc | s] |]; try reflexivity.
    destruct (redis_server.hashGet h "JSON"); reflexivity.
Qed.

(** X7. [getStructReJSON] on an open connection returns the whole document
    stored under the key, as the server writes it; the nil reply, and no
    error, when the key does not exist; the wrong-type error when the
    key holds something that is not a JSON document.  On a closed
    connection it returns the connection error and the world is
    untouched. *)
Theorem getStructReJSON_cases (key : string) (w : World) :
  let w' := fst (getStructReJSON key w) in
  let r := snd (getStructReJSON key w) in
  if closed (conn w)
  then r = Err ConnError /\ w' = w
  else length (newCommands w w') = 1%nat /\
       r = match server (conn w) !! key with
           | None => Ok RNil
           | Some (RJson doc) => Ok (RBulk (redis_server.serialize doc))
           | Some _ => Err (RedisError redis_server.wrongType)
           end.
Proof.
  cbv zeta. destruct (closed (conn w)) eqn:C.
  - change (getStructReJSON key w)
      with (redis.roundTrip ["JSON.GET"; key; ""] w).
    rewrite (roundTrip_closed _ w C). split; reflexivity.
  - rewrite (getStructReJSON_run key w C). cbn [fst snd].
    rewrite newCommands_afterCommand. split; reflexivity.
Qed.

(** X8. A key that does not exist is no error for the two JSON reads: each
    returns the nil reply.  Read as [main] reads, with the reply
    asserted to be a byte string, the program then panics in the
    assertion instead of reporting an error. *)
Theorem reading_a_missing_key_fails_the_type_assertion
    (key : string) (w : World) :
  closed (conn w) = false ->
  server (conn w) !! key = None ->
  snd (getStructReJSON key w) = Ok RNil /\
  snd (getStructHashWithJSON key w) = Ok RNil /\
  snd (readBytes getStructReJSON key w)
  = Err (PanicError "interface conversion") /\
  snd (readBytes getStructHashWithJSON key w)
  = Err (PanicError "interface conversion").
Proof.
  intros C K. unfold readBytes, bind.
  rewrite (getStructReJSON_run key w C), (getStructHashWithJSON_run key w C).
  rewrite K. repeat split.
Qed.

Lemma reading_a_missing_key_fails_the_type_assertion_witness :
  snd (readBytes getStructReJSON "JohnDoeJSON" emptyWorld)
  = Err (PanicError "interface conversion") /\
  snd (readBytes getStructHashWithJSON "JohnDoeHashJSON" emptyWorld)
  = Err (PanicError "interface conversion").
Proof.
  split.
  - apply (reading_a_missing_key_fails_the_type_assertion
             "JohnDoeJSON" emptyWorld); reflexivity.
  - apply (reading_a_missing_key_fails_the_type_assertion
             "JohnDoeHashJSON" emptyWorld); reflexivity.
Defined.

Lemma hashGet_hashSet_ne h f v f' :
  f' <> f ->
  redis_server.hashGet (fst (redis_server.hashSet h f v)) f'
  = redis_server.hashGet h f'.
Proof.
  intros N. induction h as [| [k x] h IH]; cbn [redis_server.hashSet].
  - cbn. destruct (String.eqb_spec f f'); [congruence | reflexivity].
  - destruct (String.eqb_spec k f) as [-> | NE].
    + cbn. destruct (String.eqb_spec f f'); [congruence | reflexivity].
    + destruct (redis_server.hashSet h f v) as [h'' created].
      cbn in *. now rewrite IH.
Qed.

Lemma deref_deep w r o rank :
  deepValue w r = Some (o, rank) ->
  deref (Info r) w = (w, Ok o) /\ Rank r = rank.
Proof.
  unfold deepValue, deref. destruct (Info r) as [l |].
  - unfold bind, load. destruct (heap w !! l) as [d |]; [| discriminate].
    intros E. injection E as <- <-. split; reflexivity.
  - intros E. injection E as <- <-. split; reflexivity.
Qed.

Lemma Marshal_deep w r o rank :
  deepValue w r = Some (o, rank) ->
  json.Marshal (VStudent r) w = (w, Ok (json.encodeStudent o rank)).
Proof.
  intros D. destruct (deref_deep _ _ _ _ D) as [E <-].
  unfold json.Marshal, bind. now rewrite E.
Qed.

Lemma addStructHashWithJSON_run key value b w :
  json.Marshal value w = (w, Ok b) ->
  closed (conn w) = false ->
  addStructHashWithJSON key value w
  = match server (conn w) !! key with
    | Some (RJson _) | Some (RStr _) =>
      (afterCommand w ["HSET"; key; "JSON"; b] (server (conn w)),
       Err (RedisError redis_server.wrongType))
    | _ =>
      (afterCommand w ["HSET"; key; "JSON"; b]
         (<[key := RHash (fst (redis_server.hashSet
                                 (hashAt (server (conn w)) key) "JSON" b))]>
            (server (conn w))),
       Ok tt)
    end.
Proof.
  intros M C. unfold addStructHashWithJSON.
  rewrite (bind_Ok _ _ _ _ _ M). unfold bind.
  change (redis.Do "HSET" [VString key; VString "JSON"; VString b] w)
    with (redis.roundTrip ["HSET"; key; "JSON"; b] w).
  rewrite (roundTrip_open _ _ C), exec_HSET.
  unfold redis_server.hashWrite, hashAt, afterCommand.
  cbn [redis_server.hashSetAll].
  destruct (server (conn w) !! key) as [[h | doc | s] |]; try reflexivity;
    destruct (redis_server.hashSet _ "JSON" b) as [h1 created]; reflexivity.
Qed.

Lemma addStructReJSON_run key value b w :
  json.Marshal value w = (w, Ok b) ->
  closed (conn w) = false ->
  addStructReJSON key value w
  = match jsontext.parseJSON b with
    | None =>
      (afterCommand w ["JSON.SET"; key; "."; b] (server (conn w)),
       Err (RedisError "ERR JSON lexer error"))
    | Some v =>
      match server (conn w) !! key with
      | None | Some (RJson _) =>
        (afterCommand w ["JSON.SET"; key; "."; b]
           (<[key := RJson v]> (server (conn w))),
         Ok tt)
      | Some _ =>
        (afterCommand w ["JSON.SET"; key; "."; b] (server (conn w)),
         Err (RedisError redis_server.wrongType))
      end
    end.
Proof.
  intros M C. unfold addStructReJSON, rejson.JSONSet.
  unfold bind at 1. rewrite (bind_Ok _ _ _ _ _ M).
  change (redis.Do "JSON.SET"
            ([VString key; VString "."; VBytes b] ++ []) w)
    with (redis.roundTrip ["JSON.SET"; key; "."; b] w).
  rewrite (roundTrip_open _ _ C), exec_JSON_SET.
  unfold redis_server.jsonSet, afterCommand.
  change (redis_server.parseFlags []) with (Some (false, false)).
  change (redis_server.parsePath ".") with (Some (@nil string)).
  cbv beta iota.
  destruct (jsontext.parseJSON b) as [v |]; [| reflexivity].
  destruct (server (conn w) !! key) as [[h | doc | s] |];
    cbn [redis_server.setPath]; reflexivity.
Qed.

Lemma addStructHash_run key r o rank w :
  deepValue w r = Some (o, rank) ->
  closed (conn w) = false ->
  addStructHash key (VStudent r) w
  = match server (conn w) !! key with
    | Some (RJson _) | Some (RStr _) =>
      (afterCommand w
         ["HMSET"; key; "Info"; fmt.SprintDetailsPtr o;
          "Rank"; strconv.FormatInt rank]
         (server (conn w)),
       Err (RedisError redis_server.wrongType))
    | _ =>
      (afterCommand w
         ["HMSET"; key; "Info"; fmt.SprintDetailsPtr o;
          "Rank"; strconv.FormatInt rank]
         (<[key :=
              RHash (fst (redis_server.hashSet
                            (fst (redis_server.hashSet
                                    (hashAt (server (conn w)) key)
                                    "Info" (fmt.SprintDetailsPtr o)))
                            "Rank" (strconv.FormatInt rank)))]>
            (server (conn w))),
       Ok tt)
    end.
Proof.
  intros D C. destruct (deref_deep _ _ _ _ D) as [E <-].
  unfold addStructHash, redis.AddFlat, redis.flattenStudent.
  unfold bind at 1. cbn [ret app].
  unfold redis.Do, redis.writeArgs, redis.writeArg, fmt.Sprint.
  unfold bind, ret. cbv beta iota. rewrite E. cbv beta iota.
  rewrite (roundTrip_open _ _ C).
  change (redis_server.exec (server (conn w))
            ("HMSET" :: key :: ?fvs))
    with (redis_server.hashWrite (server (conn w)) key fvs true).
  unfold redis_server.hashWrite, hashAt, afterCommand.
  cbn [redis_server.hashSetAll].
  destruct (server (conn w) !! key) as [[h | doc | s] |]; try reflexivity;
    destruct (redis_server.hashSet _ "Info" _) as [h1 c1]; cbn [fst snd];
    destruct (redis_server.hashSet h1 "Rank" _) as [h2 c2]; reflexivity.
Qed.

Lemma addStructHash_record key r o rank w :
  deepValue w r = Some (o, rank) ->
  addStructHash key (VStudent r) w
  = (_ <- redis.roundTrip
            ["HMSET"; key; "Info"; fmt.SprintDetailsPtr o;
             "Rank"; strconv.FormatInt rank] ;;
     ret tt) w.
Proof.
  intros D. destruct (deref_deep _ _ _ _ D) as [E <-].
  unfold addStructHash, redis.AddFlat, redis.flattenStudent.
  unfold bind at 1. cbn [ret app].
  unfold redis.Do, redis.writeArgs, redis.writeArg, fmt.Sprint.
  unfold bind, ret. cbv beta iota. rewrite E. reflexivity.
Qed.

Lemma hashWrite_ok db key fvs multi :
  (forall msg, snd (redis_server.hashWrite db key fvs multi) <> RError msg) ->
  exists h,
    fst (redis_server.hashWrite db key fvs multi) = <[key := RHash h]> db.
Proof.
  unfold redis_server.hashWrite. intros H.
  destruct fvs as [| f fvs]; [exfalso; eapply H; reflexivity |].
  destruct (db !! key) as [[h | doc | s] |];
    try (exfalso; eapply H; reflexivity);
    (destruct (redis_server.hashSetAll _ _) as [[h' created] |];
     [eexists; reflexivity | exfalso; eapply H; reflexivity]).
Qed.

(** A hash write that reports no error leaves a hash under its key. *)
Lemma oneCommandOn_hash {A} name key (m : Prog A) w :
  name = "HMSET" \/ name = "HSET" ->
  oneCommandOn name key m ->
  isErr (snd (m w)) = false ->
  closed (conn (fst (m w))) = false /\
  exists h, server (conn (fst (m w))) !! key = Some (RHash h).
Proof.
  intros N H R. destruct (H w) as [[_ E] | (bulk & E1 & E2)]; [congruence |].
  rewrite E1. rewrite E2 in R. clear E1 E2.
  destruct (closed (conn w)) eqn:C.
  { rewrite (roundTrip_closed _ _ C) in R. discriminate R. }
  rewrite (roundTrip_open _ _ C) in *. cbn [fst snd conn server closed] in *.
  split; [reflexivity |].
  assert (X : exists multi,
            redis_server.exec (server (conn w)) (name :: key :: bulk)
            = redis_server.hashWrite (server (conn w)) key bulk multi).
  { destruct N as [-> | ->]; eexists; reflexivity. }
  destruct X as [multi X]. rewrite X in *.
  destruct (hashWrite_ok (server (conn w)) key bulk multi) as [h Eh].
  - intros msg Em. rewrite Em in R. discriminate R.
  - exists h. rewrite Eh. apply lookup_insert_eq.
Qed.

Lemma Marshal_result value w :
  json.Marshal value w = (w, snd (json.Marshal value w)).
Proof.
  pose proof (Marshal_world value w) as E.
  destruct (json.Marshal value w) as [w' r]. cbn in *. now subst.
Qed.

(** What a successful [addStructHashWithJSON] did. *)
Lemma addStructHashWithJSON_Ok key value w w1 :
  addStructHashWithJSON key value w = (w1, Ok tt) ->
  exists b,
    json.Marshal value w = (w, Ok b) /\
    closed (conn w) = false /\
    hashOrFree (server (conn w)) key /\
    w1 = afterCommand w ["HSET"; key; "JSON"; b]
           (<[key := RHash (fst (redis_server.hashSet
                                   (hashAt (server (conn w)) key) "JSON" b))]>
              (server (conn w))).
Proof.
  intros H.
  destruct (closed (conn w)) eqn:C.
  { destruct (oneCommandOn_closed _ key _ w
                (addStructHashWithJSON_one key value) C) as [_ E].
    rewrite H in E. discriminate E. }
  pose proof (Marshal_result value w) as M.
  destruct (snd (json.Marshal value w)) as [b | e].
  - exists b. rewrite (addStructHashWithJSON_run key value b w M C) in H.
    unfold hashOrFree.
    destruct (server (conn w) !! key) as [[h | doc | s] |];
      try discriminate H; injection H as <-; repeat split; assumption.
  - unfold addStructHashWithJSON in H. rewrite (bind_Err _ _ _ _ _ M) in H.
    discriminate H.
Qed.

(** What a successful [addStructReJSON] did. *)
Lemma addStructReJSON_Ok key value w w1 :
  addStructReJSON key value w = (w1, Ok tt) ->
  exists b v,
    json.Marshal value w = (w, Ok b) /\
    jsontext.parseJSON b = Some v /\
    closed (conn w) = false /\
    docOrFree (server (conn w)) key /\
    w1 = afterCommand w ["JSON.SET"; key; "."; b]
           (<[key := RJson v]> (server (conn w))).
Proof.
  intros H.
  destruct (closed (conn w)) eqn:C.
  { destruct (oneCommandOn_closed _ key _ w
                (addStructReJSON_one key value) C) as [_ E].
    rewrite H in E. discriminate E. }
  pose proof (Marshal_result value w) as M.
  destruct (snd (json.Marshal value w)) as [b | e].
  - exists b. rewrite (addStructReJSON_run key value b w M C) in H.
    unfold docOrFree.
    destruct (jsontext.parseJSON b) as [v |]; [| discriminate H].
    exists v.
    destruct (server (conn w) !! key) as [[h | doc | s] |];
      try discriminate H; injection H as <-; repeat split; assumption.
  - unfold addStructReJSON, rejson.JSONSet in H. unfold bind at 1 in H.
    rewrite (bind_Err _ _ _ _ _ M) in H. discriminate H.
Qed.

Lemma result_unit (res : result unit) : res <> Ok tt -> isErr res = true.
Proof. destruct res as [[] | e]; [congruence | reflexivity]. Qed.

Lemma hashAt_insert db key h : hashAt (<[key := RHash h]> db) key = h.
Proof. unfold hashAt. now rewrite lookup_insert_eq. Qed.

(** ** The write operations on a record, case by case *)

(** X9. [addStructHash] for a record, on an open connection.  It succeeds
    exactly when the key is free or holds a hash; otherwise the error is
    the wrong-type error of the server.  After a success the key holds a
    hash whose field [Info] is the Detail as [fmt] prints a pointer to
    it ([<nil>] for a nil pointer), whose field [Rank] is the rank in
    decimal, and whose other fields are what they were. *)
Theorem addStructHash_outcome
    (key : string) (r : Student) (o : option StudentDetails) (rank : Z)
    (w : World) :
  deepValue w r = Some (o, rank) ->
  closed (conn w) = false ->
  let res := snd (addStructHash key (VStudent r) w) in
  let db := server (conn w) in
  let db' := server (conn (fst (addStructHash key (VStudent r) w))) in
  (res = Ok tt <-> hashOrFree db key) /\
  (res <> Ok tt -> res = Err (RedisError redis_server.wrongType)) /\
  (res = Ok tt ->
   db' !! key = Some (RHash (hashAt db' key)) /\
   redis_server.hashGet (hashAt db' key) "Info"
   = Some (fmt.SprintDetailsPtr o) /\
   redis_server.hashGet (hashAt db' key) "Rank"
   = Some (strconv.FormatInt rank) /\
   forall f, f <> "Info" -> f <> "Rank" ->
     redis_server.hashGet (hashAt db' key) f
     = redis_server.hashGet (hashAt db key) f).
Proof.
  intros D C. cbv zeta. rewrite (addStructHash_run key r o rank w D C).
  unfold hashOrFree.
  assert (Good :
    let h' := fst (redis_server.hashSet
                     (fst (redis_server.hashSet
                             (hashAt (server (conn w)) key)
                             "Info" (fmt.SprintDetailsPtr o)))
                     "Rank" (strconv.FormatInt rank)) in
    let db' := <[key := RHash h']> (server (conn w)) in
    db' !! key = Some (RHash (hashAt db' key)) /\
    redis_server.hashGet (hashAt db' key) "Info"
    = Some (fmt.SprintDetailsPtr o) /\
    redis_server.hashGet (hashAt db' key) "Rank"
    = Some (strconv.FormatInt rank) /\
    forall f, f <> "Info" -> f <> "Rank" ->
      redis_server.hashGet (hashAt db' key) f
      = redis_server.hashGet (hashAt (server (conn w)) key) f).
  { cbv zeta. rewrite !hashAt_insert. rewrite lookup_insert_eq.
    split; [reflexivity |]. split; [| split].
    - rewrite hashGet_hashSet_ne by discriminate. apply hashGet_hashSet.
    - apply hashGet_hashSet.
    - intros f N1 N2. now rewrite !hashGet_hashSet_ne. }
  destruct (server (conn w) !! key) as [[h | doc | s] |] eqn:K;
    cbn [fst snd afterCommand conn server].
  - split; [tauto |]. split; [congruence |]. intros _. exact Good.
  - split; [split; [discriminate | contradiction] |].
    split; [reflexivity | discriminate].
  - split; [split; [discriminate | contradiction] |].
    split; [reflexivity | discriminate].
  - split; [tauto |]. split; [congruence |]. intros _. exact Good.
Qed.

Lemma addStructHash_outcome_witness :
  let w1 := fst (addStructHash "H" (VStudent john) worldWithBoth) in
  snd (addStructHash "H" (VStudent john) worldWithBoth) = Ok tt /\
  redis_server.hashGet (hashAt (server (conn w1)) "H") "Info"
  = Some "&{John Doe CSE}" /\
  redis_server.hashGet (hashAt (server (conn w1)) "H") "Note" = Some "x".
Proof.
  destruct (addStructHash_outcome "H" john (Some johnDoe) 1 worldWithBoth
              eq_refl eq_refl) as (S & _ & E).
  cbv zeta.
  assert (R : snd (addStructHash "H" (VStudent john) worldWithBoth) = Ok tt)
    by (apply S; exact I).
  destruct (E R) as (_ & E1 & _ & E3).
  split; [exact R |]. split; [exact E1 |].
  rewrite E3 by discriminate. reflexivity.
Defined.

(** X10. [addStructHashWithJSON] for a record, on an open connection.  It
    succeeds exactly when the key is free or holds a hash; otherwise the
    error is the wrong-type error of the server.  After a success the
    key holds a hash whose field [JSON] is the text [json.Marshal]
    writes for the record, and whose other fields are what they were. *)
Theorem addStructHashWithJSON_outcome
    (key : string) (r : Student) (o : option StudentDetails) (rank : Z)
    (w : World) :
  deepValue w r = Some (o, rank) ->
  closed (conn w) = false ->
  let res := snd (addStructHashWithJSON key (VStudent r) w) in
  let db := server (conn w) in
  let db' := server (conn (fst (addStructHashWithJSON key (VStudent r) w))) in
  (res = Ok tt <-> hashOrFree db key) /\
  (res <> Ok tt -> res = Err (RedisError redis_server.wrongType)) /\
  (res = Ok tt ->
   db' !! key = Some (RHash (hashAt db' key)) /\
   redis_server.hashGet (hashAt db' key) "JSON"
   = Some (json.encodeStudent o rank) /\
   forall f, f <> "JSON" ->
     redis_server.hashGet (hashAt db' key) f
     = redis_server.hashGet (hashAt db key) f).
Proof.
  intros D C. cbv zeta.
  rewrite (addStructHashWithJSON_run key _ _ w (Marshal_deep _ _ _ _ D) C).
  unfold hashOrFree.
  assert (Good :
    let h' := fst (redis_server.hashSet (hashAt (server (conn w)) key)
                     "JSON" (json.encodeStudent o rank)) in
    let db' := <[key := RHash h']> (server (conn w)) in
    db' !! key = Some (RHash (hashAt db' key)) /\
    redis_server.hashGet (hashAt db' key) "JSON"
    = Some (json.encodeStudent o rank) /\
    forall f, f <> "JSON" ->
      redis_server.hashGet (hashAt db' key) f
      = redis_server.hashGet (hashAt (server (conn w)) key) f).
  { cbv zeta. rewrite !hashAt_insert. rewrite lookup_insert_eq.
    split; [reflexivity |]. split; [apply hashGet_hashSet |].
    intros f N. now rewrite hashGet_hashSet_ne. }
  destruct (server (conn w) !! key) as [[h | doc | s] |] eqn:K;
    cbn [fst snd afterCommand conn server].
  - split; [tauto |]. split; [congruence |]. intros _. exact Good.
  - split; [split; [discriminate | contradiction] |].
    split; [reflexivity | discriminate].
  - split; [split; [discriminate | contradiction] |].
    split; [reflexivity | discriminate].
  - split; [tauto |]. split; [congruence |]. intros _. exact Good.
Qed.

Lemma addStructHashWithJSON_outcome_witness :
  let w1 := fst (addStructHashWithJSON "H" (VStudent john) worldWithBoth) in
  snd (addStructHashWithJSON "H" (VStudent john) worldWithBoth) = Ok tt /\
  redis_server.hashGet (hashAt (server (conn w1)) "H") "JSON"
  = Some johnDoeText /\
  redis_server.hashGet (hashAt (server (conn w1)) "H") "Note" = Some "x".
Proof.
  destruct (addStructHashWithJSON_outcome "H" john (Some johnDoe) 1
              worldWithBoth eq_refl eq_refl) as (S & _ & E).
  cbv zeta.
  assert (R : snd (addStructHashWithJSON "H" (VStudent john) worldWithBoth)
              = Ok tt) by (apply S; exact I).
  destruct (E R) as (_ & E1 & E3).
  split; [exact R |]. split; [exact E1 |].
  rewrite E3 by discriminate. reflexivity.
Defined.

(** X11. [addStructReJSON] for a record of valid strings, on an open
    connection.  It succeeds exactly when the key is free or holds a
    JSON document; otherwise the error is the wrong-type error of the
    server.  After a success the key holds the JSON value of the record
    and nothing else: a document that was there before is replaced as a
    whole. *)
Theorem addStructReJSON_outcome
    (key : string) (r : Student) (o : option StudentDetails) (rank : Z)
    (w : World) :
  deepValue w r = Some (o, rank) ->
  validInfo o -> isInt64 rank ->
  closed (conn w) = false ->
  let res := snd (addStructReJSON key (VStudent r) w) in
  let db := server (conn w) in
  let db' := server (conn (fst (addStructReJSON key (VStudent r) w))) in
  (res = Ok tt <-> docOrFree db key) /\
  (res <> Ok tt -> res = Err (RedisError redis_server.wrongType)) /\
  (res = Ok tt -> db' !! key = Some (RJson (studentJSON o rank))).
Proof.
  intros D V I C. cbv zeta.
  rewrite (addStructReJSON_run key _ _ w (Marshal_deep _ _ _ _ D) C).
  rewrite (parse_encodeStudent o rank V I).
  unfold docOrFree.
  destruct (server (conn w) !! key) as [[h | doc | s] |] eqn:K;
    cbn [fst snd afterCommand conn server].
  - split; [split; [discriminate | contradiction] |].
    split; [reflexivity | discriminate].
  - split; [tauto |]. split; [congruence |]. intros _.
    apply lookup_insert_eq.
  - split; [split; [discriminate | contradiction] |].
    split; [reflexivity | discriminate].
  - split; [tauto |]. split; [congruence |]. intros _.
    apply lookup_insert_eq.
Qed.

Lemma addStructReJSON_outcome_witness :
  server (conn worldWithBoth) !! "D"
  = Some (RJson (JObject [("old", JNumber "7")])) /\
  snd (addStructReJSON "D" (VStudent john) worldWithBoth) = Ok tt /\
  server (conn (fst (addStructReJSON "D" (VStudent john) worldWithBoth)))
    !! "D"
  = Some (RJson (studentJSON (Some johnDoe) 1)).
Proof.
  split; [reflexivity |].
  assert (I64 : isInt64 1) by (unfold isInt64; vm_compute; split; discriminate).
  destruct (addStructReJSON_outcome "D" john (Some johnDoe) 1 worldWithBoth
              eq_refl (conj eq_refl (conj eq_refl eq_refl)) I64 eq_refl)
    as (S & _ & E).
  assert (R : snd (addStructReJSON "D" (VStudent john) worldWithBoth) = Ok tt)
    by (apply S; exact I).
  split; [exact R | exact (E R)].
Defined.

(** ** How the operations compose *)

(** X12. The hash encodings and the native JSON encoding cannot share a key.
    Whatever value was written: after a successful [addStructHash] or
    [addStructHashWithJSON], [getStructReJSON] for the same key returns
    the wrong-type error; after a successful [addStructReJSON],
    [getStructHashWithJSON] for the same key returns the wrong-type
    error. *)
Theorem hash_and_document_keys_do_not_mix
    (key : string) (value : Value) (w : World) :
  (snd (addStructHash key value w) = Ok tt ->
   snd (getStructReJSON key (fst (addStructHash key value w)))
   = Err (RedisError redis_server.wrongType)) /\
  (snd (addStructHashWithJSON key value w) = Ok tt ->
   snd (getStructReJSON key (fst (addStructHashWithJSON key value w)))
   = Err (RedisError redis_server.wrongType)) /\
  (snd (addStructReJSON key value w) = Ok tt ->
   snd (getStructHashWithJSON key (fst (addStructReJSON key value w)))
   = Err (RedisError redis_server.wrongType)).
Proof.
  assert (Hash : forall name (m : Prog unit),
            name = "HMSET" \/ name = "HSET" ->
            oneCommandOn name key m ->
            snd (m w) = Ok tt ->
            snd (getStructReJSON key (fst (m w)))
            = Err (RedisError redis_server.wrongType)).
  { intros name m N One R.
    destruct (oneCommandOn_hash name key m w N One) as [C [h K]].
    - now rewrite R.
    - rewrite (getStructReJSON_run key _ C), K. reflexivity. }
  split; [apply (Hash "HMSET"); [now left | apply addStructHash_one] |].
  split; [apply (Hash "HSET"); [now right | apply addStructHashWithJSON_one] |].
  intros R.
  destruct (addStructReJSON key value w) as [w1 res] eqn:E.
  cbn [fst snd] in *. subst res.
  destruct (addStructReJSON_Ok _ _ _ _ E) as (b & v & _ & _ & _ & _ & ->).
  rewrite getStructHashWithJSON_run by reflexivity.
  cbn [afterCommand conn server snd]. now rewrite lookup_insert_eq.
Qed.

Lemma hash_and_document_keys_do_not_mix_witness :
  snd (addStructReJSON "JohnDoeJSON" (VStudent john) worldWithJohn) = Ok tt /\
  snd (getStructHashWithJSON "JohnDoeJSON"
         (fst (addStructReJSON "JohnDoeJSON" (VStudent john) worldWithJohn)))
  = Err (RedisError redis_server.wrongType).
Proof.
  assert (R : snd (addStructReJSON "JohnDoeJSON" (VStudent john) worldWithJohn)
              = Ok tt) by (vm_compute; reflexivity).
  split; [exact R |].
  exact (proj2 (proj2 (hash_and_document_keys_do_not_mix
                         "JohnDoeJSON" (VStudent john) worldWithJohn)) R).
Defined.

(** X13. [getStructHashWithJSON] returns byte for byte the text that
    [addStructHashWithJSON] wrote, for every value that [json.Marshal]
    can encode: the store keeps the text as it is.  (So a string that is
    not valid UTF-8 is changed by the encoder, not by the store.) *)
Theorem json_in_hash_reads_back_the_bytes_written
    (key : string) (value : Value) (w w1 : World) :
  addStructHashWithJSON key value w = (w1, Ok tt) ->
  exists b,
    json.Marshal value w = (w, Ok b) /\
    snd (getStructHashWithJSON key w1) = Ok (RBulk b) /\
    snd (readBytes getStructHashWithJSON key w1) = Ok b.
Proof.
  intros H.
  destruct (addStructHashWithJSON_Ok _ _ _ _ H) as (b & M & C & K & ->).
  exists b. split; [exact M |].
  unfold readBytes, bind.
  rewrite getStructHashWithJSON_run by reflexivity.
  cbn [afterCommand conn server snd]. rewrite lookup_insert_eq.
  unfold hgetAnswer. rewrite hashGet_hashSet. split; reflexivity.
Qed.

Lemma json_in_hash_reads_back_the_bytes_written_witness :
  exists b,
    json.Marshal (VStudent john) worldWithRaw = (worldWithRaw, Ok b) /\
    snd (getStructHashWithJSON "JohnDoeHashJSON"
           (fst (addStructHashWithJSON "JohnDoeHashJSON" (VStudent john)
                   worldWithRaw)))
    = Ok (RBulk b) /\
    snd (readBytes getStructHashWithJSON "JohnDoeHashJSON"
           (fst (addStructHashWithJSON "JohnDoeHashJSON" (VStudent john)
                   worldWithRaw)))
    = Ok b.
Proof.
  apply (json_in_hash_reads_back_the_bytes_written
           "JohnDoeHashJSON" (VStudent john) worldWithRaw).
  vm_compute. reflexivity.
Defined.

(** ** The JSON value of a record determines the record *)

Lemma FormatInt_inj i j :
  isInt64 i -> isInt64 j ->
  strconv.FormatInt i = strconv.FormatInt j -> i = j.
Proof.
  intros Hi Hj E.
  pose proof (ParseInt_FormatInt i Hi) as Pi.
  pose proof (ParseInt_FormatInt j Hj) as Pj.
  rewrite E in Pi. congruence.
Qed.

Lemma detailsJSON_inj d1 d2 : detailsJSON d1 = detailsJSON d2 -> d1 = d2.
Proof.
  destruct d1, d2. unfold detailsJSON. cbn. intros E.
  injection E as -> -> ->. reflexivity.
Qed.

Lemma studentJSON_inj o1 rank1 o2 rank2 :
  isInt64 rank1 -> isInt64 rank2 ->
  studentJSON o1 rank1 = studentJSON o2 rank2 ->
  o1 = o2 /\ rank1 = rank2.
Proof.
  intros I1 I2. unfold studentJSON.
  destruct o1 as [d1 |], o2 as [d2 |];
    destruct (Z.eqb_spec rank1 0) as [-> | N1];
    destruct (Z.eqb_spec rank2 0) as [-> | N2];
    cbn [app]; intros E; try discriminate E.
  - pose proof (f_equal (fun j => match j with
                                   | JObject ((_, v) :: _) => v
                                   | _ => JNull
                                   end) E) as E1.
    cbv beta iota in E1. apply detailsJSON_inj in E1. subst.
    split; reflexivity.
  - pose proof (f_equal (fun j => match j with
                                   | JObject ((_, v) :: _) => v
                                   | _ => JNull
                                   end) E) as E1.
    pose proof (f_equal (fun j => match j with
                                   | JObject (_ :: (_, JNumber n) :: _) => n
                                   | _ => EmptyString
                                   end) E) as E2.
    cbv beta iota in E1, E2. apply detailsJSON_inj in E1.
    apply FormatInt_inj in E2; try assumption. subst. split; reflexivity.
  - split; reflexivity.
  - injection E as E. apply FormatInt_inj in E; try assumption.
    subst. split; reflexivity.
Qed.

Lemma encodeStudent_inj o1 rank1 o2 rank2 :
  validInfo o1 -> validInfo o2 -> isInt64 rank1 -> isInt64 rank2 ->
  json.encodeStudent o1 rank1 = json.encodeStudent o2 rank2 ->
  o1 = o2 /\ rank1 = rank2.
Proof.
  intros V1 V2 I1 I2 E.
  pose proof (parse_encodeStudent o1 rank1 V1 I1) as P1.
  pose proof (parse_encodeStudent o2 rank2 V2 I2) as P2.
  rewrite E in P1.
  assert (P : studentJSON o1 rank1 = studentJSON o2 rank2) by congruence.
  now apply studentJSON_inj.
Qed.

Lemma exec_HMSET db key fvs :
  redis_server.exec db ("HMSET" :: key :: fvs)
  = redis_server.hashWrite db key fvs true.
Proof. reflexivity. Qed.


(** X14. The two JSON encodings agree as JSON values.  For a record of valid
    strings, the text read back from the hash is the text of
    [json.Marshal], the text read back from the native document is the
    server's rendering of the document, and both parse to the JSON value
    of the record.  (The texts themselves can differ: Go escapes [<],
    [>] and [&], the server does not.) *)
Theorem json_encodings_agree
    (key key' : string) (r : Student) (o : option StudentDetails) (rank : Z)
    (w wa wb : World) :
  deepValue w r = Some (o, rank) ->
  validInfo o -> isInt64 rank ->
  addStructHashWithJSON key (VStudent r) w = (wa, Ok tt) ->
  addStructReJSON key' (VStudent r) w = (wb, Ok tt) ->
  snd (getStructHashWithJSON key wa) = Ok (RBulk (json.encodeStudent o rank)) /\
  snd (getStructReJSON key' wb)
  = Ok (RBulk (redis_server.serialize (studentJSON o rank))) /\
  jsontext.parseJSON (json.encodeStudent o rank) = Some (studentJSON o rank) /\
  jsontext.parseJSON (redis_server.serialize (studentJSON o rank))
  = Some (studentJSON o rank).
Proof.
  intros D V I Ha Hb.
  pose proof (Marshal_deep _ _ _ _ D) as M.
  pose proof (parse_encodeStudent o rank V I) as P.
  destruct (addStructHashWithJSON_Ok _ _ _ _ Ha) as (b & Mb & _ & _ & ->).
  destruct (addStructReJSON_Ok _ _ _ _ Hb) as (b' & v & Mb' & Pv & _ & _ & ->).
  rewrite M in Mb, Mb'. injection Mb as <-. injection Mb' as <-.
  assert (Ev : v = studentJSON o rank) by congruence. subst v.
  split.
  { rewrite getStructHashWithJSON_run by reflexivity.
    cbn [afterCommand conn server snd]. rewrite lookup_insert_eq.
    unfold hgetAnswer. now rewrite hashGet_hashSet. }
  split.
  { rewrite getStructReJSON_run by reflexivity.
    cbn [afterCommand conn server snd]. now rewrite lookup_insert_eq. }
  split; [exact P | now apply parse_serialize_student].
Qed.

Lemma json_encodings_agree_witness :
  let wa := fst (addStructHashWithJSON "A" (VStudent sparse) worldWithSparse) in
  let wb := fst (addStructReJSON "B" (VStudent sparse) worldWithSparse) in
  exists b b',
    snd (getStructHashWithJSON "A" wa) = Ok (RBulk b) /\
    snd (getStructReJSON "B" wb) = Ok (RBulk b') /\
    jsontext.parseJSON b = jsontext.parseJSON b' /\
    b <> b'.
Proof.
  cbv zeta.
  assert (I64 : isInt64 0) by (unfold isInt64; vm_compute; split; discriminate).
  destruct (json_encodings_agree "A" "B" sparse (Some sparseDetails) 0
              worldWithSparse _ _ eq_refl
              (conj eq_refl (conj eq_refl eq_refl)) I64 eq_refl eq_refl)
    as (Ra & Rb & Pa & Pb).
  exists (json.encodeStudent (Some sparseDetails) 0),
         (redis_server.serialize (studentJSON (Some sparseDetails) 0)).
  split; [exact Ra |]. split; [exact Rb |].
  split; [now rewrite Pa, Pb |].
  vm_compute. discriminate.
Defined.

(** X15. The flattened encoding cannot tell some Details apart.  [fmt]
    writes the fields of the Detail one after the other with a space in
    between and no quotes, so moving a word from the end of one field to
    the start of the next gives a different Detail and the very same
    call: the same command, the same store afterwards, the same
    result. *)
Theorem flattened_encoding_confuses_details
    (key a b c m : string) (rank : Z) (l1 l2 : loc) (w : World) :
  heap w !! l1 = Some (mkStudentDetails (a +:+ " " +:+ b) c m) ->
  heap w !! l2 = Some (mkStudentDetails a (b +:+ " " +:+ c) m) ->
  mkStudentDetails (a +:+ " " +:+ b) c m
  <> mkStudentDetails a (b +:+ " " +:+ c) m /\
  addStructHash key (VStudent (mkStudent (Some l1) rank)) w
  = addStructHash key (VStudent (mkStudent (Some l2) rank)) w.
Proof.
  intros H1 H2. split.
  - intros E. injection E as E _.
    apply (f_equal String.length) in E.
    rewrite !length_append in E. cbn in E. lia.
  - rewrite (addStructHash_record key _ (Some (mkStudentDetails (a +:+ " " +:+ b) c m)) rank w)
      by (unfold deepValue; cbn [Info Rank]; now rewrite H1).
    rewrite (addStructHash_record key _ (Some (mkStudentDetails a (b +:+ " " +:+ c) m)) rank w)
      by (unfold deepValue; cbn [Info Rank]; now rewrite H2).
    unfold fmt.SprintDetailsPtr. cbn [FirstName LastName Major].
    now rewrite !append_assoc.
Qed.

Lemma flattened_encoding_confuses_details_witness :
  johnPaul <> paulDoe /\
  addStructHash "K" (VStudent (mkStudent (Some 1%positive) 1)) worldWithTwo
  = addStructHash "K" (VStudent (mkStudent (Some 2%positive) 1)) worldWithTwo.
Proof.
  apply (flattened_encoding_confuses_details
           "K" "John" "Paul" "Doe" "CSE" 1 1%positive 2%positive worldWithTwo);
    reflexivity.
Defined.

(** X16. The JSON encodings tell records apart.  When two records of valid
    strings differ in their Detail or in their rank, writing the one and
    writing the other with the same JSON operation, under the same key
    and from the same world, leave different stores. *)
Theorem json_encodings_tell_records_apart
    (write : string -> Value -> Prog unit)
    (key : string) (r1 r2 : Student)
    (o1 o2 : option StudentDetails) (rank1 rank2 : Z) (w : World) :
  write = addStructHashWithJSON \/ write = addStructReJSON ->
  deepValue w r1 = Some (o1, rank1) ->
  deepValue w r2 = Some (o2, rank2) ->
  validInfo o1 -> validInfo o2 -> isInt64 rank1 -> isInt64 rank2 ->
  deepValue w r1 <> deepValue w r2 ->
  snd (write key (VStudent r1) w) = Ok tt ->
  server (conn (fst (write key (VStudent r1) w)))
  <> server (conn (fst (write key (VStudent r2) w))).
Proof.
  intros Wr D1 D2 V1 V2 I1 I2 Ne R S. apply Ne. rewrite D1, D2.
  assert (C : closed (conn w) = false).
  { destruct (closed (conn w)) eqn:C; [| reflexivity].
    destruct Wr as [-> | ->].
    - destruct (oneCommandOn_closed _ key _ w
                  (addStructHashWithJSON_one key (VStudent r1)) C) as [_ E].
      rewrite R in E. discriminate E.
    - destruct (oneCommandOn_closed _ key _ w
                  (addStructReJSON_one key (VStudent r1)) C) as [_ E].
      rewrite R in E. discriminate E. }
  assert (E : o1 = o2 /\ rank1 = rank2); [| destruct E; congruence].
  pose proof (f_equal (fun db => db !! key) S) as K. cbv beta in K.
  destruct Wr as [-> | ->].
  - rewrite (addStructHashWithJSON_run key _ _ w (Marshal_deep _ _ _ _ D1) C)
      in R, K.
    rewrite (addStructHashWithJSON_run key _ _ w (Marshal_deep _ _ _ _ D2) C)
      in K.
    destruct (server (conn w) !! key) as [[h | doc | s] |];
      try discriminate R; cbn [fst afterCommand conn server] in K;
      rewrite !lookup_insert_eq in K;
      (assert (G : redis_server.hashGet
                     (fst (redis_server.hashSet (hashAt (server (conn w)) key)
                             "JSON" (json.encodeStudent o1 rank1))) "JSON"
                   = redis_server.hashGet
                       (fst (redis_server.hashSet (hashAt (server (conn w)) key)
                               "JSON" (json.encodeStudent o2 rank2))) "JSON")
         by congruence);
      rewrite !hashGet_hashSet in G; injection G as G;
      now apply encodeStudent_inj.
  - rewrite (addStructReJSON_run key _ _ w (Marshal_deep _ _ _ _ D1) C)
      in R, K.
    rewrite (addStructReJSON_run key _ _ w (Marshal_deep _ _ _ _ D2) C) in K.
    rewrite (parse_encodeStudent o1 rank1 V1 I1) in R, K.
    rewrite (parse_encodeStudent o2 rank2 V2 I2) in K.
    destruct (server (conn w) !! key) as [[h | doc | s] |];
      try discriminate R; cbn [fst afterCommand conn server] in K;
      rewrite !lookup_insert_eq in K;
      (assert (G : studentJSON o1 rank1 = studentJSON o2 rank2) by congruence);
      now apply studentJSON_inj.
Qed.

Lemma json_encodings_tell_records_apart_witness :
  server (conn (fst (addStructHashWithJSON "K"
                       (VStudent (mkStudent (Some 1%positive) 1)) worldWithTwo)))
  <> server (conn (fst (addStructHashWithJSON "K"
                          (VStudent (mkStudent (Some 2%positive) 1))
                          worldWithTwo))).
Proof.
  assert (I64 : isInt64 1) by (unfold isInt64; vm_compute; split; discriminate).
  apply (json_encodings_tell_records_apart addStructHashWithJSON "K"
           (mkStudent (Some 1%positive) 1) (mkStudent (Some 2%positive) 1)
           (Some johnPaul) (Some paulDoe) 1 1 worldWithTwo).
  - now left.
  - reflexivity.
  - reflexivity.
  - repeat split.
  - repeat split.
  - exact I64.
  - exact I64.
  - vm_compute. discriminate.
  - vm_compute. reflexivity.
Defined.



(** X18. The flattening is exact for a flat struct.  [addStructHash] given
    the pointer to a Detail stores each of its three strings, byte for
    byte, under the name of its field; read back under the key
    ["JohnDoeHash"] with [redis.StringMap], the mapping has exactly
    these three entries. *)
Theorem flattened_detail_round_trip
    (l : loc) (d : StudentDetails) (w : World) :
  heap w !! l = Some d ->
  closed (conn w) = false ->
  server (conn w) !! "JohnDoeHash" = None ->
  let w1 := fst (addStructHash "JohnDoeHash" (VDetailsPtr (Some l)) w) in
  snd (addStructHash "JohnDoeHash" (VDetailsPtr (Some l)) w) = Ok tt /\
  snd (readFlattened "JohnDoeHash" w1)
  = Ok (<["Major" := Major d]>
          (<["LastName" := LastName d]>
             (<["FirstName" := FirstName d]> ∅))).
Proof.
  intros HL C K. cbv zeta.
  assert (E : addStructHash "JohnDoeHash" (VDetailsPtr (Some l)) w
    = (afterCommand w
         ["HMSET"; "JohnDoeHash"; "FirstName"; FirstName d;
          "LastName"; LastName d; "Major"; Major d]
         (<["JohnDoeHash" :=
              RHash [("FirstName", FirstName d); ("LastName", LastName d);
                     ("Major", Major d)]]> (server (conn w))),
       Ok tt)).
  { unfold addStructHash, redis.AddFlat, redis.flattenDetails.
    unfold bind at 1. unfold bind at 1. unfold load. rewrite HL.
    cbn [ret app].
    unfold redis.Do, redis.writeArgs, redis.writeArg.
    unfold bind, ret. cbv beta iota.
    rewrite (roundTrip_open _ _ C), exec_HMSET.
    unfold redis_server.hashWrite. rewrite K. reflexivity. }
  rewrite E. cbn [fst snd]. split; [reflexivity |].
  unfold readFlattened, bind.
  rewrite getStructHash_run by reflexivity.
  cbn [afterCommand conn server]. rewrite lookup_insert_eq. reflexivity.
Qed.

Lemma flattened_detail_round_trip_witness :
  snd (readFlattened "JohnDoeHash"
         (fst (addStructHash "JohnDoeHash" (VDetailsPtr (Some 1%positive))
                 worldWithRaw)))
  = Ok (<["Major" := "CSE"]>
          (<["LastName" := "Doe"]>
             (<["FirstName" := String (toByte 255) EmptyString]> ∅))).
Proof.
  apply (flattened_detail_round_trip 1%positive rawDetails worldWithRaw);
    reflexivity.
Defined.

(** X19. A record whose Detail pointer is nil round-trips through both JSON
    encodings, whatever its rank: on an open connection and a key that
    is free or holds a value of the right kind, the write succeeds, the
    read returns bytes, and [json.Unmarshal] of them into a zero
    [Student] gives the record written, its pointer still nil. *)
Theorem nil_detail_round_trip (key : string) (r : Student) (w : World) :
  Info r = None ->
  isInt64 (Rank r) ->
  closed (conn w) = false ->
  (hashOrFree (server (conn w)) key ->
   exists w',
     roundTrip addStructHashWithJSON getStructHashWithJSON key r w
     = (w', Ok r)) /\
  (docOrFree (server (conn w)) key ->
   exists w',
     roundTrip addStructReJSON getStructReJSON key r w = (w', Ok r)).
Proof.
  intros N I64 C.
  assert (D : deepValue w r = Some (None, Rank r))
    by (unfold deepValue; now rewrite N).
  pose proof (Marshal_deep _ _ _ _ D) as M.
  assert (Same : forall data w2,
            jsontext.parseJSON data = Some (studentJSON None (Rank r)) ->
            exists w', json.Unmarshal data zeroStudent w2 = (w', Ok r)).
  { intros data w2 P.
    destruct (Unmarshal_studentJSON _ _ _ w2 P I64) as (w' & out & U & DV & _ & NI).
    exists w'. unfold zeroStudent. rewrite U. f_equal. f_equal.
    specialize (NI eq_refl). unfold deepValue in DV. rewrite NI in DV.
    destruct out as [oi orank], r as [ri rrank]. cbn in *. subst.
    injection DV as ->. reflexivity. }
  split; intros K; unfold roundTrip.
  - unfold bind at 1.
    rewrite (addStructHashWithJSON_run key _ _ w M C).
    unfold hashOrFree in K.
    destruct (server (conn w) !! key) as [[h | doc | s] |] eqn:EK;
      try contradiction;
      (unfold bind at 1; rewrite getStructHashWithJSON_run by reflexivity;
       cbn [afterCommand conn server]; rewrite lookup_insert_eq;
       unfold hgetAnswer; rewrite hashGet_hashSet;
       unfold bind at 1; cbn [assertBytes ret];
       apply Same, parse_encodeStudent; [exact I | exact I64]).
  - unfold bind at 1.
    rewrite (addStructReJSON_run key _ _ w M C).
    rewrite (parse_encodeStudent None (Rank r) I I64).
    unfold docOrFree in K.
    destruct (server (conn w) !! key) as [[h | doc | s] |] eqn:EK;
      try contradiction;
      (unfold bind at 1; rewrite getStructReJSON_run by reflexivity;
       cbn [afterCommand conn server]; rewrite lookup_insert_eq;
       unfold jsonGetAnswer;
       unfold bind at 1; cbn [assertBytes ret];
       apply Same, parse_serialize_student; [exact I | exact I64]).
Qed.

Lemma nil_detail_round_trip_witness :
  (exists w',
     roundTrip addStructHashWithJSON getStructHashWithJSON "K" ranked emptyWorld
     = (w', Ok ranked)) /\
  (exists w',
     roundTrip addStructReJSON getStructReJSON "K" ranked emptyWorld
     = (w', Ok ranked)).
Proof.
  assert (I64 : isInt64 (Rank ranked))
    by (unfold isInt64; vm_compute; split; discriminate).
  destruct (nil_detail_round_trip "K" ranked emptyWorld eq_refl I64 eq_refl)
    as [A B].
  split; [apply A | apply B]; exact I.
Defined.

Lemma closed_reads_are_errors w key :
  closed (conn w) = true ->
  snd (getStructHash key w) = Err ConnError /\
  snd (getStructReJSON key w) = Err ConnError /\
  snd (getStructHashWithJSON key w) = Err ConnError.
Proof.
  intros C.
  change (getStructHash key w)
    with (redis.roundTrip ["HGETALL"; "JohnDoeHash"] w).
  change (getStructReJSON key w)
    with (redis.roundTrip ["JSON.GET"; key; ""] w).
  unfold getStructHashWithJSON.
  change (redis.Do "HGET" [VString key; VString "JSON"])
    with (redis.roundTrip ["HGET"; key; "JSON"]).
  unfold bind. rewrite !(roundTrip_closed _ w C). repeat split.
Qed.

(** X20. A write under one key does not change what a read of another key
    returns.  Whatever the value written and the outcome of the write,
    the two JSON reads for a key other than the one written return what
    they would have returned before the write; so does [getStructHash]
    when the key written is not ["JohnDoeHash"], the key it reads. *)
Theorem write_does_not_change_other_reads
    (write : string -> Value -> Prog unit)
    (key : string) (value : Value) (w : World) (other : string) :
  write = addStructHash \/ write = addStructReJSON
  \/ write = addStructHashWithJSON ->
  let w1 := fst (write key value w) in
  (other <> key ->
   snd (getStructReJSON other w1) = snd (getStructReJSON other w) /\
   snd (getStructHashWithJSON other w1)
   = snd (getStructHashWithJSON other w)) /\
  (key <> "JohnDoeHash" ->
   snd (getStructHash other w1) = snd (getStructHash other w)).
Proof.
  intros Wr. cbv zeta.
  assert (One : exists name, oneCommandOn name key (write key value)).
  { destruct Wr as [-> | [-> | ->]]; eexists.
    - apply addStructHash_one.
    - apply addStructReJSON_one.
    - apply addStructHashWithJSON_one. }
  destruct One as [name One].
  destruct (oneCommandOn_rest _ _ _ w One) as (_ & _ & C1).
  pose proof (fun k => oneCommandOn_frame _ _ _ w k One) as F.
  set (w1 := fst (write key value w)) in *.
  destruct (closed (conn w)) eqn:C.
  - destruct (closed_reads_are_errors w other C) as (A1 & A2 & A3).
    destruct (closed_reads_are_errors w1 other C1) as (B1 & B2 & B3).
    split; intros _; [split |]; congruence.
  - split; [intros N; split | intros N].
    + rewrite (getStructReJSON_run other w1 C1), (getStructReJSON_run other w C).
      cbn [snd]. now rewrite F.
    + rewrite (getStructHashWithJSON_run other w1 C1),
              (getStructHashWithJSON_run other w C).
      cbn [snd]. now rewrite F.
    + rewrite (getStructHash_run other w1 C1), (getStructHash_run other w C).
      cbn [snd]. now rewrite F by congruence.
Qed.

Lemma write_does_not_change_other_reads_witness :
  let w1 := fst (addStructHashWithJSON "H" (VStudent john) worldWithBoth) in
  snd (getStructReJSON "D" w1)
  = Ok (RBulk (redis_server.serialize (JObject [("old", JNumber "7")]))).
Proof.
  cbv zeta.
  destruct (write_does_not_change_other_reads addStructHashWithJSON
              "H" (VStudent john) worldWithBoth "D") as [A _].
  { right. now right. }
  destruct A as [A _]; [discriminate |].
  rewrite A. vm_compute. reflexivity.
Defined.



Lemma flattened_detail_is_one_string_witness :
  exists m,
    snd (readFlattened "JohnDoeHash"
           (fst (addStructHash "JohnDoeHash" (VStudent john) worldWithJohn)))
    = Ok m /\
    m !! "Info" = Some "&{John Doe CSE}" /\
    m !! "FirstName" = None /\ m !! "LastName" = None /\ m !! "Major" = None.
Proof.
  apply (flattened_detail_is_one_string john 1%positive johnDoe worldWithJohn);
    reflexivity.
Defined.

(** ** Writing twice *)

Lemma hashSet_same h f v :
  redis_server.hashGet h f = Some v ->
  fst (redis_server.hashSet h f v) = h.
Proof.
  induction h as [| [k x] h IH]; cbn [redis_server.hashGet redis_server.hashSet].
  - discriminate.
  - destruct (String.eqb k f) eqn:E.
    + intros H. injection H as ->. reflexivity.
    + intros H. specialize (IH H).
      destruct (redis_server.hashSet h f v) as [h' created].
      cbn [fst] in *. now rewrite IH.
Qed.

Lemma hashSet_again h f v :
  fst (redis_server.hashSet (fst (redis_server.hashSet h f v)) f v)
  = fst (redis_server.hashSet h f v).
Proof. apply hashSet_same, hashGet_hashSet. Qed.

Lemma addStructHash_twice key r o rank w :
  deepValue w r = Some (o, rank) ->
  closed (conn w) = false ->
  let w1 := fst (addStructHash key (VStudent r) w) in
  server (conn (fst (addStructHash key (VStudent r) w1))) = server (conn w1).
Proof.
  intros D C. cbv zeta. rewrite (addStructHash_run key r o rank w D C).
  set (a := fmt.SprintDetailsPtr o). set (n := strconv.FormatInt rank).
  set (cmd := ["HMSET"; key; "Info"; a; "Rank"; n]).
  set (h0 := hashAt (server (conn w)) key).
  set (h1 := fst (redis_server.hashSet
                    (fst (redis_server.hashSet h0 "Info" a)) "Rank" n)).
  assert (G1 : redis_server.hashGet h1 "Info" = Some a).
  { unfold h1. rewrite hashGet_hashSet_ne by discriminate.
    apply hashGet_hashSet. }
  assert (G2 : redis_server.hashGet h1 "Rank" = Some n)
    by apply hashGet_hashSet.
  assert (Again : fst (redis_server.hashSet
                         (fst (redis_server.hashSet h1 "Info" a)) "Rank" n)
                  = h1).
  { rewrite (hashSet_same h1 "Info" a G1). now apply hashSet_same. }
  assert (Ok2 :
    server (conn (fst (addStructHash key (VStudent r)
                         (afterCommand w cmd
                            (<[key := RHash h1]> (server (conn w)))))))
    = <[key := RHash h1]> (server (conn w))).
  { rewrite (addStructHash_run key r o rank
               (afterCommand w cmd (<[key := RHash h1]> (server (conn w))))
               D eq_refl).
    cbn [afterCommand conn server]. rewrite hashAt_insert, lookup_insert_eq.
    cbn [fst conn server]. fold a n. rewrite Again.
    apply insert_insert_eq. }
  assert (Err2 : forall v,
    server (conn w) !! key = Some v ->
    (forall h, v <> RHash h) ->
    server (conn (fst (addStructHash key (VStudent r)
                         (afterCommand w cmd (server (conn w))))))
    = server (conn w)).
  { intros v K NH.
    rewrite (addStructHash_run key r o rank
               (afterCommand w cmd (server (conn w))) D eq_refl).
    cbn [afterCommand conn server]. rewrite K.
    destruct v as [h | doc | s]; try reflexivity.
    exfalso. now apply (NH h). }
  destruct (server (conn w) !! key) as [[h | doc | s] |] eqn:K; cbn [fst].
  - exact Ok2.
  - apply (Err2 _ eq_refl). discriminate.
  - apply (Err2 _ eq_refl). discriminate.
  - exact Ok2.
Qed.

Lemma addStructHashWithJSON_twice key r o rank w :
  deepValue w r = Some (o, rank) ->
  closed (conn w) = false ->
  let w1 := fst (addStructHashWithJSON key (VStudent r) w) in
  server (conn (fst (addStructHashWithJSON key (VStudent r) w1)))
  = server (conn w1).
Proof.
  intros D C. cbv zeta.
  pose proof (Marshal_deep _ _ _ _ D) as M.
  rewrite (addStructHashWithJSON_run key _ _ w M C).
  set (b := json.encodeStudent o rank) in *.
  set (cmd := ["HSET"; key; "JSON"; b]).
  set (h1 := fst (redis_server.hashSet (hashAt (server (conn w)) key) "JSON" b)).
  assert (Ok2 :
    server (conn (fst (addStructHashWithJSON key (VStudent r)
                         (afterCommand w cmd
                            (<[key := RHash h1]> (server (conn w)))))))
    = <[key := RHash h1]> (server (conn w))).
  { rewrite (addStructHashWithJSON_run key _ b
               (afterCommand w cmd (<[key := RHash h1]> (server (conn w))))
               (Marshal_deep _ _ _ _ (D : deepValue (afterCommand _ _ _) r = _))
               eq_refl).
    cbn [afterCommand conn server]. rewrite hashAt_insert, lookup_insert_eq.
    cbn [fst conn server]. unfold h1. rewrite hashSet_again.
    apply insert_insert_eq. }
  assert (Err2 : forall v,
    server (conn w) !! key = Some v ->
    (forall h, v <> RHash h) ->
    server (conn (fst (addStructHashWithJSON key (VStudent r)
                         (afterCommand w cmd (server (conn w))))))
    = server (conn w)).
  { intros v K NH.
    rewrite (addStructHashWithJSON_run key _ b
               (afterCommand w cmd (server (conn w)))
               (Marshal_deep _ _ _ _ (D : deepValue (afterCommand _ _ _) r = _))
               eq_refl).
    cbn [afterCommand conn server]. rewrite K.
    destruct v as [h | doc | s]; try reflexivity.
    exfalso. now apply (NH h). }
  destruct (server (conn w) !! key) as [[h | doc | s] |] eqn:K; cbn [fst].
  - exact Ok2.
  - apply (Err2 _ eq_refl). discriminate.
  - apply (Err2 _ eq_refl). discriminate.
  - exact Ok2.
Qed.

Lemma addStructReJSON_twice key r o rank w :
  deepValue w r = Some (o, rank) ->
  closed (conn w) = false ->
  let w1 := fst (addStructReJSON key (VStudent r) w) in
  server (conn (fst (addStructReJSON key (VStudent r) w1)))
  = server (conn w1).
Proof.
  intros D C. cbv zeta.
  pose proof (Marshal_deep _ _ _ _ D) as M.
  rewrite (addStructReJSON_run key _ _ w M C).
  set (b := json.encodeStudent o rank) in *.
  set (cmd := ["JSON.SET"; key; "."; b]).
  assert (Run2 : forall db,
    addStructReJSON key (VStudent r) (afterCommand w cmd db)
    = match jsontext.parseJSON b with
      | None =>
        (afterCommand (afterCommand w cmd db) cmd db,
         Err (RedisError "ERR JSON lexer error"))
      | Some v =>
        match db !! key with
        | None | Some (RJson _) =>
          (afterCommand (afterCommand w cmd db) cmd (<[key := RJson v]> db),
           Ok tt)
        | Some _ =>
          (afterCommand (afterCommand w cmd db) cmd db,
           Err (RedisError redis_server.wrongType))
        end
      end).
  { intros db.
    apply (addStructReJSON_run key _ b (afterCommand w cmd db)
             (Marshal_deep _ _ _ _ (D : deepValue (afterCommand _ _ _) r = _))
             eq_refl). }
  destruct (jsontext.parseJSON b) as [v |] eqn:P.
  - destruct (server (conn w) !! key) as [[h | doc | s] |] eqn:K; cbn [fst];
      rewrite Run2; rewrite ?lookup_insert_eq, ?K; cbn [fst afterCommand conn server];
      try reflexivity; apply insert_insert_eq.
  - cbn [fst]. rewrite Run2. reflexivity.
Qed.

(** X22. Writing a record a second time changes nothing in the store: for
    each of the three write operations, the database after two calls
    with the same key and the same record is the database after one. *)
Theorem writing_twice_is_writing_once
    (write : string -> Value -> Prog unit)
    (key : string) (r : Student) (o : option StudentDetails) (rank : Z)
    (w : World) :
  write = addStructHash \/ write = addStructReJSON
  \/ write = addStructHashWithJSON ->
  deepValue w r = Some (o, rank) ->
  let w1 := fst (write key (VStudent r) w) in
  let w2 := fst (write key (VStudent r) w1) in
  server (conn w2) = server (conn w1).
Proof.
  intros Wr D. cbv zeta.
  destruct (closed (conn w)) eqn:C.
  { assert (E : fst (write key (VStudent r) w) = w).
    { destruct Wr as [-> | [-> | ->]].
      - exact (proj1 (oneCommandOn_closed _ key _ w
                        (addStructHash_one key _) C)).
      - exact (proj1 (oneCommandOn_closed _ key _ w
                        (addStructReJSON_one key _) C)).
      - exact (proj1 (oneCommandOn_closed _ key _ w
                        (addStructHashWithJSON_one key _) C)). }
    now rewrite !E. }
  destruct Wr as [-> | [-> | ->]].
  - exact (addStructHash_twice key r o rank w D C).
  - exact (addStructReJSON_twice key r o rank w D C).
  - exact (addStructHashWithJSON_twice key r o rank w D C).
Qed.

Lemma writing_twice_is_writing_once_witness :
  let w1 := fst (addStructHash "H" (VStudent john) worldWithBoth) in
  let w2 := fst (addStructHash "H" (VStudent john) w1) in
  server (conn w1) !! "H"
  = Some (RHash [("Note", "x"); ("Info", "&{John Doe CSE}"); ("Rank", "1")]) /\
  server (conn w2) = server (conn w1).
Proof.
  cbv zeta. split; [vm_compute; reflexivity |].
  apply (writing_twice_is_writing_once addStructHash "H" john
           (Some johnDoe) 1 worldWithBoth).
  - now left.
  - reflexivity.
Defined.

(** ** A run of [main] *)

(** Decoding the text of a record with a Detail into a zero [Student]
    allocates one object, which receives the Detail. *)
Lemma Unmarshal_record data d rank w :
  jsontext.parseJSON data = Some (studentJSON (Some d) rank) ->
  isInt64 rank ->
  let l := fresh (dom (heap w)) in
  json.Unmarshal data (mkStudent None 0) w
  = (mkWorld (<[l := d]> (<[l := mkStudentDetails "" "" ""]> (heap w)))
             (conn w) (stdout w),
     Ok (mkStudent (Some l) rank)).
Proof.
  intros P I l. unfold json.Unmarshal. rewrite P. unfold studentJSON.
  destruct (Z.eqb_spec rank 0) as [-> | NZ]; cbn [app json.decodeStudent].
  - change (json.findField ["info"; "rank"] "info") with (Some "info").
    cbv beta iota. change (String.eqb "info" "info") with true. cbv beta iota.
    unfold bind at 1. cbn [Info Rank]. rewrite decodeInfo_detailsJSON.
    reflexivity.
  - change (json.findField ["info"; "rank"] "info") with (Some "info").
    cbv beta iota. change (String.eqb "info" "info") with true. cbv beta iota.
    unfold bind at 1. cbn [Info Rank]. rewrite decodeInfo_detailsJSON.
    cbn [json.decodeStudent].
    change (json.findField ["info"; "rank"] "rank") with (Some "rank").
    cbv beta iota. change (String.eqb "rank" "info") with false. cbv beta iota.
    unfold bind at 1. rewrite decodeRank_FormatInt by exact I.
    reflexivity.
Qed.

Lemma keepsObjects_refl h : keepsObjects h h.
Proof. intros l d H. exact H. Qed.

Lemma keepsObjects_trans h1 h2 h3 :
  keepsObjects h1 h2 -> keepsObjects h2 h3 -> keepsObjects h1 h3.
Proof. intros A B l d H. apply B, A, H. Qed.

Lemma keepsObjects_fresh h d :
  keepsObjects h (<[fresh (dom h) := d]> h).
Proof.
  intros l x H. rewrite lookup_insert_ne; [exact H |].
  intros <-. apply (is_fresh (dom h)). apply elem_of_dom. eauto.
Qed.

Lemma keepsObjects_fresh2 h d d' :
  keepsObjects h (<[fresh (dom h) := d]> (<[fresh (dom h) := d']> h)).
Proof.
  intros l x H.
  assert (N : fresh (dom h) <> l).
  { intros <-. apply (is_fresh (dom h)). apply elem_of_dom. eauto. }
  now rewrite !lookup_insert_ne.
Qed.

Lemma freeOr_hashAt db key h :
  freeOr db key (RHash h) ->
  hashOrFree db key /\ (hashAt db key = [] \/ hashAt db key = h).
Proof.
  unfold freeOr, hashOrFree, hashAt.
  intros [-> | ->]; split; try exact I; auto.
Qed.

Lemma main_from hp db snt out :
  mainReady db ->
  exists hp',
    main (mkWorld hp (mkConn db snt false) out)
    = (mkWorld hp' (mkConn (mainStore db) (snt ++ mainCommands) false)
               (out ++ mainOutput),
       Ok tt) /\
    keepsObjects hp hp'.
Proof.
  intros (K1 & K2 & K3).
  assert (I64 : isInt64 1) by (unfold isInt64; vm_compute; split; discriminate).
  assert (V : validInfo (Some johnDoe)) by (repeat split).
  set (l := fresh (dom hp)).
  set (hp1 := <[l := johnDoe]> hp).
  set (st := mkStudent (Some l) 1).
  unfold main. unfold bind at 1. unfold alloc at 1.
  cbn [heap conn stdout]. fold l. fold johnDoe. fold hp1. cbv zeta. fold st.
  assert (D1 : forall c o, deepValue (mkWorld hp1 c o) st = Some (Some johnDoe, 1)).
  { intros c o. unfold deepValue, st, hp1. cbn [Info Rank heap].
    now rewrite lookup_insert_eq. }
  (* HMSET *)
  set (db1 := <["JohnDoeHash" :=
                  RHash [("Info", "&{John Doe CSE}"); ("Rank", "1")]]> db).
  set (c1 := ["HMSET"; "JohnDoeHash"; "Info"; "&{John Doe CSE}"; "Rank"; "1"]).
  assert (S1 : addStructHash "JohnDoeHash" (VStudent st)
                 (mkWorld hp1 (mkConn db snt false) out)
               = (mkWorld hp1 (mkConn db1 (snt ++ [c1]) false) out, Ok tt)).
  { rewrite (addStructHash_run "JohnDoeHash" st (Some johnDoe) 1
               (mkWorld hp1 (mkConn db snt false) out) (D1 _ _) eq_refl).
    cbn [conn server]. unfold hashAt.
    destruct K1 as [-> | ->]; reflexivity. }
  rewrite (bind_Ok _ _ _ _ _ S1). clear S1.
  (* JSON.SET *)
  set (db2 := <["JohnDoeJSON" := RJson (studentJSON (Some johnDoe) 1)]> db1).
  set (c2 := ["JSON.SET"; "JohnDoeJSON"; "."; johnDoeText]).
  assert (S2 : addStructReJSON "JohnDoeJSON" (VStudent st)
                 (mkWorld hp1 (mkConn db1 (snt ++ [c1]) false) out)
               = (mkWorld hp1 (mkConn db2 ((snt ++ [c1]) ++ [c2]) false) out,
                  Ok tt)).
  { rewrite (addStructReJSON_run "JohnDoeJSON" (VStudent st) _
               (mkWorld hp1 (mkConn db1 (snt ++ [c1]) false) out)
               (Marshal_deep _ _ _ _ (D1 _ _)) eq_refl).
    rewrite (parse_encodeStudent (Some johnDoe) 1 V I64).
    cbn [conn server]. unfold db1 at 1.
    rewrite lookup_insert_ne by discriminate.
    destruct K2 as [-> | ->]; reflexivity. }
  rewrite (bind_Ok _ _ _ _ _ S2). clear S2.
  (* HGETALL *)
  set (c3 := ["HGETALL"; "JohnDoeHash"]).
  assert (S3 : getStructHash "JohnDoeHash"
                 (mkWorld hp1 (mkConn db2 ((snt ++ [c1]) ++ [c2]) false) out)
               = (mkWorld hp1
                    (mkConn db2 (((snt ++ [c1]) ++ [c2]) ++ [c3]) false) out,
                  Ok (RArray [RBulk "Info"; RBulk "&{John Doe CSE}";
                              RBulk "Rank"; RBulk "1"]))).
  { assert (L : db2 !! "JohnDoeHash"
                = Some (RHash [("Info", "&{John Doe CSE}"); ("Rank", "1")])).
    { unfold db2, db1. rewrite lookup_insert_ne by discriminate.
      apply lookup_insert_eq. }
    rewrite getStructHash_run by reflexivity.
    cbn [conn server]. rewrite L. reflexivity. }
  rewrite (bind_Ok _ _ _ _ _ S3). clear S3.
  unfold bind at 1. cbn [redis.StringMap redis.pairs ret fold_left fst snd].
  assert (L1 : (<["Rank" := "1"]> (<["Info" := "&{John Doe CSE}"]> ∅)
                : gmap string string) !! "Info" = Some "&{John Doe CSE}").
  { rewrite lookup_insert_ne by discriminate. apply lookup_insert_eq. }
  rewrite L1. clear L1. cbn [default].
  unfold bind at 1. unfold Println at 1. cbn [heap conn stdout].
  set (o1 := out ++ _).
  (* JSON.GET *)
  set (c4 := ["JSON.GET"; "JohnDoeJSON"; ""]).
  set (s3 := ((snt ++ [c1]) ++ [c2]) ++ [c3]).
  assert (S4 : getStructReJSON "JohnDoeJSON"
                 (mkWorld hp1 (mkConn db2 s3 false) o1)
               = (mkWorld hp1 (mkConn db2 (s3 ++ [c4]) false) o1,
                  Ok (RBulk (redis_server.serialize
                               (studentJSON (Some johnDoe) 1))))).
  { assert (L : db2 !! "JohnDoeJSON"
                = Some (RJson (studentJSON (Some johnDoe) 1))).
    { unfold db2. apply lookup_insert_eq. }
    rewrite getStructReJSON_run by reflexivity.
    cbn [conn server]. rewrite L. reflexivity. }
  rewrite (bind_Ok _ _ _ _ _ S4). clear S4.
  unfold bind at 1. cbn [assertBytes ret].
  set (l2 := fresh (dom hp1)).
  set (hp2 := <[l2 := johnDoe]> (<[l2 := mkStudentDetails "" "" ""]> hp1)).
  rewrite (bind_Ok _ _ _ _ _
             (Unmarshal_record _ johnDoe 1
                (mkWorld hp1 (mkConn db2 (s3 ++ [c4]) false) o1)
                (parse_serialize_student (Some johnDoe) 1 V I64) I64)).
  cbn [heap conn stdout]. fold l2. fold hp2.
  unfold bind at 1. cbn [Info deref]. unfold bind at 1. unfold load at 1.
  cbn [heap].
  assert (L2 : hp2 !! l2 = Some johnDoe) by (unfold hp2; apply lookup_insert_eq).
  rewrite L2. cbn [ret].
  unfold bind at 1. unfold Println at 1. cbn [heap conn stdout].
  set (o2 := o1 ++ _).
  (* HSET *)
  assert (D2 : forall c o, deepValue (mkWorld hp2 c o) st = Some (Some johnDoe, 1)).
  { intros c o.
    pose proof (keepsObjects_fresh2 hp1 johnDoe (mkStudentDetails "" "" "")
                  l johnDoe) as Kp.
    unfold deepValue, st. cbn [Info Rank heap]. unfold hp2, l2.
    rewrite Kp; [reflexivity |]. unfold hp1. apply lookup_insert_eq. }
  set (db3 := <["JohnDoeHashJSON" := RHash [("JSON", johnDoeText)]]> db2).
  set (c5 := ["HSET"; "JohnDoeHashJSON"; "JSON"; johnDoeText]).
  assert (S5 : addStructHashWithJSON "JohnDoeHashJSON" (VStudent st)
                 (mkWorld hp2 (mkConn db2 (s3 ++ [c4]) false) o2)
               = (mkWorld hp2 (mkConn db3 ((s3 ++ [c4]) ++ [c5]) false) o2,
                  Ok tt)).
  { assert (L : db2 !! "JohnDoeHashJSON" = db !! "JohnDoeHashJSON").
    { unfold db2, db1. now rewrite !lookup_insert_ne by discriminate. }
    rewrite (addStructHashWithJSON_run "JohnDoeHashJSON" (VStudent st) _
               (mkWorld hp2 (mkConn db2 (s3 ++ [c4]) false) o2)
               (Marshal_deep _ _ _ _ (D2 _ _)) eq_refl).
    cbn [conn server]. unfold hashAt. rewrite L.
    destruct K3 as [-> | ->]; reflexivity. }
  rewrite (bind_Ok _ _ _ _ _ S5). clear S5.
  (* HGET *)
  set (c6 := ["HGET"; "JohnDoeHashJSON"; "JSON"]).
  set (s5 := (s3 ++ [c4]) ++ [c5]).
  assert (S6 : getStructHashWithJSON "JohnDoeHashJSON"
                 (mkWorld hp2 (mkConn db3 s5 false) o2)
               = (mkWorld hp2 (mkConn db3 (s5 ++ [c6]) false) o2,
                  Ok (RBulk johnDoeText))).
  { assert (L : db3 !! "JohnDoeHashJSON" = Some (RHash [("JSON", johnDoeText)])).
    { unfold db3. apply lookup_insert_eq. }
    rewrite getStructHashWithJSON_run by reflexivity.
    cbn [conn server]. rewrite L. reflexivity. }
  rewrite (bind_Ok _ _ _ _ _ S6). clear S6.
  unfold bind at 1. cbn [assertBytes ret].
  set (l3 := fresh (dom hp2)).
  set (hp3 := <[l3 := johnDoe]> (<[l3 := mkStudentDetails "" "" ""]> hp2)).
  rewrite (bind_Ok _ _ _ _ _
             (Unmarshal_record johnDoeText johnDoe 1
                (mkWorld hp2 (mkConn db3 (s5 ++ [c6]) false) o2)
                (parse_encodeStudent (Some johnDoe) 1 V I64) I64)).
  cbn [heap conn stdout]. fold l3. fold hp3.
  unfold bind at 1. cbn [Info deref]. unfold bind at 1. unfold load at 1.
  cbn [heap].
  assert (L3 : hp3 !! l3 = Some johnDoe) by (unfold hp3; apply lookup_insert_eq).
  rewrite L3. cbn [ret]. unfold Println.
  cbn [heap conn stdout].
  exists hp3. split.
  - unfold o2, o1, s5, s3, mainCommands, mainOutput, mainStore, db3, db2, db1.
    rewrite <- !app_assoc. reflexivity.
  - apply (keepsObjects_trans _ hp1); [apply keepsObjects_fresh |].
    apply (keepsObjects_trans _ hp2); apply keepsObjects_fresh2.
Qed.

Lemma mainStore_ready db : mainReady (mainStore db).
Proof.
  unfold mainReady, freeOr, mainStore. repeat split; right.
  - rewrite !lookup_insert_ne by discriminate. apply lookup_insert_eq.
  - rewrite lookup_insert_ne by discriminate. apply lookup_insert_eq.
  - apply lookup_insert_eq.
Qed.

Lemma mainStore_again db : mainStore (mainStore db) = mainStore db.
Proof.
  apply map_eq. intros k. unfold mainStore.
  destruct (decide (k = "JohnDoeHashJSON")) as [-> | N3].
  { now rewrite !lookup_insert_eq. }
  rewrite (lookup_insert_ne _ "JohnDoeHashJSON" k) by congruence.
  destruct (decide (k = "JohnDoeJSON")) as [-> | N2].
  { rewrite lookup_insert_eq.
    rewrite (lookup_insert_ne _ "JohnDoeHashJSON" "JohnDoeJSON") by discriminate.
    now rewrite lookup_insert_eq. }
  rewrite (lookup_insert_ne _ "JohnDoeJSON" k) by congruence.
  destruct (decide (k = "JohnDoeHash")) as [-> | N1].
  { rewrite lookup_insert_eq.
    rewrite !lookup_insert_ne by discriminate.
    now rewrite lookup_insert_eq. }
  rewrite !lookup_insert_ne by congruence. reflexivity.
Qed.

(** X23. A run of [main].  On an open connection to a server on which the
    three keys of [main] are free, [main] ends without an error.  It
    prints the three lines given in the comments of the source, sends
    six commands, leaves the flattened hash, the JSON document and the
    hash with the JSON text under its three keys and every other key as
    it was, and keeps every object of the heap. *)
Theorem main_run (w : World) :
  closed (conn w) = false ->
  server (conn w) !! "JohnDoeHash" = None ->
  server (conn w) !! "JohnDoeJSON" = None ->
  server (conn w) !! "JohnDoeHashJSON" = None ->
  exists w',
    main w = (w', Ok tt) /\
    stdout w' = stdout w ++ mainOutput /\
    newCommands w w' = mainCommands /\
    server (conn w') = mainStore (server (conn w)) /\
    keepsObjects (heap w) (heap w').
Proof.
  intros C K1 K2 K3. destruct w as [hp [db snt cl] out].
  cbn [conn closed server] in *. subst cl.
  destruct (main_from hp db snt out) as (hp' & E & Kp).
  { repeat split; now left. }
  eexists. split; [exact E |].
  cbn [stdout conn server heap]. repeat split; try assumption.
  unfold newCommands. cbn [conn sent]. now rewrite drop_app_length.
Qed.

Lemma main_run_witness :
  exists w',
    main emptyWorld = (w', Ok tt) /\
    stdout w' = mainOutput /\
    newCommands emptyWorld w' = mainCommands /\
    server (conn w') = mainStore ∅ /\
    keepsObjects (heap emptyWorld) (heap w').
Proof.
  apply (main_run emptyWorld); reflexivity.
Defined.

(** X24. [main] can be run again.  On the store that a run of [main] leaves,
    a second run ends without an error, prints the same three lines and
    leaves the store as the first run left it. *)
Theorem main_is_repeatable (w : World) :
  closed (conn w) = false ->
  server (conn w) !! "JohnDoeHash" = None ->
  server (conn w) !! "JohnDoeJSON" = None ->
  server (conn w) !! "JohnDoeHashJSON" = None ->
  let w1 := fst (main w) in
  exists w2,
    main w1 = (w2, Ok tt) /\
    stdout w2 = stdout w1 ++ mainOutput /\
    server (conn w2) = server (conn w1).
Proof.
  intros C K1 K2 K3. destruct w as [hp [db snt cl] out].
  cbn [conn closed server] in *. subst cl.
  destruct (main_from hp db snt out) as (hp' & E & _).
  { repeat split; now left. }
  cbv zeta. rewrite E. cbn [fst].
  destruct (main_from hp' (mainStore db) (snt ++ mainCommands)
              (out ++ mainOutput) (mainStore_ready db)) as (hp'' & E' & _).
  eexists. split; [exact E' |].
  cbn [stdout conn server]. split; [reflexivity | apply mainStore_again].
Qed.

Lemma main_is_repeatable_witness :
  exists w2,
    main (fst (main emptyWorld)) = (w2, Ok tt) /\
    stdout w2 = stdout (fst (main emptyWorld)) ++ mainOutput /\
    server (conn w2) = server (conn (fst (main emptyWorld))).
Proof.
  apply (main_is_repeatable emptyWorld); reflexivity.
Defined.

(** X25. [main] stops at the first error and undoes nothing.  When the key
    ["JohnDoeJSON"] holds a value that is not a JSON document (and
    ["JohnDoeHash"] is free), the second write fails with the
    wrong-type error: [main] ends with that error and prints nothing,
    and the flattened hash of the first write stays in the store. *)
Theorem main_stops_at_the_first_error (w : World) (v : RedisVal) :
  closed (conn w) = false ->
  server (conn w) !! "JohnDoeHash" = None ->
  server (conn w) !! "JohnDoeJSON" = Some v ->
  (forall doc, v <> RJson doc) ->
  let w' := fst (main w) in
  snd (main w) = Err (RedisError redis_server.wrongType) /\
  stdout w' = stdout w /\
  server (conn w') !! "JohnDoeHash"
  = Some (RHash [("Info", "&{John Doe CSE}"); ("Rank", "1")]) /\
  server (conn w') !! "JohnDoeJSON" = Some v.
Proof.
  intros C K1 K2 NJ. destruct w as [hp [db snt cl] out].
  cbn [conn closed server] in *. subst cl.
  assert (I64 : isInt64 1) by (unfold isInt64; vm_compute; split; discriminate).
  assert (V : validInfo (Some johnDoe)) by (repeat split).
  set (l := fresh (dom hp)).
  set (hp1 := <[l := johnDoe]> hp).
  set (st := mkStudent (Some l) 1).
  set (db1 := <["JohnDoeHash" :=
                  RHash [("Info", "&{John Doe CSE}"); ("Rank", "1")]]> db).
  set (c1 := ["HMSET"; "JohnDoeHash"; "Info"; "&{John Doe CSE}"; "Rank"; "1"]).
  set (c2 := ["JSON.SET"; "JohnDoeJSON"; "."; johnDoeText]).
  assert (E : main (mkWorld hp (mkConn db snt false) out)
              = (mkWorld hp1 (mkConn db1 ((snt ++ [c1]) ++ [c2]) false) out,
                 Err (RedisError redis_server.wrongType))).
  { unfold main. unfold bind at 1. unfold alloc at 1.
    cbn [heap conn stdout]. fold l. fold johnDoe. fold hp1. cbv zeta. fold st.
    assert (D1 : forall c o,
              deepValue (mkWorld hp1 c o) st = Some (Some johnDoe, 1)).
    { intros c o. unfold deepValue, st, hp1. cbn [Info Rank heap].
      now rewrite lookup_insert_eq. }
    assert (S1 : addStructHash "JohnDoeHash" (VStudent st)
                   (mkWorld hp1 (mkConn db snt false) out)
                 = (mkWorld hp1 (mkConn db1 (snt ++ [c1]) false) out, Ok tt)).
    { rewrite (addStructHash_run "JohnDoeHash" st (Some johnDoe) 1
                 (mkWorld hp1 (mkConn db snt false) out) (D1 _ _) eq_refl).
      cbn [conn server]. unfold hashAt. rewrite K1. reflexivity. }
    rewrite (bind_Ok _ _ _ _ _ S1). clear S1.
    assert (S2 : addStructReJSON "JohnDoeJSON" (VStudent st)
                   (mkWorld hp1 (mkConn db1 (snt ++ [c1]) false) out)
                 = (mkWorld hp1 (mkConn db1 ((snt ++ [c1]) ++ [c2]) false) out,
                    Err (RedisError redis_server.wrongType))).
    { rewrite (addStructReJSON_run "JohnDoeJSON" (VStudent st) _
                 (mkWorld hp1 (mkConn db1 (snt ++ [c1]) false) out)
                 (Marshal_deep _ _ _ _ (D1 _ _)) eq_refl).
      rewrite (parse_encodeStudent (Some johnDoe) 1 V I64).
      cbn [conn server]. unfold db1 at 1.
      rewrite lookup_insert_ne by discriminate. rewrite K2.
      destruct v as [h | doc | s]; try reflexivity.
      exfalso. now apply (NJ doc). }
    now rewrite (bind_Err _ _ _ _ _ S2). }
  cbv zeta. rewrite E. cbn [fst snd stdout conn server].
  split; [reflexivity |]. split; [reflexivity |].
  unfold db1. split; [apply lookup_insert_eq |].
  now rewrite lookup_insert_ne by discriminate.
Qed.

Lemma main_stops_at_the_first_error_witness :
  snd (main worldWithClash) = Err (RedisError redis_server.wrongType) /\
  stdout (fst (main worldWithClash)) = [] /\
  server (conn (fst (main worldWithClash))) !! "JohnDoeHash"
  = Some (RHash [("Info", "&{John Doe CSE}"); ("Rank", "1")]) /\
  server (conn (fst (main worldWithClash))) !! "JohnDoeJSON"
  = Some (RHash [("Note", "x")]).
Proof.
  apply (main_stops_at_the_first_error worldWithClash (RHash [("Note", "x")])).
  - reflexivity.
  - reflexivity.
  - reflexivity.
  - discriminate.
Defined.


(** ** The record read back is a copy *)

(** X27. The record decoded after a round trip through either JSON
    encoding is a fresh copy.  For a record whose Detail holds valid
    strings, on an open connection and a key that is free or holds a
    value of the right kind: write, read and [json.Unmarshal] into a
    zero [Student] all succeed; the record obtained has the rank
    written and points to a newly allocated object, at an address that
    was not in use, which holds the Detail written; and every object
    that was on the heap is still there, unchanged. *)
Theorem decoded_record_is_a_fresh_copy
    (key : string) (r : Student) (l : loc) (d : StudentDetails) (w : World) :
  Info r = Some l -> heap w !! l = Some d ->
  validDetails d -> isInt64 (Rank r) ->
  closed (conn w) = false ->
  let copied (res : World * result Student) :=
    exists l',
      snd res = Ok (mkStudent (Some l') (Rank r)) /\
      heap w !! l' = None /\
      heap (fst res) !! l' = Some d /\
      keepsObjects (heap w) (heap (fst res)) in
  (hashOrFree (server (conn w)) key ->
   copied (roundTrip addStructHashWithJSON getStructHashWithJSON key r w)) /\
  (docOrFree (server (conn w)) key ->
   copied (roundTrip addStructReJSON getStructReJSON key r w)).
Proof.
  intros HI HL V I64 C. cbv zeta.
  assert (D : deepValue w r = Some (Some d, Rank r))
    by (unfold deepValue; now rewrite HI, HL).
  pose proof (Marshal_deep _ _ _ _ D) as M.
  assert (Copy : forall data c o,
            jsontext.parseJSON data = Some (studentJSON (Some d) (Rank r)) ->
            exists l',
              snd (json.Unmarshal data zeroStudent (mkWorld (heap w) c o))
              = Ok (mkStudent (Some l') (Rank r)) /\
              heap w !! l' = None /\
              heap (fst (json.Unmarshal data zeroStudent
                           (mkWorld (heap w) c o))) !! l' = Some d /\
              keepsObjects (heap w)
                (heap (fst (json.Unmarshal data zeroStudent
                              (mkWorld (heap w) c o))))).
  { intros data c o P. unfold zeroStudent.
    rewrite (Unmarshal_record data d (Rank r) (mkWorld (heap w) c o) P I64).
    cbn [fst snd heap]. exists (fresh (dom (heap w))).
    split; [reflexivity |]. split; [| split].
    - apply not_elem_of_dom, is_fresh.
    - apply lookup_insert_eq.
    - apply keepsObjects_fresh2. }
  split; intros K.
  - assert (E : exists c o,
              roundTrip addStructHashWithJSON getStructHashWithJSON key r w
              = json.Unmarshal (json.encodeStudent (Some d) (Rank r))
                  zeroStudent (mkWorld (heap w) c o)).
    { unfold roundTrip. unfold bind at 1.
      rewrite (addStructHashWithJSON_run key _ _ w M C).
      unfold hashOrFree in K.
      destruct (server (conn w) !! key) as [[h | doc | s] |] eqn:EK;
        try contradiction;
        (unfold bind at 1; rewrite getStructHashWithJSON_run by reflexivity;
         cbn [afterCommand conn server]; rewrite lookup_insert_eq;
         unfold hgetAnswer; rewrite hashGet_hashSet;
         unfold bind at 1; cbn [assertBytes ret];
         eexists _, _; reflexivity). }
    destruct E as (c & o & ->).
    apply Copy, parse_encodeStudent; [exact V | exact I64].
  - assert (E : exists c o,
              roundTrip addStructReJSON getStructReJSON key r w
              = json.Unmarshal
                  (redis_server.serialize (studentJSON (Some d) (Rank r)))
                  zeroStudent (mkWorld (heap w) c o)).
    { unfold roundTrip. unfold bind at 1.
      rewrite (addStructReJSON_run key _ _ w M C).
      rewrite (parse_encodeStudent (Some d) (Rank r) V I64).
      unfold docOrFree in K.
      destruct (server (conn w) !! key) as [[h | doc | s] |] eqn:EK;
        try contradiction;
        (unfold bind at 1; rewrite getStructReJSON_run by reflexivity;
         cbn [afterCommand conn server]; rewrite lookup_insert_eq;
         unfold jsonGetAnswer;
         unfold bind at 1; cbn [assertBytes ret];
         eexists _, _; reflexivity). }
    destruct E as (c & o & ->).
    apply Copy, parse_serialize_student; [exact V | exact I64].
Qed.

Lemma decoded_record_is_a_fresh_copy_witness :
  exists l',
    snd (roundTrip addStructReJSON getStructReJSON "JohnDoeJSON" sparse
           worldWithSparse)
    = Ok (mkStudent (Some l') 0) /\
    heap worldWithSparse !! l' = None /\
    heap (fst (roundTrip addStructReJSON getStructReJSON "JohnDoeJSON" sparse
                 worldWithSparse)) !! l'
    = Some sparseDetails /\
    keepsObjects (heap worldWithSparse)
      (heap (fst (roundTrip addStructReJSON getStructReJSON "JohnDoeJSON"
                    sparse worldWithSparse))).
Proof.
  assert (I64 : isInt64 (Rank sparse))
    by (unfold isInt64; vm_compute; split; discriminate).
  destruct (decoded_record_is_a_fresh_copy "JohnDoeJSON" sparse 1%positive
              sparseDetails worldWithSparse eq_refl eq_refl
              (conj eq_refl (conj eq_refl eq_refl)) I64 eq_refl) as [_ B].
  apply B. exact I.
Defined.

(** ** The order of writes under different keys *)

(** On an open connection the write of a record is local to its key:
    what it leaves in the database is a function of what the key held. *)
Lemma write_is_local write key r o rank :
  write = addStructHash \/ write = addStructReJSON
  \/ write = addStructHashWithJSON ->
  exists nv : option RedisVal -> option RedisVal,
    forall w,
      deepValue w r = Some (o, rank) ->
      closed (conn w) = false ->
      server (conn (fst (write key (VStudent r) w)))
      = match nv (server (conn w) !! key) with
        | Some v => <[key := v]> (server (conn w))
        | None => server (conn w)
        end /\
      heap (fst (write key (VStudent r) w)) = heap w /\
      closed (conn (fst (write key (VStudent r) w))) = false.
Proof.
  intros [-> | [-> | ->]].
  - exists (fun held =>
              match held with
              | Some (RJson _) | Some (RStr _) => None
              | _ =>
                Some (RHash
                  (fst (redis_server.hashSet
                          (fst (redis_server.hashSet
                                  (match held with
                                   | Some (RHash h) => h
                                   | _ => []
                                   end)
                                  "Info" (fmt.SprintDetailsPtr o)))
                          "Rank" (strconv.FormatInt rank))))
              end).
    intros w D C. rewrite (addStructHash_run key r o rank w D C).
    unfold hashAt.
    destruct (server (conn w) !! key) as [[h | doc | s] |];
      repeat split.
  - exists (fun held =>
              match jsontext.parseJSON (json.encodeStudent o rank) with
              | None => None
              | Some v =>
                match held with
                | None | Some (RJson _) => Some (RJson v)
                | Some _ => None
                end
              end).
    intros w D C.
    rewrite (addStructReJSON_run key _ _ w (Marshal_deep _ _ _ _ D) C).
    destruct (jsontext.parseJSON (json.encodeStudent o rank)) as [v |];
      [| repeat split].
    destruct (server (conn w) !! key) as [[h | doc | s] |];
      repeat split.
  - exists (fun held =>
              match held with
              | Some (RJson _) | Some (RStr _) => None
              | _ =>
                Some (RHash
                  (fst (redis_server.hashSet
                          (match held with
                           | Some (RHash h) => h
                           | _ => []
                           end)
                          "JSON" (json.encodeStudent o rank))))
              end).
    intros w D C.
    rewrite (addStructHashWithJSON_run key _ _ w (Marshal_deep _ _ _ _ D) C).
    unfold hashAt.
    destruct (server (conn w) !! key) as [[h | doc | s] |];
      repeat split.
Qed.

(** X28. Writes under different keys commute on the store.  For any two
    of the three write operations, two records and two different keys,
    the database after the one write followed by the other is the
    database after the two writes in the opposite order. *)
Theorem writes_under_different_keys_commute
    (write1 write2 : string -> Value -> Prog unit)
    (key1 key2 : string) (r1 r2 : Student)
    (o1 o2 : option StudentDetails) (rank1 rank2 : Z) (w : World) :
  write1 = addStructHash \/ write1 = addStructReJSON
  \/ write1 = addStructHashWithJSON ->
  write2 = addStructHash \/ write2 = addStructReJSON
  \/ write2 = addStructHashWithJSON ->
  deepValue w r1 = Some (o1, rank1) ->
  deepValue w r2 = Some (o2, rank2) ->
  key1 <> key2 ->
  server (conn (fst (write2 key2 (VStudent r2)
                       (fst (write1 key1 (VStudent r1) w)))))
  = server (conn (fst (write1 key1 (VStudent r1)
                         (fst (write2 key2 (VStudent r2) w))))).
Proof.
  intros W1 W2 D1 D2 N.
  destruct (closed (conn w)) eqn:C.
  { assert (E : forall write key v,
              write = addStructHash \/ write = addStructReJSON
              \/ write = addStructHashWithJSON ->
              fst (write key v w) = w).
    { intros write key v [-> | [-> | ->]].
      - exact (proj1 (oneCommandOn_closed _ key _ w
                        (addStructHash_one key _) C)).
      - exact (proj1 (oneCommandOn_closed _ key _ w
                        (addStructReJSON_one key _) C)).
      - exact (proj1 (oneCommandOn_closed _ key _ w
                        (addStructHashWithJSON_one key _) C)). }
    repeat (rewrite (E write1 key1 _ W1) || rewrite (E write2 key2 _ W2)).
    reflexivity. }
  destruct (write_is_local write1 key1 r1 o1 rank1 W1) as [nv1 L1].
  destruct (write_is_local write2 key2 r2 o2 rank2 W2) as [nv2 L2].
  destruct (L1 w D1 C) as (S1 & H1 & C1).
  destruct (L2 w D2 C) as (S2 & H2 & C2).
  set (wa := fst (write1 key1 (VStudent r1) w)) in *.
  set (wb := fst (write2 key2 (VStudent r2) w)) in *.
  assert (Da : deepValue wa r2 = Some (o2, rank2))
    by (rewrite <- D2; now apply deepValue_sameHeap).
  assert (Db : deepValue wb r1 = Some (o1, rank1))
    by (rewrite <- D1; now apply deepValue_sameHeap).
  destruct (L2 wa Da C1) as (S12 & _ & _).
  destruct (L1 wb Db C2) as (S21 & _ & _).
  assert (Ka : server (conn wa) !! key2 = server (conn w) !! key2).
  { rewrite S1. destruct (nv1 _); [| reflexivity].
    now rewrite lookup_insert_ne by congruence. }
  assert (Kb : server (conn wb) !! key1 = server (conn w) !! key1).
  { rewrite S2. destruct (nv2 _); [| reflexivity].
    now rewrite lookup_insert_ne by congruence. }
  rewrite S12, S21, Ka, Kb, S1, S2.
  destruct (nv1 (server (conn w) !! key1)) as [v1 |],
           (nv2 (server (conn w) !! key2)) as [v2 |]; try reflexivity.
  apply insert_insert_ne. congruence.
Qed.

Lemma writes_under_different_keys_commute_witness :
  server (conn (fst (addStructReJSON "B" (VStudent john)
                       (fst (addStructHash "A" (VStudent john) worldWithJohn)))))
  = server (conn (fst (addStructHash "A" (VStudent john)
                         (fst (addStructReJSON "B" (VStudent john)
                                 worldWithJohn))))).
Proof.
  apply (writes_under_different_keys_commute addStructHash addStructReJSON
           "A" "B" john john (Some johnDoe) (Some johnDoe) 1 1 worldWithJohn).
  - now left.
  - right. now left.
  - reflexivity.
  - reflexivity.
  - discriminate.
Defined.
